(** * web-agent: the iterative action loop, verified over a shallow embedding

    The development follows the three source files that hold the core of
    the program:

    - [controller/marionette_controller.py]: [EnhancedMarionetteController],
      the methods that talk to the browser through the Marionette client;
    - [executor/command_executor.py]: [CommandExecutor], with
      [_execute_step], [_attempt_recovery] and
      [execute_command_iteratively];
    - [parser/command_parser.py]: [CommandParser.get_next_step], from the
      transcript and the snapshot to the prompt, and from the answer of the
      language model to the step.

    The Marionette client, the OCR pipeline, the language model behind
    [CommandParser.get_next_step] and the clock of [time.sleep] are
    external: they are the fields of the class [BrowserDriver], and every
    one of them may raise.  Python exceptions are an explicit error result,
    the browser is an explicit state, and the events the executor produces
    (pauses, the tier of a click that is being tried, the start of a step)
    are appended to a log.

    A text is the sequence of the bytes of its UTF-8 encoding.  White
    space is the white space of the two languages, with the characters
    beyond ASCII; lengths and cuts are counted in code points for Python
    and in UTF-16 code units for JavaScript.  The case mappings and the
    reading of digits, which follow the Unicode tables of the interpreter,
    are the fields of the class [Builtins]; a value that goes through
    [int()] is given by what [int()] makes of it.

    The loop of the executor takes its steps from the field
    [llm_get_next_step], which may answer with any step.  The parser is
    embedded on its own, over the chat completion of the class [ChatModel];
    the statements about parsed steps say what holds for the steps that
    [get_next_step] can return. *)

From Stdlib Require Import ZArith List String Ascii Bool Lia QArith Qround.
From Stdlib Require Import Sorted DecimalString.
Import ListNotations.

Close Scope Q_scope.
Open Scope string_scope.
Open Scope Z_scope.

Set Implicit Arguments.

(* ================================================================== *)
(** * Python and JavaScript strings *)
(* ================================================================== *)

(** A text is the sequence of the bytes of its UTF-8 encoding, a lone
    surrogate of a JavaScript string being encoded like any code point of
    three bytes.  The literals of the source are ASCII, so they are their
    own encoding. *)
Module PyStr.

Definition code (c : ascii) : nat := nat_of_ascii c.

Definition of_codes (l : list nat) : string :=
  fold_right (fun n s => String (ascii_of_nat n) s) EmptyString l.

(** The bytes 0x80 to 0xbf continue a character; every other byte starts
    one. *)
Definition continues (c : ascii) : bool := ((128 <=? code c) && (code c <=? 191))%nat.

(** [len(s)], in code points. *)
Fixpoint len (s : string) : nat :=
  match s with
  | EmptyString => O
  | String c s' => if continues c then len s' else S (len s')
  end.

(** [s[:n]] *)
Fixpoint take (n : nat) (s : string) : string :=
  match s with
  | EmptyString => EmptyString
  | String c s' =>
      if continues c then String c (take n s')
      else match n with
           | O => EmptyString
           | S n' => String c (take n' s')
           end
  end.

(** The characters of [str.isspace], which are those [str.strip] removes
    and the class [\s] of [re] matches: U+0009 to U+000D, U+001C to U+0020,
    U+0085, U+00A0, U+1680, U+2000 to U+200A, U+2028, U+2029, U+202F,
    U+205F and U+3000. *)
Definition spaces : list string :=
  map of_codes
    [ [9]; [10]; [11]; [12]; [13]; [28]; [29]; [30]; [31]; [32];
      [194; 133]; [194; 160]; [225; 154; 128];
      [226; 128; 128]; [226; 128; 129]; [226; 128; 130]; [226; 128; 131];
      [226; 128; 132]; [226; 128; 133]; [226; 128; 134]; [226; 128; 135];
      [226; 128; 136]; [226; 128; 137]; [226; 128; 138];
      [226; 128; 168]; [226; 128; 169]; [226; 128; 175];
      [226; 129; 159]; [227; 128; 128] ]%nat.

(** The white space and the line terminators of JavaScript, which
    [String.prototype.trim] removes: U+0009 to U+000D, U+0020, U+00A0,
    U+1680, U+2000 to U+200A, U+2028, U+2029, U+202F, U+205F, U+3000 and
    U+FEFF. *)
Definition js_spaces : list string :=
  map of_codes
    [ [9]; [10]; [11]; [12]; [13]; [32];
      [194; 160]; [225; 154; 128];
      [226; 128; 128]; [226; 128; 129]; [226; 128; 130]; [226; 128; 131];
      [226; 128; 132]; [226; 128; 133]; [226; 128; 134]; [226; 128; 135];
      [226; 128; 136]; [226; 128; 137]; [226; 128; 138];
      [226; 128; 168]; [226; 128; 169]; [226; 128; 175];
      [226; 129; 159]; [227; 128; 128]; [239; 187; 191] ]%nat.

(** The number of bytes of the character of [blanks] that [s] starts with;
    zero when it starts with none. *)
Fixpoint width (blanks : list string) (s : string) : nat :=
  match blanks with
  | [] => O
  | b :: blanks' => if String.prefix b s then String.length b else width blanks' s
  end.

(** The text without the characters of [blanks] at its start; [skip] counts
    the bytes of a found character that are still to be dropped. *)
Fixpoint lstrip_from (blanks : list string) (skip : nat) (s : string) : string :=
  match s with
  | EmptyString => EmptyString
  | String _ s' =>
      match skip with
      | S skip' => lstrip_from blanks skip' s'
      | O =>
          match width blanks s with
          | S skip' => lstrip_from blanks skip' s'
          | O => s
          end
      end
  end.

Definition lstrip_by (blanks : list string) (s : string) : string :=
  lstrip_from blanks O s.

(** The text is made of characters of [blanks] only. *)
Definition blank (blanks : list string) (s : string) : bool :=
  (lstrip_by blanks s =? EmptyString)%string.

Fixpoint rstrip_by (blanks : list string) (s : string) : string :=
  match s with
  | EmptyString => EmptyString
  | String c s' => if blank blanks s then EmptyString else String c (rstrip_by blanks s')
  end.

(** [s.lstrip()], [s.rstrip()], [s.strip()] *)
Definition lstrip (s : string) : string := lstrip_by spaces s.
Definition rstrip (s : string) : string := rstrip_by spaces s.
Definition strip (s : string) : string := lstrip (rstrip s).

(** [s.trim()] of JavaScript *)
Definition trim (s : string) : string := lstrip_by js_spaces (rstrip_by js_spaces s).

(** The number of UTF-16 code units of the character a byte starts: two
    for a character of four bytes. *)
Definition units (c : ascii) : nat :=
  if continues c then O else if (240 <=? code c)%nat then 2%nat else 1%nat.

(** [s.length] of JavaScript *)
Fixpoint js_length (s : string) : nat :=
  match s with
  | EmptyString => O
  | String c s' => (units c + js_length s')%nat
  end.

(** The first code unit of the character of four bytes that [s] starts
    with: a high surrogate, alone. *)
Definition high_surrogate (s : string) : string :=
  match s with
  | String b1 (String b2 (String b3 (String b4 _))) =>
      let byte (b : ascii) : Z := Z.of_nat (code b) in
      let point := (byte b1 mod 8) * 262144 + (byte b2 mod 64) * 4096
                   + (byte b3 mod 64) * 64 + byte b4 mod 64 in
      let high := 55296 + (point - 65536) / 1024 in
      of_codes [237%nat; Z.to_nat (128 + (high / 64) mod 64);
                Z.to_nat (128 + high mod 64)]
  | _ => EmptyString
  end.

(** [s.substring(0, n)] of JavaScript: the first [n] code units. *)
Fixpoint js_take (n : nat) (s : string) : string :=
  match s with
  | EmptyString => EmptyString
  | String c s' =>
      if continues c then String c (js_take n s')
      else
        match n with
        | O => EmptyString
        | S n' =>
            if (240 <=? code c)%nat
            then match n' with
                 | O => high_surrogate s
                 | S n'' => String c (js_take n'' s')
                 end
            else String c (js_take n' s')
        end
  end.

(** The case mappings of the ASCII letters. *)
Definition upper_char (c : ascii) : ascii :=
  if ((97 <=? code c) && (code c <=? 122))%nat then ascii_of_nat (code c - 32) else c.

Definition lower_char (c : ascii) : ascii :=
  if ((65 <=? code c) && (code c <=? 90))%nat then ascii_of_nat (code c + 32) else c.

Fixpoint map_chars (f : ascii -> ascii) (s : string) : string :=
  match s with
  | EmptyString => EmptyString
  | String c s' => String (f c) (map_chars f s')
  end.

Definition upper : string -> string := map_chars upper_char.
Definition lower : string -> string := map_chars lower_char.

(** Every character of the text is an ASCII character. *)
Fixpoint is_ascii (s : string) : bool :=
  match s with
  | EmptyString => true
  | String c s' => (code c <? 128)%nat && is_ascii s'
  end.

(** [s.startswith(p)] *)
Definition startswith (s p : string) : bool := String.prefix p s.

(** [needle in hay] *)
Fixpoint contains (needle hay : string) : bool :=
  match hay with
  | EmptyString => String.prefix needle EmptyString
  | String _ hay' => String.prefix needle hay || contains needle hay'
  end.

(** [str(n)] for an integer. *)
Definition of_Z (n : Z) : string := NilZero.string_of_int (Z.to_int n).

(** Truthiness of a string. *)
Definition truthy (s : string) : bool := negb (s =? EmptyString)%string.

End PyStr.

(** The functions of the two languages whose results depend on the Unicode
    tables of the interpreter and of the browser. *)
Class Builtins : Type := {
  (** [str.lower], [str.upper] *)
  str_lower : string -> string;
  str_upper : string -> string;
  (** [String.prototype.toLowerCase] *)
  js_lower : string -> string;
  (** [int(re.search(r'\d+', s).group(0))]: the number that the first run
      of decimal digits of [s] denotes; [None] when [s] has no digit, and
      when [int] refuses the run *)
  first_number : string -> option Z;
  (** In a text of ASCII characters [str.upper] turns the letters a to z
      into A to Z and leaves the rest. *)
  str_upper_ascii : forall s, PyStr.is_ascii s = true -> str_upper s = PyStr.upper s
}.

(* ================================================================== *)
(** * Values, dictionaries, exceptions *)
(* ================================================================== *)

(** A result dictionary: string keys, string values, in literal order. *)
Definition Dict : Type := list (string * string).

(** [d.get(k)] *)
Fixpoint dict_get (d : Dict) (k : string) : option string :=
  match d with
  | [] => None
  | (k', v) :: d' => if (k' =? k)%string then Some v else dict_get d' k
  end.

Inductive ExnClass : Type :=
| NoSuchElementException
| TimeoutException
| ConnectionRefusedError
| KeyError
| ValueError
| OverflowError
| OtherException.

(** An exception: its class and [str(e)]. *)
Record Exn : Type := mkExn { exn_class : ExnClass; exn_str : string }.

(** A value that the code hands to [int()], by what [int()] makes of it:
    the integer it returns, or the exception it raises. *)
Inductive PyVal : Type :=
| PInt (n : Z)
| PNotInt (e : Exn).

Inductive Res (A : Type) : Type :=
| Ok (a : A)
| Exc (e : Exn).

Arguments Ok {A} a.
Arguments Exc {A} e.

(* ================================================================== *)
(** * Computations: state and exceptions *)
(* ================================================================== *)

Definition Comp (S A : Type) : Type := S -> Res A * S.

Definition ret {S A : Type} (a : A) : Comp S A := fun s => (Ok a, s).

Definition raise {S A : Type} (e : Exn) : Comp S A := fun s => (Exc e, s).

Definition bind {S A B : Type} (m : Comp S A) (f : A -> Comp S B) : Comp S B :=
  fun s =>
    match m s with
    | (Ok a, s') => f a s'
    | (Exc e, s') => (Exc e, s')
    end.

(** [try: m except Exception as e: h e].  What [m] did to the state before
    it raised stays done. *)
Definition try_catch {S A : Type} (m : Comp S A) (h : Exn -> Comp S A) : Comp S A :=
  fun s =>
    match m s with
    | (Ok a, s') => (Ok a, s')
    | (Exc e, s') => h e s'
    end.

Declare Scope comp_scope.
Delimit Scope comp_scope with comp.
Notation "x <- m ;; k" := (bind m (fun x => k))
  (at level 100, m at next level, right associativity) : comp_scope.
Notation "m ;; k" := (bind m (fun _ => k))
  (at level 100, right associativity) : comp_scope.
Open Scope comp_scope.

(** [d[k]]: [KeyError] when the key is missing. *)
Definition subscript {S : Type} (d : Dict) (k : string) : Comp S string :=
  match dict_get d k with
  | Some v => ret v
  | None => raise (mkExn KeyError ("'" ++ k ++ "'"))
  end.

(** What [int(v)] evaluates to; [None] when it raises. *)
Definition int_of (v : PyVal) : option Z :=
  match v with
  | PInt n => Some n
  | PNotInt _ => None
  end.

(** [int(v)] *)
Definition py_int {S : Type} (v : PyVal) : Comp S Z :=
  match v with
  | PInt n => ret n
  | PNotInt e => raise e
  end.

(* ================================================================== *)
(** * Data of the program *)
(* ================================================================== *)

(** One row of [pytesseract.image_to_data]: the columns the code reads. *)
Record OcrRow : Type := mkOcrRow {
  ocr_text : string;
  ocr_conf : PyVal;
  ocr_left : Z;
  ocr_top : Z;
  ocr_width : Z;
  ocr_height : Z
}.

(** A node that [document.querySelectorAll] returned, with what the script
    of [get_dom_context] reads from it. *)
Record DomNode : Type := mkDomNode {
  tagName : string;
  textContent : option string;
  rect_width : Q;
  rect_height : Q;
  rect_top : Q;
  rect_left : Q;
  style_visibility : string;
  style_display : string;
  el_id : string;
  el_name : option string;
  el_className : string;
  el_href : option string;
  attr_placeholder : option string;
  attr_aria_label : option string;
  attr_title : option string
}.

(** The simplified structure the script returns for each element. *)
Record Attributes : Type := mkAttributes {
  a_id : option string;
  a_name : option string;
  a_class : option string;
  a_placeholder : option string;
  a_aria_label : option string;
  a_href : option string;
  a_title : option string
}.

Record Element : Type := mkElement {
  tag : string;
  text : string;
  attributes : Attributes;
  position_top : Z;
  position_left : Z
}.

(** The [params] dictionary of a step: the keys the executor reads.  A key
    that is absent is [None]; an absent [params] is the empty one. *)
Record Params : Type := mkParams {
  p_url : option string;
  p_query : option string;
  p_selector : option string;
  p_text : option string;
  p_seconds : option PyVal;
  p_message : option string
}.

Definition no_params : Params := mkParams None None None None None None.

(** The optional [coords] dictionary of a step. *)
Record Coords : Type := mkCoords { c_x : option Z; c_y : option Z }.

(** A step as [get_next_step] returns it: it always names its action.  The
    executor reads [dom] and [params] with a default, so an absent [dom] is
    the empty string here and an absent [params] is [no_params]. *)
Record Step : Type := mkStep {
  action : string;
  params : Params;
  dom : string;
  coords : option Coords
}.

(** The four numbered blocks of the click branch of [_execute_step]. *)
Inductive Tier : Type :=
| Structural
| Spatial
| Optical
| Descriptive.

(** How one iteration of the loop ended. *)
Inductive Verdict : Type :=
| StepSucceeded
| StepRecovered
| StepFailed.

(** What the executor leaves in its log: a pause of its own that was taken
    ([time.sleep] in [command_executor.py]; the pauses inside the
    controller are calls of the clock and leave nothing here), the start of
    a step, the tier a click tries, the answer of the OCR, the start of a
    round and the verdict on its step. *)
Inductive Event : Type :=
| EvSleep (milliseconds : Z)
| EvExec (step : Step)
| EvTier (t : Tier)
| EvOcr (found : option (Z * Z))
| EvIter (i : nat)
| EvVerdict (v : Verdict).

(* ================================================================== *)
(** * External capabilities *)
(* ================================================================== *)

(** The Marionette client ([self.client] and the elements it hands out), the
    screenshot-to-OCR pipeline, the language model of the parser and the
    clock.  [W] is the state of the world they act on, [Elem] the element
    handles. *)
Class BrowserDriver (W Elem : Type) : Type := {
  (** [Marionette(host, port)] followed by [start_session(timeout)] *)
  drv_start_session : Z -> Comp W unit;
  (** [client.navigate(url)] *)
  drv_navigate : string -> Comp W unit;
  (** [Wait(client).until(readyState == 'complete')] *)
  drv_wait_complete : Comp W unit;
  (** [client.get_url()] *)
  drv_get_url : Comp W string;
  (** [client.find_element(by, selector)] *)
  drv_find_element : string -> Comp W Elem;
  (** [client.find_elements("css selector", selector)] *)
  drv_find_elements : string -> Comp W (list Elem);
  (** [element.click()], [element.clear()], [element.send_keys(text)],
      [element.text], [element.get_attribute(name)] *)
  drv_click : Elem -> Comp W unit;
  drv_clear : Elem -> Comp W unit;
  drv_send_keys : Elem -> string -> Comp W unit;
  drv_text : Elem -> Comp W string;
  drv_get_attribute : Elem -> string -> Comp W (option string);
  (** [client.execute_script], one field for each script of the controller *)
  script_scroll_into_view_center : Elem -> Comp W unit;
  script_focus : Elem -> Comp W unit;
  script_scroll_top_into_view : Elem -> Comp W unit;
  script_clear_value : Elem -> Comp W unit;
  script_set_value : Elem -> string -> Comp W unit;
  script_form_submit : Elem -> Comp W unit;
  (** [document.elementFromPoint(x, y)], clicked when there is one *)
  script_click_at_point : Z -> Z -> Comp W bool;
  (** [document.querySelectorAll(selectors)] inside the script of
      [get_dom_context]; a failure of the script is a failure here *)
  script_query_interactive : Comp W (list DomNode);
  (** screenshot, base64 and image decoding, grey scale, [image_to_data] *)
  ocr_image_to_data : Comp W (list OcrRow);
  (** [CommandParser.get_next_step(goal, dom_context, previous_steps)] *)
  llm_get_next_step : string -> list Element -> list Dict -> Comp W (option Step);
  (** [time.sleep] for a number of milliseconds that is not negative.  The
      world goes on while the program sleeps, and the call raises when the
      platform does not take the pause ([OverflowError] or [OSError] for
      the long ones; how long is too long depends on the platform and on
      its clock). *)
  clock_sleep : Z -> Comp W unit
}.

(** [Keys.RETURN], the character U+E006 *)
Definition Keys_RETURN : string :=
  PyStr.of_codes [238; 128; 134]%nat.

Definition success (message : string) : Dict :=
  [("status", "success"); ("message", message)].

Definition error (message : string) : Dict :=
  [("status", "error"); ("message", message)].

(* ================================================================== *)
(** * The script of [get_dom_context] *)
(* ================================================================== *)

Module Script.

(** A string or [null] is truthy when it is a non-empty string. *)
Definition truthy_opt (o : option string) : bool :=
  match o with
  | Some s => PyStr.truthy s
  | None => false
  end.

(** [v || null] *)
Definition or_null (o : option string) : option string :=
  if truthy_opt o then o else None.

Definition Qpositive (q : Q) : bool := negb (Qle_bool q 0%Q).

(** [Math.round] *)
Definition Math_round (q : Q) : Z := Qfloor (q + (1 # 2))%Q.

(** The predicate of [allElements.filter]. *)
Definition visible (el : DomNode) : bool :=
  let isVisible :=
    Qpositive (rect_width el) && Qpositive (rect_height el)
    && negb (style_visibility el =? "hidden")%string
    && negb (style_display el =? "none")%string in
  let textPresent :=
    match textContent el with
    | Some t => PyStr.truthy t && (0 <? String.length (PyStr.trim t))%nat
    | None => false
    end in
  let hasAttributes :=
    truthy_opt (attr_placeholder el) || truthy_opt (attr_aria_label el)
    || PyStr.truthy (el_id el) || truthy_opt (el_href el) in
  isVisible && (textPresent || hasAttributes).

(** [priority] on the lower-case tag name. *)
Definition priority_of_tag (t : string) : Z :=
  if ((t =? "input") || (t =? "button"))%string then 1
  else if (t =? "a")%string then 2
  else 3.

Section Tags.

Context {builtins : Builtins}.

Definition priority (el : DomNode) : Z := priority_of_tag (js_lower (tagName el)).

(** [Array.prototype.sort] with a comparator: the sort is stable, an
    element stays before the later elements it does not compare greater
    than. *)
Fixpoint insert_by {A : Type} (cmp : A -> A -> Z) (x : A) (l : list A) : list A :=
  match l with
  | [] => [x]
  | y :: l' => if cmp x y <=? 0 then x :: l else y :: insert_by cmp x l'
  end.

Fixpoint sort_by {A : Type} (cmp : A -> A -> Z) (l : list A) : list A :=
  match l with
  | [] => []
  | x :: l' => insert_by cmp x (sort_by cmp l')
  end.

(** [a.slice(0, end)] *)
Definition slice0 {A : Type} (l : list A) (e : Z) : list A :=
  if e <? 0
  then firstn (Z.to_nat (Z.max (Z.of_nat (List.length l) + e) 0)) l
  else firstn (Z.to_nat e) l.

(** The function given to [map]. *)
Definition simplify (el : DomNode) : Element :=
  let textContent :=
    match textContent el with
    | Some t => if PyStr.truthy t then PyStr.trim t else EmptyString
    | None => EmptyString
    end in
  let textContent :=
    if (100 <? PyStr.js_length textContent)%nat
    then PyStr.js_take 100 textContent ++ "..."
    else textContent in
  {| tag := js_lower (tagName el);
     text := textContent;
     attributes :=
       {| a_id := or_null (Some (el_id el));
          a_name := or_null (el_name el);
          a_class := or_null (Some (el_className el));
          a_placeholder := or_null (attr_placeholder el);
          a_aria_label := or_null (attr_aria_label el);
          a_href := or_null (el_href el);
          a_title := or_null (attr_title el) |};
     position_top := Math_round (rect_top el);
     position_left := Math_round (rect_left el) |}.

(** [getInteractiveElements(maxElements)], from the nodes that
    [querySelectorAll] returned. *)
Definition getInteractiveElements (allElements : list DomNode) (maxElements : Z)
  : list Element :=
  let visibleElements := filter visible allElements in
  let visibleElements := sort_by (fun a b => priority a - priority b) visibleElements in
  map simplify (slice0 visibleElements maxElements).

End Tags.

(** [arguments[0] || 200]: the number zero is falsy. *)
Definition or_200 (n : Z) : Z := if n =? 0 then 200 else n.

End Script.

(* ================================================================== *)
(** * [EnhancedMarionetteController] *)
(* ================================================================== *)

Section Controller.

Context {W Elem : Type} {driver : BrowserDriver W Elem} {builtins : Builtins}.

(** [time.sleep] inside the controller. *)
Definition settle (milliseconds : Z) : Comp W unit := clock_sleep milliseconds.

(** [EnhancedMarionetteController.connect]; [connect] is the method of the
    executor. *)
Definition connect_controller (timeout : Z) : Comp W Dict :=
  try_catch
    (drv_start_session timeout ;;
     ret (success "Connected to Firefox"))
    (fun e =>
       match exn_class e with
       | ConnectionRefusedError =>
           ret (error "Connection refused. Make sure Firefox is running with Marionette enabled.")
       | _ => ret (error ("Error connecting to Firefox Marionette: " ++ exn_str e))
       end).

Definition navigate (url : string) : Comp W Dict :=
  let url :=
    if negb (PyStr.startswith url "http://" || PyStr.startswith url "https://")
    then "https://" ++ url else url in
  try_catch
    (drv_navigate url ;;
     drv_wait_complete ;;
     ret (success ("Navigated to " ++ url)))
    (fun e =>
       match exn_class e with
       | TimeoutException => ret (error ("Timeout while navigating to " ++ url))
       | _ => ret (error ("Navigation failed: " ++ exn_str e))
       end).

Definition find_element (selector : string) : Comp W (option Elem) :=
  try_catch
    (element <- drv_find_element selector ;; ret (Some element))
    (fun _ => ret None).

Definition click (selector : string) : Comp W Dict :=
  try_catch
    (element <- find_element selector ;;
     match element with
     | None => ret (error ("Element not found: " ++ selector))
     | Some element =>
         script_scroll_into_view_center element ;;
         settle 1000 ;;
         drv_click element ;;
         ret (success ("Clicked element: " ++ selector))
     end)
    (fun e => ret (error ("Click failed: " ++ exn_str e))).

Definition input_text (selector text : string) : Comp W Dict :=
  try_catch
    (element <- find_element selector ;;
     match element with
     | None => ret (error ("Element not found: " ++ selector))
     | Some element =>
         drv_clear element ;;
         drv_send_keys element text ;;
         ret (success ("Entered text in element: " ++ selector))
     end)
    (fun e => ret (error ("Text input failed: " ++ exn_str e))).

Definition extract (selector : string) : Comp W Dict :=
  try_catch
    (element <- find_element selector ;;
     match element with
     | None => ret (error ("Element not found: " ++ selector))
     | Some element =>
         text <- drv_text element ;;
         ret (success "Extracted content" ++ [("data", text)])%list
     end)
    (fun e => ret (error ("Extraction failed: " ++ exn_str e))).

Definition click_by_coordinates (x y : Z) : Comp W Dict :=
  let at_xy := "(" ++ PyStr.of_Z x ++ ", " ++ PyStr.of_Z y ++ ")" in
  try_catch
    (result <- script_click_at_point x y ;;
     if result : bool
     then ret (success ("Clicked at coordinates " ++ at_xy))
     else ret (error ("No element found at coordinates " ++ at_xy)))
    (fun e => ret (error ("Click by coordinates failed: " ++ exn_str e))).

(** [get_dom_context(max_elements)] *)
Definition get_dom_context (max_elements : Z) : Comp W (list Element) :=
  try_catch
    (allElements <- script_query_interactive ;;
     ret (Script.getInteractiveElements allElements (Script.or_200 max_elements)))
    (fun _ => ret []).

(** [conf = int(data['conf'][i])], zero when [int] raises. *)
Definition conf_of (row : OcrRow) : Z :=
  match int_of (ocr_conf row) with
  | Some n => n
  | None => 0
  end.

(** The condition of the [if] in the scan. *)
Definition row_matches (target_text : string) (confidence_threshold : Z) (row : OcrRow)
  : bool :=
  let text := PyStr.strip (ocr_text row) in
  (confidence_threshold <? conf_of row)
  && PyStr.contains (str_lower target_text) (str_lower text).

Definition center (row : OcrRow) : Z * Z :=
  (ocr_left row + ocr_width row / 2, ocr_top row + ocr_height row / 2).

(** The [for i in range(num_boxes)] loop. *)
Fixpoint scan_boxes (target_text : string) (confidence_threshold : Z)
  (data : list OcrRow) : option (Z * Z) :=
  match data with
  | [] => None
  | row :: data' =>
      if row_matches target_text confidence_threshold row
      then Some (center row)
      else scan_boxes target_text confidence_threshold data'
  end.

(** [get_target_coordinates_ocr]: [None] is the empty dictionary. *)
Definition get_target_coordinates_ocr (target_text : string) (confidence_threshold : Z)
  : Comp W (option (Z * Z)) :=
  try_catch
    (data <- ocr_image_to_data ;;
     ret (scan_boxes target_text confidence_threshold data))
    (fun _ => ret None).

End Controller.

(** ** [search] *)

Section ControllerSearch.

Context {W Elem : Type} {driver : BrowserDriver W Elem}.

Definition search_selectors : list string :=
  [ "input[name='q']";
    "input[type='search']";
    "input[placeholder*='search' i]";
    "input[aria-label*='search' i]";
    ".search-input";
    "textarea[name='q']";
    "#search";
    "[name='s']";
    "[name='search']";
    "input[name='query']";
    "[role='search'] input[type='text']";
    "[role='search'] input:not([type='submit'])";
    "form input[type='text']" ].

Definition button_selectors : list string :=
  [ "button[type='submit']";
    "input[type='submit']";
    ".search-button";
    "[aria-label*='search' i]";
    "button[name='btnK']";
    "#search-button";
    "form button";
    "button:contains('Search')" ].

Definition is_str (o : option string) (s : string) : bool :=
  match o with
  | Some t => (t =? s)%string
  | None => false
  end.

(** [for element in elements]: the first one that is neither a submit
    input nor a button. *)
Fixpoint pick_search_input (elements : list Elem) : Comp W (option Elem) :=
  match elements with
  | [] => ret None
  | element :: elements' =>
      element_type <- drv_get_attribute element "type" ;;
      if negb (is_str element_type "submit") && negb (is_str element_type "button")
      then ret (Some element)
      else pick_search_input elements'
  end.

(** [for selector in search_selectors], each round in its own [try]. *)
Fixpoint find_search_input (selectors : list string) : Comp W (option (Elem * string)) :=
  match selectors with
  | [] => ret None
  | selector :: selectors' =>
      search_input <-
        try_catch
          (elements <- drv_find_elements selector ;;
           pick_search_input elements)
          (fun _ => ret None) ;;
      match search_input with
      | Some element => ret (Some (element, selector))
      | None => find_search_input selectors'
      end
  end.

(** [for button_selector in button_selectors]: stops after the first
    click that does not raise. *)
Fixpoint click_search_button (selectors : list string) : Comp W unit :=
  match selectors with
  | [] => ret tt
  | button_selector :: selectors' =>
      clicked <-
        try_catch
          (buttons <- drv_find_elements button_selector ;;
           match buttons with
           | button :: _ => drv_click button ;; ret true
           | [] => ret false
           end)
          (fun _ => ret false) ;;
      if clicked : bool then ret tt else click_search_button selectors'
  end.

(** The part of [search] that brings the search input into view and
    empties it; a failure of both attempts is printed and passed over. *)
Definition prepare_input (search_input : Elem) : Comp W unit :=
  try_catch (script_focus search_input)
    (fun _ => try_catch (script_scroll_top_into_view search_input)
                (fun _ => ret tt)) ;;
  try_catch (drv_clear search_input)
    (fun _ => try_catch (script_clear_value search_input)
                (fun _ => ret tt)).

(** The part of [search] that types the query, with the keys and, if that
    fails, with a script; [Some] is the [return] inside the handler. *)
Definition enter_query (search_input : Elem) (query : string) : Comp W (option Dict) :=
  try_catch (drv_send_keys search_input query ;; ret None)
    (fun _ =>
       try_catch (script_set_value search_input query ;; ret None)
         (fun e => ret (Some (error ("Could not enter search query: "
                                       ++ exn_str e))))).

(** The part of [search] that submits; [Some] is the [return] inside the
    handler. *)
Definition submit_query (search_input : Elem) : Comp W (option Dict) :=
  try_catch (drv_send_keys search_input Keys_RETURN ;; ret None)
    (fun _ =>
       try_catch (click_search_button button_selectors ;; ret None)
         (fun _ =>
            try_catch (script_form_submit search_input ;; ret None)
              (fun e => ret (Some (error ("Could not submit search: "
                                            ++ exn_str e)))))).

(** [search(query)] *)
Definition search (query : string) : Comp W Dict :=
  try_catch
    (current_url <- drv_get_url ;;
     found <- find_search_input search_selectors ;;
     match found with
     | None => ret (error ("Could not find search box on " ++ current_url))
     | Some (search_input, used_selector) =>
         prepare_input search_input ;;
         entered <- enter_query search_input query ;;
         match entered with
         | Some failure => ret failure
         | None =>
             submitted <- submit_query search_input ;;
             match submitted with
             | Some failure => ret failure
             | None =>
                 settle 3000 ;;
                 ret [ ("status", "success");
                       ("message", "Performed search for: " ++ query);
                       ("details", "Used selector: " ++ used_selector) ]
             end
         end
     end)
    (fun e => ret (error ("Search failed: " ++ exn_str e))).

(** The selectors settle on [element], found with [used_selector], in a
    run from [w] to [w']: the selectors before [used_selector] gave no
    input, [used_selector] returned [elements], the elements in front of
    [element] were passed over, and the [type] of [element], read last,
    is neither submit nor button. *)
Definition Settled (selectors : list string) (w : W) (element : Elem)
  (used_selector : string) (w' : W) : Prop :=
  exists earlier later wa elements wb before after wc element_type,
    selectors = (earlier ++ used_selector :: later)%list
    /\ find_search_input earlier w = (Ok None, wa)
    /\ drv_find_elements used_selector wa = (Ok elements, wb)
    /\ elements = (before ++ element :: after)%list
    /\ pick_search_input before wb = (Ok None, wc)
    /\ drv_get_attribute element "type" wc = (Ok element_type, w')
    /\ element_type <> Some "submit"
    /\ element_type <> Some "button".

End ControllerSearch.

(* ================================================================== *)
(** * [CommandExecutor] *)
(* ================================================================== *)

(** The executor owns the controller, hence the browser, and the flag
    [self.connected]; [events] is the log. *)
Record XState (W : Type) : Type := mkXState {
  browser : W;
  connected : bool;
  events : list Event
}.

(** The three shapes of dictionary [execute_command_iteratively] returns. *)
Inductive CommandResult : Type :=
| ConnectFailed (connect_result : Dict)
| Finished (status : string) (steps_completed total_steps : nat) (results : list Dict)
| Crashed (message : string).

(** The state of the [for] loop after one round. *)
Inductive Flow : Type :=
| Continue (results : list Dict) (consecutive_failures : Z)
| Break (results : list Dict).

Section Executor.

Context {W Elem : Type} {driver : BrowserDriver W Elem} {builtins : Builtins}.

Let X : Type := XState W.

(** A call of a controller method. *)
Definition call {A : Type} (c : Comp W A) : Comp X A :=
  fun s =>
    let (r, w) := c (browser s) in
    (r, mkXState w (connected s) (events s)).

Definition emit (e : Event) : Comp X unit :=
  fun s => (Ok tt, mkXState (browser s) (connected s) (events s ++ [e])%list).

Definition get_connected : Comp X bool := fun s => (Ok (connected s), s).

Definition set_connected (b : bool) : Comp X unit :=
  fun s => (Ok tt, mkXState (browser s) b (events s)).

(** [time.sleep] in the executor, in milliseconds: a negative length is a
    [ValueError], any other is handed to the clock.  The log gets the pauses
    that were taken. *)
Definition time_sleep (milliseconds : Z) : Comp X unit :=
  if milliseconds <? 0
  then raise (mkExn ValueError "sleep length must be non-negative")
  else
    call (clock_sleep milliseconds) ;;
    emit (EvSleep milliseconds).

(** [params[key]] *)
Definition required (value : option string) (key : string) : Comp X string :=
  match value with
  | Some v => ret v
  | None => raise (mkExn KeyError ("'" ++ key ++ "'"))
  end.

(** [params.get] on the key [selector], the empty string by default *)
Definition selector_or_empty (params : Params) : string :=
  match p_selector params with
  | Some s => s
  | None => EmptyString
  end.

(** [coords and "x" in coords and "y" in coords]: the pair that is then
    read. *)
Definition explicit_coords (coords : option Coords) : option (Z * Z) :=
  match coords with
  | Some c =>
      match c_x c, c_y c with
      | Some x, Some y => Some (x, y)
      | _, _ => None
      end
  | None => None
  end.

(** The test on the hint of [get_next_step]. *)
Definition usable_hint (dom_selector : string) : bool :=
  PyStr.truthy dom_selector && negb (str_upper dom_selector =? "N/A")%string.

Definition connect : Comp X Dict :=
  c <- get_connected ;;
  if negb c
  then
    result <- call (connect_controller 30) ;;
    status <- subscript result "status" ;;
    set_connected (status =? "success")%string ;;
    ret result
  else ret (success "Already connected").

(** Block 1 of the click branch: the DOM-based selector.  [Some result]
    is the [return result] of the block. *)
Definition click_by_hint (dom_selector : string) : Comp X (option Dict) :=
  if usable_hint dom_selector
  then
    emit (EvTier Structural) ;;
    try_catch
      (result <- call (click dom_selector) ;;
       status <- subscript result "status" ;;
       if (status =? "success")%string then ret (Some result) else ret None)
      (fun _ => ret None)
  else ret None.

(** Block 3 of the click branch: OCR on the descriptive text. *)
Definition click_by_ocr (target_text : string) : Comp X (option Dict) :=
  if PyStr.truthy target_text
  then
    emit (EvTier Optical) ;;
    ocr_coords <- call (get_target_coordinates_ocr target_text 60) ;;
    emit (EvOcr ocr_coords) ;;
    match ocr_coords with
    | Some (x, y) =>
        result <- call (click_by_coordinates x y) ;;
        ret (Some result)
    | None => ret None
    end
  else ret None.

(** The body of the [try] of [_execute_step]. *)
Definition dispatch (action : string) (params : Params) (dom_selector : string)
  (coords : option Coords) : Comp X Dict :=
    (if (action =? "navigate")%string then
       url <- required (p_url params) "url" ;;
       call (navigate url)

     else if (action =? "click")%string then
       (* 1. the DOM-based selector *)
       by_dom <- click_by_hint dom_selector ;;
       match by_dom with
       | Some result => ret result
       | None =>
           (* 2. vision-based coordinates *)
           match explicit_coords coords with
           | Some (x, y) =>
               emit (EvTier Spatial) ;;
               call (click_by_coordinates x y)
           | None =>
               (* 3. OCR on the descriptive text *)
               let target_text := PyStr.strip (selector_or_empty params) in
               by_ocr <- click_by_ocr target_text ;;
               match by_ocr with
               | Some result => ret result
               | None =>
                   (* 4. the descriptive text as a selector *)
                   let fallback_selector := PyStr.strip (selector_or_empty params) in
                   if PyStr.truthy fallback_selector
                   then
                     emit (EvTier Descriptive) ;;
                     call (click fallback_selector)
                   else ret (error "No valid selector provided for click action.")
               end
           end
       end

     else if (action =? "search")%string then
       query <- required (p_query params) "query" ;;
       call (search query)

     else if (action =? "input")%string then
       let selector :=
         if usable_hint dom_selector then dom_selector
         else PyStr.strip (selector_or_empty params) in
       text <- required (p_text params) "text" ;;
       call (input_text selector text)

     else if (action =? "extract")%string then
       let selector :=
         if usable_hint dom_selector then dom_selector
         else PyStr.strip (selector_or_empty params) in
       call (extract selector)

     else if (action =? "wait")%string then
       seconds <- py_int (match p_seconds params with Some v => v | None => PInt 2 end) ;;
       time_sleep (1000 * seconds) ;;
       ret (success ("Waited " ++ PyStr.of_Z seconds ++ " seconds"))

     else if (action =? "complete")%string then
       ret (success "Task completed successfully")

     else ret (error ("Unknown action: " ++ action))).

Definition _execute_step (step : Step) : Comp X Dict :=
  let action := action step in
  let params := params step in
  let dom_selector := PyStr.strip (dom step) in
  let coords := coords step in
  emit (EvExec step) ;;
  try_catch
    (dispatch action params dom_selector coords)
    (fun e => ret (error ("Error executing " ++ action ++ ": " ++ exn_str e))).

Definition nav_step : Step :=
  {| action := "navigate";
     params := mkParams (Some "https://www.google.com") None None None None None;
     dom := EmptyString;
     coords := None |}.

Definition waits_for_element (action : string) : bool :=
  ((action =? "click") || (action =? "input") || (action =? "extract"))%string.

(** [_attempt_recovery(failed_step, error_result, step_index, all_steps)];
    the last argument is not used. *)
Definition _attempt_recovery (failed_step : Step) (error_result : Dict) (step_index : nat)
  : Comp X (option Dict) :=
  let action := action failed_step in
  let error_msg :=
    match dict_get error_result "message" with
    | Some m => m
    | None => EmptyString
    end in
  (* Case 1: the element was not found, wait and retry *)
  retried <-
    (if PyStr.contains "not found" error_msg && waits_for_element action
     then
       time_sleep 3000 ;;
       retry_result <- _execute_step failed_step ;;
       status <- subscript retry_result "status" ;;
       if (status =? "success")%string then ret (Some retry_result) else ret None
     else ret None) ;;
  match retried with
  | Some retry_result => ret (Some retry_result)
  | None =>
      (* Case 2: no search box, go to a search engine first *)
      if (action =? "search")%string && PyStr.contains "search box" error_msg
         && (step_index =? 0)%nat
      then
        nav_result <- _execute_step nav_step ;;
        status <- subscript nav_result "status" ;;
        if (status =? "success")%string
        then
          result <- _execute_step failed_step ;;
          ret (Some result)
        else ret None
      else ret None
  end.

Definition max_steps : nat := 15.
Definition max_failures : Z := 3.

(** [results[-1] = recovered] *)
Definition set_last (results : list Dict) (recovered : Dict) : list Dict :=
  (removelast results ++ [recovered])%list.

(** Truthiness of a dictionary. *)
Definition dict_truthy (d : Dict) : bool :=
  match d with
  | [] => false
  | _ => true
  end.

(** One round of [for i in range(max_steps)]. *)
Definition iteration (command_text : string) (i : nat)
  (results : list Dict) (consecutive_failures : Z) : Comp X Flow :=
  dom_context <- call (get_dom_context 200) ;;
  emit (EvIter i) ;;
  current_url <- call drv_get_url ;;
  next_step <- call (llm_get_next_step command_text dom_context results) ;;
  match next_step with
  | None => ret (Break results)
  | Some next_step =>
      if (action next_step =? "complete")%string
      then
        let message :=
          match p_message (params next_step) with
          | Some m => m
          | None => "Task completed"
          end in
        ret (Break (results ++ [success message])%list)
      else
        result <- _execute_step next_step ;;
        let results := (results ++ [result])%list in
        status <- subscript result "status" ;;
        if (status =? "success")%string
        then
          subscript result "message" ;;
          emit (EvVerdict StepSucceeded) ;;
          time_sleep 1500 ;;
          ret (Continue results 0)
        else
          let consecutive_failures := consecutive_failures + 1 in
          subscript result "message" ;;
          if consecutive_failures <? max_failures
          then
            recovered <- _attempt_recovery next_step result i ;;
            match recovered with
            | Some recovered =>
                if dict_truthy recovered
                then
                  let results := set_last results recovered in
                  subscript recovered "message" ;;
                  emit (EvVerdict StepRecovered) ;;
                  time_sleep 1500 ;;
                  ret (Continue results 0)
                else
                  emit (EvVerdict StepFailed) ;;
                  ret (Continue results consecutive_failures)
            | None =>
                emit (EvVerdict StepFailed) ;;
                ret (Continue results consecutive_failures)
            end
          else
            emit (EvVerdict StepFailed) ;;
            ret (Break results)
  end.

Fixpoint for_range (command_text : string) (range : list nat)
  (results : list Dict) (consecutive_failures : Z) : Comp X (list Dict) :=
  match range with
  | [] => ret results
  | i :: range' =>
      flow <- iteration command_text i results consecutive_failures ;;
      match flow with
      | Continue results consecutive_failures =>
          for_range command_text range' results consecutive_failures
      | Break results => ret results
      end
  end.

(** [any(r.get("action") == "complete" for r in results)] *)
Definition any_complete (results : list Dict) : bool :=
  existsb (fun r => is_str (dict_get r "action") "complete") results.

(** [all(r["status"] == "success" for r in results)] *)
Fixpoint all_success (results : list Dict) : Comp X bool :=
  match results with
  | [] => ret true
  | r :: results' =>
      status <- subscript r "status" ;;
      if (status =? "success")%string then all_success results' else ret false
  end.

(** The steps of a command, once the browser is connected: the loop and
    the dictionary that reports it. *)
Definition run_steps (command_text : string) : Comp X CommandResult :=
  results <- for_range command_text (seq 0 max_steps) [] 0 ;;
  ok <- (if any_complete results then ret true else all_success results) ;;
  ret (Finished (if ok : bool then "success" else "error")
         (List.length results) (List.length results) results).

Definition execute_command_iteratively (command_text : string) : Comp X CommandResult :=
  try_catch
    (c <- get_connected ;;
     refused <-
       (if negb c
        then
          connect_result <- connect ;;
          status <- subscript connect_result "status" ;;
          if negb (status =? "success")%string
          then ret (Some connect_result) else ret None
        else ret None) ;;
     match refused with
     | Some connect_result => ret (ConnectFailed connect_result)
     | None => run_steps command_text
     end)
    (fun e => ret (Crashed ("Command execution failed: " ++ exn_str e))).

End Executor.

(* ================================================================== *)
(** * A scripted browser *)
(* ================================================================== *)

(** A small deterministic instance of the external capabilities, to run the
    executor on concrete pages: the answers of the language model are read
    off a list, a selector resolves when it is listed, and the OCR rows and
    the nodes of the page are fixed ([None] makes the call raise). *)
Module Sim.

Record World : Type := mkWorld {
  answers : list (option Step);
  present : list string;
  rows : option (list OcrRow);
  nodes : option (list DomNode);
  point_hit : bool;
  url : string
}.

Definition set_answers (a : list (option Step)) (w : World) : World :=
  mkWorld a (present w) (rows w) (nodes w) (point_hit w) (url w).

Definition set_url (u : string) (w : World) : World :=
  mkWorld (answers w) (present w) (rows w) (nodes w) (point_hit w) u.

Definition resolves (selector : string) (w : World) : bool :=
  existsb (String.eqb selector) (present w).

Definition done : Comp World unit := ret tt.

(** The digits 0 to 9, and the number of the first run of them. *)
Definition digit (c : ascii) : option Z :=
  if ((48 <=? PyStr.code c) && (PyStr.code c <=? 57))%nat
  then Some (Z.of_nat (PyStr.code c - 48)) else None.

Fixpoint run_value (acc : Z) (s : string) : Z :=
  match s with
  | EmptyString => acc
  | String c s' =>
      match digit c with
      | Some d => run_value (10 * acc + d) s'
      | None => acc
      end
  end.

Fixpoint first_decimal (s : string) : option Z :=
  match s with
  | EmptyString => None
  | String c s' =>
      match digit c with
      | Some d => Some (run_value d s')
      | None => first_decimal s'
      end
  end.

(** The case mappings and the digits of the ASCII characters.  On a text of
    ASCII characters they are those of every version of the Unicode tables;
    the scripted runs apply them to such texts only. *)
#[export] Instance ascii_builtins : Builtins := {
  str_lower := PyStr.lower;
  str_upper := PyStr.upper;
  js_lower := PyStr.lower;
  first_number := first_decimal;
  str_upper_ascii := fun _ _ => eq_refl
}.

Definition failure (message : string) : Exn := mkExn OtherException message.

#[export] Instance driver : BrowserDriver World string := {
  drv_start_session := fun _ => done;
  drv_navigate := fun u w => (Ok tt, set_url u w);
  drv_wait_complete := done;
  drv_get_url := fun w => (Ok (url w), w);
  drv_find_element := fun selector w =>
    if resolves selector w then (Ok selector, w)
    else (Exc (mkExn NoSuchElementException selector), w);
  drv_find_elements := fun selector w =>
    if resolves selector w then (Ok [selector], w) else (Ok [], w);
  drv_click := fun _ => done;
  drv_clear := fun _ => done;
  drv_send_keys := fun _ _ => done;
  drv_text := fun element => ret element;
  drv_get_attribute := fun _ _ => ret None;
  script_scroll_into_view_center := fun _ => done;
  script_focus := fun _ => done;
  script_scroll_top_into_view := fun _ => done;
  script_clear_value := fun _ => done;
  script_set_value := fun _ _ => done;
  script_form_submit := fun _ => done;
  script_click_at_point := fun _ _ w => (Ok (point_hit w), w);
  script_query_interactive := fun w =>
    match nodes w with
    | Some l => (Ok l, w)
    | None => (Exc (failure "script error"), w)
    end;
  ocr_image_to_data := fun w =>
    match rows w with
    | Some l => (Ok l, w)
    | None => (Exc (failure "screenshot failed"), w)
    end;
  llm_get_next_step := fun _ _ _ w =>
    match answers w with
    | [] => (Ok None, w)
    | a :: rest => (Ok a, set_answers rest w)
    end;
  clock_sleep := fun _ => done
}.

(** An empty page at [about:blank]. *)
Definition blank : World := mkWorld [] [] (Some []) (Some []) false "about:blank".

Definition start (w : World) : XState World := mkXState w true [].

Definition click_step (hint target : string) : Step :=
  {| action := "click";
     params := mkParams None None (Some target) None None None;
     dom := hint;
     coords := None |}.

Definition wait_step (seconds : PyVal) : Step :=
  {| action := "wait";
     params := mkParams None None None None (Some seconds) None;
     dom := "N/A";
     coords := None |}.

Definition complete_step (message : string) : Step :=
  {| action := "complete";
     params := mkParams None None None None None (Some message);
     dom := "N/A";
     coords := None |}.

(** A page on which the OCR reads "Add to cart" with confidence 75 in the
    box (100, 200, 50, 20); [hit] tells whether there is an element under
    a clicked point. *)
Definition cart_row : OcrRow := mkOcrRow "Add to cart" (PInt 75) 100 200 50 20.

Definition cart_page (hit : bool) : World :=
  mkWorld [] [] (Some [cart_row]) (Some []) hit "https://shop.example/item".

Definition cart_step : Step := click_step "N/A" "Add to cart".

(** A click whose descriptive text is one space. *)
Definition blank_text_step : Step := click_step "N/A" " ".

(** A row whose text starts with a space, and a target that does too. *)
Definition padded_row : OcrRow := mkOcrRow " ok" (PInt 90) 10 20 30 40.

Definition padded_page : World :=
  mkWorld [] [] (Some [padded_row]) (Some []) true "about:blank".

(** A page with one visible link. *)
Definition link_node : DomNode :=
  {| tagName := "A";
     textContent := Some "Home";
     rect_width := 40 # 1;
     rect_height := 12 # 1;
     rect_top := 3 # 2;
     rect_left := 0 # 1;
     style_visibility := "visible";
     style_display := "inline";
     el_id := EmptyString;
     el_name := None;
     el_className := EmptyString;
     el_href := Some "https://shop.example/";
     attr_placeholder := None;
     attr_aria_label := None;
     attr_title := None |}.

Definition link_page : World :=
  mkWorld [] [] (Some []) (Some [link_node]) true "https://shop.example/".

(** The language model asks for a click on a missing element, then for a
    pause, then says the task is complete. *)
Definition failure_then_complete : World :=
  set_answers
    [ Some (click_step "#missing" "Buy");
      Some (wait_step (PInt 1));
      Some (complete_step "Done, redirected to example.com/new") ]
    blank.

(** The language model keeps asking for the same step. *)
Definition insisting (step : Step) : World :=
  set_answers (repeat (Some step) 20) blank.


(** A click whose descriptive text is one no-break space, U+00A0. *)
Definition no_break_space : string := PyStr.of_codes [194; 160]%nat.

Definition no_break_text_step : Step := click_step "N/A" no_break_space.

(** A screen with five rows: the first has the text but is too faint, the
    second is confident with another text, the confidence of the third is
    not a number, the fourth and the fifth both qualify for "cart". *)
Definition faint_row : OcrRow := mkOcrRow "Cart" (PInt 30) 0 0 10 10.

Definition home_row : OcrRow := mkOcrRow "Home" (PInt 90) 20 0 10 10.

Definition unread_row : OcrRow :=
  mkOcrRow "cart"
    (PNotInt (mkExn ValueError "invalid literal for int() with base 10: 'n/a'"))
    40 0 10 10.

Definition total_row : OcrRow := mkOcrRow "Cart total" (PInt 95) 300 400 60 20.

Definition menu_rows : list OcrRow :=
  [faint_row; home_row; unread_row; cart_row; total_row].

Definition menu_page : World :=
  mkWorld [] [] (Some menu_rows) (Some []) true "https://shop.example/item".

(** A page with, in document order, a link, a paragraph, an input, a
    button that is not displayed, a button and a second link. *)
Definition node (tagName text display : string) : DomNode :=
  {| tagName := tagName;
     textContent := Some text;
     rect_width := 40 # 1;
     rect_height := 12 # 1;
     rect_top := 3 # 2;
     rect_left := 0 # 1;
     style_visibility := "visible";
     style_display := display;
     el_id := EmptyString;
     el_name := None;
     el_className := EmptyString;
     el_href := None;
     attr_placeholder := None;
     attr_aria_label := None;
     attr_title := None |}.

Definition mixed_nodes : list DomNode :=
  [ node "A" "Home" "inline";
    node "P" "Welcome" "block";
    node "INPUT" "q" "inline";
    node "BUTTON" "Hidden" "none";
    node "BUTTON" "Buy" "inline";
    node "A" "Help" "inline" ].

Definition mixed_page : World :=
  mkWorld [] [] (Some []) (Some mixed_nodes) true "https://shop.example/".

End Sim.

(* ================================================================== *)
(** * Vocabulary of the statements *)
(* ================================================================== *)

(** An [Outcome]: a status that is [success] or [error], and a message. *)
Definition Outcome (d : Dict) : Prop :=
  (dict_get d "status" = Some "success" \/ dict_get d "status" = Some "error")
  /\ exists message, dict_get d "message" = Some message.

Definition succeeded (d : Dict) : Prop := dict_get d "status" = Some "success".

Definition failed (d : Dict) : Prop := dict_get d "status" = Some "error".

(** [d["status"] == "success"] *)
Definition succeeded_b (d : Dict) : bool := is_str (dict_get d "status") "success".

(** Every recorded outcome has the status [success]. *)
Definition all_succeeded (results : list Dict) : bool :=
  forallb (fun r => is_str (dict_get r "status") "success") results.

(** An entry of the transcript: an outcome, and it has no key [action]. *)
Definition Entry (d : Dict) : Prop := Outcome d /\ dict_get d "action" = None.

(** Projections of the log. *)
Definition exec_of (e : Event) : option Step :=
  match e with EvExec step => Some step | _ => None end.

Definition tier_of (e : Event) : option Tier :=
  match e with EvTier t => Some t | _ => None end.

Definition iter_of (e : Event) : option nat :=
  match e with EvIter i => Some i | _ => None end.

Definition verdict_of (e : Event) : option Verdict :=
  match e with EvVerdict v => Some v | _ => None end.

Definition sleep_of (e : Event) : option Z :=
  match e with EvSleep ms => Some ms | _ => None end.

Fixpoint pick {A B : Type} (f : A -> option B) (l : list A) : list B :=
  match l with
  | [] => []
  | a :: l' =>
      match f a with
      | Some b => b :: pick f l'
      | None => pick f l'
      end
  end.

Definition execs : list Event -> list Step := pick exec_of.
Definition tiers : list Event -> list Tier := pick tier_of.
Definition iters : list Event -> list nat := pick iter_of.
Definition verdicts : list Event -> list Verdict := pick verdict_of.
Definition sleeps : list Event -> list Z := pick sleep_of.

(** Events of the body of a step: the tiers of a click, the answer of the
    OCR and the pauses. *)
Definition step_level (e : Event) : Prop :=
  match e with
  | EvTier _ | EvOcr _ | EvSleep _ => True
  | _ => False
  end.

(** The same, without the structural tier. *)
Definition unhinted_level (e : Event) : Prop :=
  match e with
  | EvTier Structural => False
  | EvTier _ | EvOcr _ | EvSleep _ => True
  | _ => False
  end.

(** Events of a step or of a recovery: no round of the loop, no verdict. *)
Definition below_loop (e : Event) : Prop :=
  match e with
  | EvIter _ | EvVerdict _ => False
  | _ => True
  end.

(** ** Triples and logs *)

(** Every value [m] returns satisfies [P]. *)
Definition Post {S A : Type} (P : A -> Prop) (m : Comp S A) : Prop :=
  forall s a s', m s = (Ok a, s') -> P a.

(** [m] never raises, and what it returns satisfies [P]. *)
Definition Returns {S A : Type} (P : A -> Prop) (m : Comp S A) : Prop :=
  forall s, exists a s', m s = (Ok a, s') /\ P a.

(** From two states with the same browser and the same flag, [m] has the
    same result, leaves the same browser, keeps the flag, and appends
    the same events, all of them in [Q]: the log is written, never read. *)
Definition Sync {W A : Type} (Q : Event -> Prop) (m : Comp (XState W) A) : Prop :=
  forall s1 s2,
    browser s1 = browser s2 -> connected s1 = connected s2 ->
    exists r w new,
      m s1 = (r, mkXState w (connected s1) (events s1 ++ new))
      /\ m s2 = (r, mkXState w (connected s2) (events s2 ++ new))
      /\ Forall Q new.

(** ** Steps *)

(** The two places where a handler of [search] returns early hand over an
    outcome. *)
Definition early_outcome (o : option Dict) : Prop :=
  forall d, o = Some d -> Entry d.


(** The step with another hint. *)
Definition with_hint (hint : string) (step : Step) : Step :=
  mkStep (action step) (params step) hint (coords step).

(** What block 1 can leave in the log. *)
Definition hint_events (l : list Event) : Prop := l = [] \/ l = [EvTier Structural].

Section ClickRuns.

Context {W Elem : Type} {driver : BrowserDriver W Elem} {builtins : Builtins}.

(** The ways the click branch runs, with what each leaves in the log. *)
Inductive ClickRun (s : XState W) (outcome : Dict) (w : W) (new : list Event) : Prop :=
| by_the_hint :
  new = [EvTier Structural] -> ClickRun s outcome w new
| by_the_coordinates (pre : list Event) :
  hint_events pre -> new = (pre ++ [EvTier Spatial])%list -> ClickRun s outcome w new
| by_the_ocr (pre : list Event) (target : string) (x y : Z) (w0 w1 : W) :
  hint_events pre ->
  new = (pre ++ [EvTier Optical; EvOcr (Some (x, y))])%list ->
  get_target_coordinates_ocr target 60 w0 = (Ok (Some (x, y)), w1) ->
  click_by_coordinates x y w1 = (Ok outcome, w) ->
  ClickRun s outcome w new
| by_the_text (pre : list Event) :
  hint_events pre ->
  new = (pre ++ [EvTier Optical; EvOcr None; EvTier Descriptive])%list ->
  ClickRun s outcome w new
| by_nothing :
  hint_events new -> ClickRun s outcome w new.

End ClickRuns.

(** ** The OCR and the snapshot *)

(** [needle] occurs in [hay]. *)
Definition substring_of (needle hay : string) : Prop :=
  exists before after, hay = before ++ needle ++ after.

(** The row is confident enough and its text, stripped and in lower case,
    contains the target in lower case. *)
Definition qualifies {builtins : Builtins} (target_text : string) (threshold : Z)
  (row : OcrRow) : Prop :=
  threshold < conf_of row
  /\ substring_of (str_lower target_text) (str_lower (PyStr.strip (ocr_text row))).

(** The same on the text of the row as the OCR gave it. *)
Definition qualifies_unstripped {builtins : Builtins} (target_text : string)
  (threshold : Z) (row : OcrRow) : Prop :=
  threshold < conf_of row
  /\ substring_of (str_lower target_text) (str_lower (ocr_text row)).

(** The priority bucket of a captured element. *)
Definition bucket (e : Element) : Z := Script.priority_of_tag (tag e).

Definition bucket_le (a b : Element) : Prop := bucket a <= bucket b.

(** The comparator of the script for a key, and the order it sorts by. *)
Definition by_key {A : Type} (key : A -> Z) (a b : A) : Z := key a - key b.

Definition key_le {A : Type} (key : A -> Z) (a b : A) : Prop := key a <= key b.

(** ** Recovery and the loop *)

(** [error_result.get("message")], the empty string by default. *)
Definition error_message (error_result : Dict) : string :=
  match dict_get error_result "message" with
  | Some m => m
  | None => EmptyString
  end.

(** The message says "not found" and the action is click, input or
    extract. *)
Definition element_not_found (failed_step : Step) (error_result : Dict) : bool :=
  PyStr.contains "not found" (error_message error_result)
  && waits_for_element (action failed_step).

(** The action is search, the message names the search box, and the step is
    the first of the session. *)
Definition no_search_box (failed_step : Step) (error_result : Dict) (step_index : nat)
  : bool :=
  (action failed_step =? "search")%string
  && PyStr.contains "search box" (error_message error_result)
  && (step_index =? 0)%nat.

(** How one round of the loop ends, with the verdict it logs.  [cf] is the
    count of consecutive failures when the round starts; 3 is
    [max_failures]. *)
Inductive RoundRun (cf : Z) (results : list Dict) : Res Flow -> list Verdict -> Prop :=
| round_crashed (e : Exn) :
    RoundRun cf results (Exc e) []
| round_crashed_late (e : Exn) (v : Verdict) :
    v <> StepFailed ->
    RoundRun cf results (Exc e) [v]
| round_no_step :
    RoundRun cf results (Ok (Break results)) []
| round_complete (message : string) :
    RoundRun cf results (Ok (Break (results ++ [success message])%list)) []
| round_succeeded (outcome : Dict) :
    Entry outcome ->
    succeeded outcome ->
    RoundRun cf results (Ok (Continue (results ++ [outcome])%list 0)) [StepSucceeded]
| round_recovered (recovered : Dict) :
    Entry recovered ->
    RoundRun cf results (Ok (Continue (results ++ [recovered])%list 0)) [StepRecovered]
| round_failed (outcome : Dict) :
    Entry outcome ->
    failed outcome ->
    cf + 1 < 3 ->
    RoundRun cf results (Ok (Continue (results ++ [outcome])%list (cf + 1))) [StepFailed]
| round_gave_up (outcome : Dict) :
    Entry outcome ->
    failed outcome ->
    3 <= cf + 1 ->
    RoundRun cf results (Ok (Break (results ++ [outcome])%list)) [StepFailed].

(** The rounds and the verdicts a run of the loop over [range] logs, from
    the count [cf] of consecutive failures. *)
Inductive LoopLog : list nat -> Z -> list nat -> list Verdict -> Prop :=
| log_exhausted (cf : Z) :
    LoopLog [] cf [] []
| log_stopped (i : nat) (range : list nat) (cf : Z) :
    LoopLog (i :: range) cf [i] []
| log_crashed (i : nat) (range : list nat) (cf : Z) (v : Verdict) :
    v <> StepFailed ->
    LoopLog (i :: range) cf [i] [v]
| log_gave_up (i : nat) (range : list nat) (cf : Z) :
    3 <= cf + 1 ->
    LoopLog (i :: range) cf [i] [StepFailed]
| log_progress (i : nat) (range : list nat) (cf : Z) (v : Verdict)
    (rounds : list nat) (vs : list Verdict) :
    v <> StepFailed ->
    LoopLog range 0 rounds vs ->
    LoopLog (i :: range) cf (i :: rounds) (v :: vs)
| log_failure (i : nat) (range : list nat) (cf : Z)
    (rounds : list nat) (vs : list Verdict) :
    cf + 1 < 3 ->
    LoopLog range (cf + 1) rounds vs ->
    LoopLog (i :: range) cf (i :: rounds) (StepFailed :: vs).



(** The record that goes with a verdict: a success for a step that
    succeeded, an error for a step that failed and was not recovered, and
    what the recovery handed back for a step that was recovered. *)
Definition verdict_fits (v : Verdict) (record : Dict) : Prop :=
  match v with
  | StepSucceeded => succeeded record
  | StepRecovered => Entry record
  | StepFailed => failed record
  end.

(** The transcript of the rounds that logged the verdicts [vs]: one record
    for each verdict, in their order, and after them at most the record of
    a completion. *)
Definition Transcript (vs : list Verdict) (records : list Dict) : Prop :=
  exists judged closing,
    records = (judged ++ closing)%list
    /\ Forall2 verdict_fits vs judged
    /\ (closing = [] \/ exists message, closing = [success message]).

(** A finished run hands back the transcript of its verdicts. *)
Definition Told (result : CommandResult) (vs : list Verdict) : Prop :=
  match result with
  | Finished _ _ _ results => Transcript vs results
  | _ => True
  end.

(** What a finished run reports. *)
Definition Report (result : Res CommandResult) : Prop :=
  match result with
  | Ok (Finished status steps_completed total_steps results) =>
      Forall Entry results
      /\ steps_completed = List.length results
      /\ total_steps = List.length results
      /\ status = if all_succeeded results then "success" else "error"
  | Ok _ => False
  | Exc _ => True
  end.

(* ================================================================== *)
(** * The rest of the controller *)
(* ================================================================== *)

(** One more script of the controller, in [select_search_result]:
    [window.scrollBy(0, window.innerHeight/2)]. *)
Class PageScripts (W : Type) : Type := {
  script_scroll_half_page : Comp W unit
}.

(** [l[i]] with the negative indices of Python; [None] is [IndexError]. *)
Definition py_index {A : Type} (l : list A) (i : Z) : option A :=
  if 0 <=? i then nth_error l (Z.to_nat i)
  else if - Z.of_nat (List.length l) <=? i
       then nth_error l (Z.to_nat (Z.of_nat (List.length l) + i))
       else None.

Section ControllerResults.

Context {W Elem : Type} {driver : BrowserDriver W Elem} {scripts : PageScripts W}.

(** [submit_search(selector)] *)
Definition submit_search (selector : string) : Comp W Dict :=
  try_catch
    (element <- find_element selector ;;
     match element with
     | Some element =>
         script_focus element ;;
         settle 500 ;;
         drv_send_keys element Keys_RETURN ;;
         settle 3000 ;;
         ret (success ("Submitted search via Enter on " ++ selector))
     | None => ret (error ("Search input not found: " ++ selector))
     end)
    (fun e => ret (error ("Error submitting search: " ++ exn_str e))).

Definition result_selectors : list string :=
  [ "a[href]:not([href^='#'])";
    "h2 a";
    "h3 a";
    "[role='link']";
    "article a";
    "li a";
    ".result a";
    "main a";
    "[role='main'] a" ].

(** The text of a result for the report: the inner [try] of
    [select_search_result], "Unknown" when anything in it raises. *)
Definition result_text (target_element : Elem) : Comp W string :=
  try_catch
    (element_text <- drv_text target_element ;;
     element_text <-
       (if PyStr.truthy element_text then ret (Some element_text)
        else drv_get_attribute target_element "textContent") ;;
     let element_text :=
       match element_text with
       | Some t => if PyStr.truthy t then PyStr.strip t else "Unknown"
       | None => "Unknown"
       end in
     ret (if (50 <? PyStr.len element_text)%nat
          then PyStr.take 50 element_text ++ "..."
          else element_text))
    (fun _ => ret "Unknown").

(** [for selector in selectors] of [select_search_result]: [Some result] is
    the [return] after a click that did not raise. *)
Fixpoint click_result (index : Z) (selectors : list string) : Comp W (option Dict) :=
  match selectors with
  | [] => ret None
  | selector :: selectors' =>
      clicked <-
        try_catch
          (elements <- drv_find_elements selector ;;
           if match elements with [] => true | _ => false end
              || (Z.of_nat (List.length elements) <=? index)
           then ret None
           else
             target_element <-
               match py_index elements index with
               | Some element => ret element
               | None => raise (mkExn OtherException "list index out of range")
               end ;;
             element_text <- result_text target_element ;;
             script_scroll_half_page ;;
             settle 1000 ;;
             try_catch
               (drv_click target_element ;;
                settle 3000 ;;
                ret (Some (success ("Clicked result #" ++ PyStr.of_Z (index + 1)
                                      ++ ": " ++ element_text))))
               (fun _ => ret None))
          (fun _ => ret None) ;;
      match clicked with
      | Some result => ret (Some result)
      | None => click_result index selectors'
      end
  end.

(** [select_search_result(index)] *)
Definition select_search_result (index : Z) : Comp W Dict :=
  try_catch
    (settle 3000 ;;
     current_url <- drv_get_url ;;
     clicked <- click_result index result_selectors ;;
     match clicked with
     | Some result => ret result
     | None => ret (error ("Could not find result at index " ++ PyStr.of_Z index))
     end)
    (fun e => ret (error ("Failed to click search result: " ++ exn_str e))).

End ControllerResults.

(* ================================================================== *)
(** * [CommandParser] *)
(* ================================================================== *)

(** The parser of the answers of the language model.  The three regular
    expressions of [get_next_step] are written out as the searches they
    perform; [\s] is the white space of [str.isspace], [.] is any character
    but the line feed. *)
Module Parser.

Definition newline : ascii := ascii_of_nat 10.

Definition is_line_feed (c : ascii) : bool := (PyStr.code c =? 10)%nat.

(** The class [[A-F]]. *)
Definition is_A_to_F (c : ascii) : bool :=
  ((65 <=? PyStr.code c) && (PyStr.code c <=? 70))%nat.

Fixpoint drop (n : nat) (s : string) : string :=
  match n, s with
  | O, _ => s
  | S n', String _ s' => drop n' s'
  | S _, EmptyString => EmptyString
  end.

(** The characters before the first one in the class [stop]. *)
Fixpoint take_until (stop : ascii -> bool) (s : string) : string :=
  match s with
  | EmptyString => EmptyString
  | String c s' => if stop c then EmptyString else String c (take_until stop s')
  end.

(** [re.search(r'ACTION:\s*([A-F])', text)], group 1: at the leftmost place
    where "ACTION:" is followed, after any white space, by a letter from A
    to F. *)
Fixpoint search_action (text : string) : option ascii :=
  match text with
  | EmptyString => None
  | String _ text' =>
      if String.prefix "ACTION:" text
      then
        match PyStr.lstrip (drop 7 text) with
        | String letter _ =>
            if is_A_to_F letter then Some letter else search_action text'
        | EmptyString => search_action text'
        end
      else search_action text'
  end.

(** [re.search(label + r'\s*(.*?)(?:\n|$)', text)], group 1, for the labels
    "PARAM:" and "DOM:": at the leftmost occurrence of the label, the white
    space after it is skipped, line feeds included, and the group runs to
    the next line feed or to the end. *)
Fixpoint search_field (label text : string) : option string :=
  match text with
  | EmptyString => None
  | String _ text' =>
      if String.prefix label text
      then Some (take_until is_line_feed
                   (PyStr.lstrip (drop (String.length label) text)))
      else search_field label text'
  end.

(** The text before the first "(" and the text after it. *)
Fixpoint split_paren (s : string) : option (string * string) :=
  match s with
  | EmptyString => None
  | String c s' =>
      if (PyStr.code c =? 40)%nat then Some (EmptyString, s')
      else match split_paren s' with
           | Some (before, after) => Some (String c before, after)
           | None => None
           end
  end.

Fixpoint ends_with_paren (s : string) : bool :=
  match s with
  | EmptyString => false
  | String c EmptyString => (PyStr.code c =? 41)%nat
  | String _ s' => ends_with_paren s'
  end.

(** [re.sub(r'\s*\(.*\)$', '', s)] on a string without line feed: when [s]
    ends with ")" and has a "(" before it, everything from the white space
    in front of the first "(" is removed. *)
Definition strip_commentary (s : string) : string :=
  match split_paren s with
  | Some (before, after) =>
      if ends_with_paren after then PyStr.rstrip before else s
  | None => s
  end.

(** [s.split(',', 1)] when there is a comma: the two parts. *)
Fixpoint split_comma (s : string) : option (string * string) :=
  match s with
  | EmptyString => None
  | String c s' =>
      if (PyStr.code c =? 44)%nat then Some (EmptyString, s')
      else match split_comma s' with
           | Some (first, rest) => Some (String c first, rest)
           | None => None
           end
  end.

(** [action_map.get(action_letter)] *)
Definition action_map (letter : ascii) : option string :=
  match PyStr.code letter with
  | 65%nat => Some "navigate"
  | 66%nat => Some "search"
  | 67%nat => Some "click"
  | 68%nat => Some "input"
  | 69%nat => Some "wait"
  | 70%nat => Some "complete"
  | _ => None
  end.

Section Numbers.

Context {builtins : Builtins}.

(** The [seconds] of a wait: the number of the first run of digits, 3 when
    there is none or [int] raises. *)
Definition wait_seconds (param_value : string) : Z :=
  match first_number param_value with
  | Some n => n
  | None => 3
  end.

(** [params_dict] for an action. *)
Definition params_dict (action param_value : string) : Params :=
  if (action =? "navigate")%string then
    let param_value :=
      if PyStr.truthy param_value
         && negb (PyStr.startswith param_value "http://"
                  || PyStr.startswith param_value "https://")
      then "https://" ++ param_value else param_value in
    mkParams (Some param_value) None None None None None
  else if (action =? "search")%string then
    mkParams None (Some param_value) None None None None
  else if (action =? "click")%string then
    mkParams None None (Some param_value) None None None
  else if (action =? "input")%string then
    match split_comma param_value with
    | Some (first, rest) =>
        mkParams None None (Some (PyStr.strip first)) (Some (PyStr.strip rest)) None None
    | None => mkParams None None (Some "input field") (Some param_value) None None
    end
  else if (action =? "wait")%string then
    mkParams None None None None (Some (PInt (wait_seconds param_value))) None
  else no_params.

(** From [response_text] to the step, the part of [get_next_step] after the
    answer of the model has been stripped. *)
Definition parse_response (response_text : string) : option Step :=
  match search_action response_text, search_field "PARAM:" response_text with
  | Some action_letter, Some param =>
      let param_value := PyStr.strip param in
      let dom_value :=
        match search_field "DOM:" response_text with
        | Some d => strip_commentary (PyStr.strip d)
        | None => "N/A"
        end in
      match action_map action_letter with
      | Some action =>
          Some {| action := action;
                  params := params_dict action param_value;
                  dom := dom_value;
                  coords := None |}
      | None => None
      end
  | _, _ => None
  end.

End Numbers.

(** [", ".join(l)] *)
Fixpoint join (separator : string) (l : list string) : string :=
  match l with
  | [] => EmptyString
  | [x] => x
  | x :: l' => x ++ separator ++ join separator l'
  end.

(** The attributes of the summary line of an element, in the order of the
    loop; the ones that are null are left out. *)
Definition attr_list (a : Attributes) : list string :=
  let entry (key : string) (value : option string) : list string :=
    match value with
    | Some v => if PyStr.truthy v then [key ++ "='" ++ v ++ "'"] else []
    | None => []
    end in
  (entry "id" (a_id a) ++ entry "name" (a_name a) ++ entry "class" (a_class a)
   ++ entry "placeholder" (a_placeholder a) ++ entry "aria-label" (a_aria_label a)
   ++ entry "title" (a_title a) ++ entry "href" (a_href a))%list.

Definition dom_line (element : Element) : string :=
  let line := tag element ++ ": '" ++ PyStr.strip (text element) ++ "'" in
  match attr_list (attributes element) with
  | [] => line
  | attrs => line ++ " (" ++ join ", " attrs ++ ")"
  end.

(** [dom_lines] *)
Definition dom_lines (dom_context : list Element) : list string :=
  match dom_context with
  | [] => ["No interactive elements found."]
  | _ => map dom_line dom_context
  end.

(** [s.replace(old, EmptyString)] for a non-empty [old]; [skip] counts the
    characters of a found occurrence that are still to be dropped. *)
Fixpoint remove_all (old : string) (skip : nat) (s : string) : string :=
  match s with
  | EmptyString => EmptyString
  | String c s' =>
      match skip with
      | S skip' => remove_all old skip' s'
      | O =>
          if String.prefix old s
          then remove_all old (String.length old - 1) s'
          else String c (remove_all old O s')
      end
  end.

(** [current_url] and [last_action], read off the last recorded outcome. *)
Definition read_context (previous_steps : list Dict) : string * string :=
  match previous_steps with
  | [] => ("Unknown", "None")
  | _ =>
      let message := error_message (last previous_steps []) in
      (if PyStr.contains "Navigated to" message
       then remove_all "Navigated to " O message
       else "Unknown",
       message)
  end.

End Parser.

(** The chat completion behind the parser: it is given the four values the
    prompt is built around (the goal, the current URL, the last action and
    the summary of the page; the rest of the prompt is a fixed text), and it
    answers with a text or raises. *)
Class ChatModel (W : Type) : Type := {
  chat_completion : string -> string -> string -> string -> Comp W string
}.

Section GetNextStep.

Context {W : Type} {model : ChatModel W} {builtins : Builtins}.

(** [CommandParser.get_next_step(goal, dom_context, previous_steps)] *)
Definition get_next_step (goal : string) (dom_context : list Element)
  (previous_steps : list Dict) : Comp W (option Step) :=
  let dom_context_str := Parser.join (String Parser.newline EmptyString)
                           (Parser.dom_lines dom_context) in
  let (current_url, last_action) := Parser.read_context previous_steps in
  try_catch
    (content <- chat_completion goal current_url last_action dom_context_str ;;
     ret (Parser.parse_response (PyStr.strip content)))
    (fun _ => ret None).

End GetNextStep.

(** ** Vocabulary of the further statements *)

(** The URL [navigate] hands to the browser. *)
Definition with_scheme (url : string) : string :=
  if PyStr.startswith url "http://" || PyStr.startswith url "https://"
  then url else "https://" ++ url.

(** The six actions the parser knows. *)
Definition parser_action (a : string) : Prop :=
  a = "navigate" \/ a = "search" \/ a = "click" \/ a = "input" \/ a = "wait"
  \/ a = "complete".

(** The seven actions the executor knows. *)
Definition known_action (a : string) : bool :=
  ((a =? "navigate") || (a =? "click") || (a =? "search") || (a =? "input")
   || (a =? "extract") || (a =? "wait") || (a =? "complete"))%string.

(** No character of the string is in the class. *)
Fixpoint free_of (f : ascii -> bool) (s : string) : Prop :=
  match s with
  | EmptyString => True
  | String c s' => f c = false /\ free_of f s'
  end.

Definition is_open_paren (c : ascii) : bool := (PyStr.code c =? 40)%nat.





(** The key that [params[key]] of the action reads and the step lacks. *)
Definition missing_key (step : Step) : option string :=
  if (action step =? "navigate")%string then
    match p_url (params step) with None => Some "url" | Some _ => None end
  else if (action step =? "search")%string then
    match p_query (params step) with None => Some "query" | Some _ => None end
  else if (action step =? "input")%string then
    match p_text (params step) with None => Some "text" | Some _ => None end
  else None.

(** Every character of the string is white space. *)
Definition all_space (s : string) : Prop := PyStr.lstrip s = EmptyString.

(** Answers of a language model and steps, to run the parser and the executor
    on. *)
Module Samples.

Definition line_feed : string := String Parser.newline EmptyString.

(** An answer in the format the prompt asks for. *)
Definition reply (letter param hint : string) : string :=
  "ACTION: " ++ letter ++ line_feed ++ "PARAM: " ++ param ++ line_feed
  ++ "DOM: " ++ hint.

(** A pause of five seconds. *)
Definition pause : string := reply "E" "5 seconds" "N/A".

(** A text for a field picked with a functional pseudo-class. *)
Definition typing : string := reply "D" "search box, cats" "input:not([type='submit'])".

(** A click whose PARAM line is empty. *)
Definition nameless_click : string := reply "C" EmptyString "#buy".

(** A step of an action the executor does not know. *)
Definition hover_step : Step :=
  {| action := "hover"; params := no_params; dom := "N/A"; coords := None |}.

(** A search step without its query. *)
Definition bare_search : Step :=
  {| action := "search"; params := no_params; dom := "N/A"; coords := None |}.

(** A click with a hint that resolves, and the page it resolves on. *)
Definition buy_step : Step := Sim.click_step "#buy" "Buy".

Definition shop : Sim.World :=
  Sim.mkWorld [] ["#buy"] None (Some []) false "https://shop.example/".


(** The step that [typing] asks for. *)
Definition typing_step : Step :=
  {| action := "input";
     params := mkParams None None (Some "search box") (Some "cats") None None;
     dom := "input:not";
     coords := None |}.

(** A page with a search field. *)
Definition search_page : Sim.World :=
  Sim.mkWorld [] ["#search"] (Some []) (Some []) true "https://shop.example/".

(** The transcript of the run on [Sim.failure_then_complete]. *)
Definition transcript : list Dict :=
  [ error "Element not found: Buy";
    success "Waited 1 seconds";
    success "Done, redirected to example.com/new" ].

End Samples.

(* ================================================================== *)
(** * Reasoning about computations *)
(* ================================================================== *)

Section Reasoning.

Context {S : Type}.

Lemma post_ret {A : Type} (P : A -> Prop) (a : A) : P a -> Post P (ret (S := S) a).
Proof. intros H s a' s' E. inversion E. subst. exact H. Qed.

Lemma post_raise {A : Type} (P : A -> Prop) (e : Exn) : Post P (raise (S := S) e).
Proof. intros s a s' E. discriminate E. Qed.

Lemma post_bind {A B : Type} (P : B -> Prop) (m : Comp S A) (f : A -> Comp S B) :
  (forall a, Post P (f a)) -> Post P (bind m f).
Proof.
  intros H s b s' E. unfold bind in E.
  destruct (m s) as [[a | e] s1]; [ exact (H a s1 b s' E) | discriminate E ].
Qed.

Lemma post_bind_with {A B : Type} (Q : A -> Prop) (P : B -> Prop)
  (m : Comp S A) (f : A -> Comp S B) :
  Post Q m -> (forall a, Q a -> Post P (f a)) -> Post P (bind m f).
Proof.
  intros Hm H s b s' E. unfold bind in E.
  destruct (m s) as [[a | e] s1] eqn:Em; [ | discriminate E ].
  exact (H a (Hm s a s1 Em) s1 b s' E).
Qed.

Lemma post_try {A : Type} (P : A -> Prop) (m : Comp S A) (h : Exn -> Comp S A) :
  Post P m -> (forall e, Post P (h e)) -> Post P (try_catch m h).
Proof.
  intros Hm Hh s a s' E. unfold try_catch in E.
  destruct (m s) as [[a1 | e] s1] eqn:Em.
  - inversion E. subst. exact (Hm s a s' Em).
  - exact (Hh e s1 a s' E).
Qed.

Lemma returns_post {A : Type} (P : A -> Prop) (m : Comp S A) : Returns P m -> Post P m.
Proof.
  intros H s a s' E. destruct (H s) as (a1 & s1 & E1 & Pa).
  rewrite E in E1. inversion E1. subst. exact Pa.
Qed.

Lemma returns_ret {A : Type} (P : A -> Prop) (a : A) :
P a -> Returns P (ret (S := S) a).
Proof. intros H s. exists a, s. split; [ reflexivity | exact H ]. Qed.

Lemma returns_bind {A B : Type} (P : B -> Prop) (m : Comp S A) (f : A -> Comp S B) :
  Returns (fun _ => True) m -> (forall a, Returns P (f a)) -> Returns P (bind m f).
Proof.
  intros Hm Hf s. destruct (Hm s) as (a & s1 & E & _).
  destruct (Hf a s1) as (b & s2 & E2 & Pb).
  exists b, s2. unfold bind. rewrite E. split; assumption.
Qed.

(** A [try] whose handlers always return turns every failure of its body
    into a value. *)
Lemma returns_try {A : Type} (P : A -> Prop) (m : Comp S A) (h : Exn -> Comp S A) :
  Post P m -> (forall e, Returns P (h e)) -> Returns P (try_catch m h).
Proof.
  intros Hm Hh s. unfold try_catch.
  destruct (m s) as [[a | e] s1] eqn:Em.
  - exists a, s1. split; [ reflexivity | exact (Hm s a s1 Em) ].
  - exact (Hh e s1).
Qed.

Lemma returns_weaken {A : Type} (P Q : A -> Prop) (m : Comp S A) :
  (forall a, P a -> Q a) -> Returns P m -> Returns Q m.
Proof.
  intros PQ H s. destruct (H s) as (a & s1 & E & Pa).
  exists a, s1. split; [ exact E | exact (PQ a Pa) ].
Qed.

End Reasoning.

Lemma bind_ok {S A B : Type} (m : Comp S A) (f : A -> Comp S B) (s s' : S) (a : A) :
  m s = (Ok a, s') -> bind m f s = f a s'.
Proof. intro E. unfold bind. rewrite E. reflexivity. Qed.

Lemma bind_exc {S A B : Type} (m : Comp S A) (f : A -> Comp S B) (s s' : S) (e : Exn) :
  m s = (Exc e, s') -> bind m f s = (Exc e, s').
Proof. intro E. unfold bind. rewrite E. reflexivity. Qed.

Lemma try_ok {S A : Type} (m : Comp S A) (h : Exn -> Comp S A) (s s' : S) (a : A) :
  m s = (Ok a, s') -> try_catch m h s = (Ok a, s').
Proof. intro E. unfold try_catch. rewrite E. reflexivity. Qed.

Lemma try_exc {S A : Type} (m : Comp S A) (h : Exn -> Comp S A) (s s' : S) (e : Exn) :
  m s = (Exc e, s') -> try_catch m h s = h e s'.
Proof. intro E. unfold try_catch. rewrite E. reflexivity. Qed.

(** [d[k]] on a key that is there. *)
Lemma subscript_found {S : Type} (d : Dict) (k v : string) (s : S) :
  dict_get d k = Some v -> subscript d k s = (Ok v, s).
Proof. intro H. unfold subscript. rewrite H. reflexivity. Qed.

(* ================================================================== *)
(** * The controller returns outcomes *)
(* ================================================================== *)

Ltac outcome := unfold Entry, Outcome; cbn; eauto 6.

Ltac post_step :=
  match goal with
  | |- Post _ (bind _ _) => apply post_bind; intros
  | |- Post _ (ret _) => apply post_ret
  | |- Post _ (raise _) => apply post_raise
  | |- Post _ (try_catch _ _) => apply post_try; intros
  | |- Post _ (match ?x with _ => _ end) => destruct x
  end.


Ltac handled :=
  intros;
  match goal with
  | |- Returns _ (match ?x with _ => _ end) => destruct x
  | _ => idtac
  end;
  apply returns_ret; outcome.

Create HintDb controller.

Section ControllerFacts.

Context {W Elem : Type} {driver : BrowserDriver W Elem} {builtins : Builtins}.

Lemma connect_controller_returns (timeout : Z) :
  Returns Entry (connect_controller timeout).
Proof. apply returns_try; [ repeat post_step; outcome | handled ]. Qed.

Lemma navigate_returns (url : string) : Returns Entry (navigate url).
Proof. apply returns_try; [ repeat post_step; outcome | handled ]. Qed.

Lemma find_element_returns (selector : string) :
  Returns (fun _ => True) (find_element selector).
Proof.
  apply returns_try; [ intros s a s' _; exact I | intros; apply returns_ret; exact I ].
Qed.

Lemma click_returns (selector : string) : Returns Entry (click selector).
Proof. apply returns_try; [ repeat post_step; outcome | handled ]. Qed.

Lemma input_text_returns (selector text : string) :
  Returns Entry (input_text selector text).
Proof. apply returns_try; [ repeat post_step; outcome | handled ]. Qed.

Lemma extract_returns (selector : string) : Returns Entry (extract selector).
Proof. apply returns_try; [ repeat post_step; outcome | handled ]. Qed.

Lemma click_by_coordinates_returns (x y : Z) :
  Returns Entry (click_by_coordinates x y).
Proof. apply returns_try; [ repeat post_step; outcome | handled ]. Qed.

Lemma search_returns (query : string) : Returns Entry (search query).
Proof.
  apply returns_try; [ | handled ].
  apply post_bind; intro current_url.
  apply post_bind; intros [[search_input used_selector] | ];
    [ | apply post_ret; outcome ].
  apply post_bind; intros _.
  apply post_bind_with with (Q := early_outcome).
  { unfold enter_query.
    repeat post_step; intros d E; first [ discriminate E | inversion E; outcome ]. }
  intros [failure | ] Hentered; [ apply post_ret, Hentered; reflexivity | ].
  apply post_bind_with with (Q := early_outcome).
  { unfold submit_query.
    repeat post_step; intros d E; first [ discriminate E | inversion E; outcome ]. }
  intros [failure | ] Hsubmitted; [ apply post_ret, Hsubmitted; reflexivity | ].
  repeat post_step; outcome.
Qed.

Lemma get_dom_context_returns (max_elements : Z) :
  Returns (fun _ => True) (get_dom_context max_elements).
Proof.
  apply returns_try; [ intros s a s' _; exact I | intros; apply returns_ret; exact I ].
Qed.

Lemma get_target_coordinates_ocr_returns (target_text : string) (threshold : Z) :
  Returns (fun _ => True) (get_target_coordinates_ocr target_text threshold).
Proof.
  apply returns_try; [ intros s a s' _; exact I | intros; apply returns_ret; exact I ].
Qed.

End ControllerFacts.

#[export] Hint Resolve connect_controller_returns navigate_returns click_returns
  input_text_returns extract_returns click_by_coordinates_returns search_returns
  : controller.

(* ================================================================== *)
(** * One step of the executor *)
(* ================================================================== *)

Ltac early :=
  apply post_ret; intros ? E;
  first [ discriminate E | inversion E; subst; assumption ].

Section StepFacts.

Context {W Elem : Type} {driver : BrowserDriver W Elem} {builtins : Builtins}.

Lemma post_call {A : Type} (P : A -> Prop) (c : Comp W A) :
  Post P c -> Post P (call c).
Proof.
  intros H s a s' E. unfold call in E.
  destruct (c (browser s)) as [r w] eqn:Ec. inversion E. subst.
  exact (H _ _ _ Ec).
Qed.

Lemma returns_call {A : Type} (P : A -> Prop) (c : Comp W A) :
  Returns P c -> Returns P (call c).
Proof.
  intros H s. destruct (H (browser s)) as (a & w & E & Pa).
  exists a, (mkXState w (connected s) (events s)).
  unfold call. rewrite E. split; [ reflexivity | exact Pa ].
Qed.

Lemma returns_emit (P : unit -> Prop) (e : Event) :
  P tt -> Returns P (emit (W := W) e).
Proof. intros H s. eexists; eexists. split; [ reflexivity | exact H ]. Qed.

Ltac ctl := apply post_call, returns_post; auto with controller.

(** Whatever the body of the [try] returns is an outcome. *)
Lemma dispatch_post (action : string) (params : Params) (dom_selector : string)
  (coords : option Coords) :
  Post Entry (dispatch action params dom_selector coords).
Proof.
  unfold dispatch.
  destruct (action =? "navigate")%string; [ repeat post_step; ctl | ].
  destruct (action =? "click")%string.
  { apply post_bind_with with (Q := early_outcome).
    - unfold click_by_hint. destruct (usable_hint dom_selector); [ | early ].
      apply post_bind; intros _.
      apply post_try; [ | intros; early ].
      apply post_bind_with with (Q := Entry); [ ctl | ].
      intros result Hresult. apply post_bind; intro status.
      destruct (status =? "success")%string; early.
    - intros [result | ] Hdom; [ apply post_ret, Hdom; reflexivity | ].
      destruct (explicit_coords coords) as [[x y] | ]; [ repeat post_step; ctl | ].
      apply post_bind_with with (Q := early_outcome).
      + unfold click_by_ocr. destruct (PyStr.truthy _); [ | early ].
        apply post_bind; intros _.
        apply post_bind; intros found. apply post_bind; intros _.
        destruct found as [[x y] | ]; [ | early ].
        apply post_bind_with with (Q := Entry); [ ctl | intros; early ].
      + intros [result | ] Hocr; [ apply post_ret, Hocr; reflexivity | ].
        destruct (PyStr.truthy _); [ repeat post_step; ctl | apply post_ret; outcome ]. }
  destruct (action =? "search")%string; [ repeat post_step; ctl | ].
  destruct (action =? "input")%string; [ repeat post_step; ctl | ].
  destruct (action =? "extract")%string; [ ctl | ].
  destruct (action =? "wait")%string; [ repeat post_step; outcome | ].
  destruct (action =? "complete")%string; apply post_ret; outcome.
Qed.

Lemma _execute_step_returns (step : Step) : Returns Entry (_execute_step step).
Proof.
  unfold _execute_step.
  apply returns_bind; [ apply returns_emit; exact I | intros _ ].
  apply returns_try; [ apply dispatch_post | handled ].
Qed.

(** C6.  A call of [_execute_step] always returns, and what it returns is
    an outcome: a dictionary whose status is [success] or [error] and that
    has a message.  When the body of its [try] raises an exception, the
    outcome is the error dictionary built from that exception; otherwise
    it is what the body returned.  No exception leaves [_execute_step]. *)
Theorem execute_step_returns_outcome (step : Step) (s : XState W) :
  exists outcome s',
    _execute_step step s = (Ok outcome, s')
    /\ Outcome outcome
    /\ match dispatch (action step) (params step) (PyStr.strip (dom step))
               (coords step) (snd (emit (EvExec step) s)) with
       | (Ok returned, s1) => outcome = returned /\ s' = s1
       | (Exc e, s1) =>
           outcome = error ("Error executing " ++ action step ++ ": " ++ exn_str e)
           /\ s' = s1
       end.
Proof.
  destruct (_execute_step_returns step s) as (outcome & s' & E & Hout & _).
  exists outcome, s'. split; [ exact E | split; [ exact Hout | ] ].
  unfold _execute_step, bind, try_catch, emit in E. cbn in *.
  destruct (dispatch _ _ _ _ _) as [[returned | e] s1];
    cbn in E; inversion E; subst; auto.
Qed.

End StepFacts.

(* ================================================================== *)
(** * The log of a computation *)
(* ================================================================== *)

Section Traces.

Context {W Elem : Type} {driver : BrowserDriver W Elem} {builtins : Builtins}.

Lemma sync_same {A : Type} (Q : Event -> Prop) (r : Res A) :
  Sync (W := W) Q (fun s => (r, s)).
Proof.
  intros [w1 c1 l1] [w2 c2 l2] Hw Hc. cbn in *. subst.
  exists r, w2, []. rewrite !app_nil_r. auto.
Qed.

Lemma sync_ret {A : Type} (Q : Event -> Prop) (a : A) : Sync (W := W) Q (ret a).
Proof. apply sync_same. Qed.

Lemma sync_raise {A : Type} (Q : Event -> Prop) (e : Exn) :
  Sync (W := W) Q (raise (A := A) e).
Proof. apply sync_same. Qed.

Lemma sync_subscript (Q : Event -> Prop) (d : Dict) (k : string) :
  Sync (W := W) Q (subscript d k).
Proof. unfold subscript. destruct (dict_get d k); apply sync_same. Qed.

Lemma sync_required (Q : Event -> Prop) (v : option string) (k : string) :
  Sync Q (required (W := W) v k).
Proof. unfold required. destruct v; apply sync_same. Qed.

Lemma sync_py_int (Q : Event -> Prop) (v : PyVal) :
  Sync (W := W) Q (py_int v).
Proof. unfold py_int. destruct v; apply sync_same. Qed.

Lemma sync_call {A : Type} (Q : Event -> Prop) (c : Comp W A) : Sync Q (call c).
Proof.
  intros [w1 c1 l1] [w2 c2 l2] Hw Hc. cbn in *. subst. unfold call. cbn.
  destruct (c w2) as [r w]. exists r, w, []. rewrite !app_nil_r. auto.
Qed.

Lemma sync_emit (Q : Event -> Prop) (e : Event) : Q e -> Sync Q (emit (W := W) e).
Proof.
  intros He [w1 c1 l1] [w2 c2 l2] Hw Hc. cbn in *. subst.
  exists (Ok tt), w2, [e]. auto.
Qed.

Lemma sync_bind {A B : Type} (Q : Event -> Prop)
  (m : Comp (XState W) A) (f : A -> Comp (XState W) B) :
  Sync Q m -> (forall a, Sync Q (f a)) -> Sync Q (bind m f).
Proof.
  intros Hm Hf s1 s2 Hw Hc.
  destruct (Hm s1 s2 Hw Hc) as (r & w & new & E1 & E2 & HQ).
  unfold bind. rewrite E1, E2. destruct r as [a | e].
  - destruct (Hf a (mkXState w (connected s1) (events s1 ++ new))
                (mkXState w (connected s2) (events s2 ++ new))
                eq_refl Hc) as (r' & w' & new' & F1 & F2 & HQ').
    cbn in F1, F2. rewrite <- !app_assoc in F1, F2.
    exists r', w', (new ++ new')%list. rewrite F1, F2.
    repeat split; trivial. apply Forall_app. auto.
  - exists (Exc e), w, new. auto.
Qed.

Lemma sync_try {A : Type} (Q : Event -> Prop)
  (m : Comp (XState W) A) (h : Exn -> Comp (XState W) A) :
  Sync Q m -> (forall e, Sync Q (h e)) -> Sync Q (try_catch m h).
Proof.
  intros Hm Hh s1 s2 Hw Hc.
  destruct (Hm s1 s2 Hw Hc) as (r & w & new & E1 & E2 & HQ).
  unfold try_catch. rewrite E1, E2. destruct r as [a | e].
  - exists (Ok a), w, new. auto.
  - destruct (Hh e (mkXState w (connected s1) (events s1 ++ new))
                (mkXState w (connected s2) (events s2 ++ new))
                eq_refl Hc) as (r' & w' & new' & F1 & F2 & HQ').
    cbn in F1, F2. rewrite <- !app_assoc in F1, F2.
    exists r', w', (new ++ new')%list. rewrite F1, F2.
    repeat split; trivial. apply Forall_app. auto.
Qed.

Lemma sync_time_sleep (Q : Event -> Prop) (ms : Z) :
  Q (EvSleep ms) -> Sync Q (time_sleep ms).
Proof.
  intro H. unfold time_sleep.
  destruct (ms <? 0); [ apply sync_raise | ].
  apply sync_bind; [ apply sync_call | intros _; apply sync_emit, H ].
Qed.

Lemma sync_weaken {A : Type} (Q Q' : Event -> Prop) (m : Comp (XState W) A) :
  (forall e, Q e -> Q' e) -> Sync Q m -> Sync Q' m.
Proof.
  intros HQ Hm s1 s2 Hw Hc.
  destruct (Hm s1 s2 Hw Hc) as (r & w & new & E1 & E2 & H).
  exists r, w, new. repeat split; trivial.
  revert H. apply Forall_impl. exact HQ.
Qed.

(** What [Sync] says about one run. *)
Lemma sync_run {A : Type} (Q : Event -> Prop) (m : Comp (XState W) A) (s : XState W) :
  Sync Q m ->
  exists r w new,
    m s = (r, mkXState w (connected s) (events s ++ new)) /\ Forall Q new.
Proof.
  intro H. destruct (H s s eq_refl eq_refl) as (r & w & new & E & _ & HQ).
  exists r, w, new. auto.
Qed.

End Traces.

Ltac sync_step :=
  match goal with
  | |- Sync _ (bind _ _) => apply sync_bind; [ | intros ]
  | |- Sync _ (try_catch _ _) => apply sync_try; [ | intros ]
  | |- Sync _ (ret _) => apply sync_ret
  | |- Sync _ (raise _) => apply sync_raise
  | |- Sync _ (call _) => apply sync_call
  | |- Sync _ (emit _) => apply sync_emit; exact I
  | |- Sync _ (time_sleep _) => apply sync_time_sleep; exact I
  | |- Sync _ (subscript _ _) => apply sync_subscript
  | |- Sync _ (required _ _) => apply sync_required
  | |- Sync _ (py_int _) => apply sync_py_int
  | |- Sync _ (match ?x with _ => _ end) => destruct x
  end.

Section StepTraces.

Context {W Elem : Type} {driver : BrowserDriver W Elem} {builtins : Builtins}.

Lemma dispatch_sync (action : string) (params : Params) (dom_selector : string)
  (coords : option Coords) :
  Sync step_level (dispatch action params dom_selector coords).
Proof. unfold dispatch, click_by_hint, click_by_ocr. repeat sync_step. Qed.

(** Without a usable hint the structural tier is not entered. *)
Lemma dispatch_sync_unhinted (action : string) (params : Params) (dom_selector : string)
  (coords : option Coords) :
  usable_hint dom_selector = false ->
  Sync unhinted_level (dispatch action params dom_selector coords).
Proof.
  intro H. unfold dispatch, click_by_hint, click_by_ocr. rewrite H.
  repeat sync_step.
Qed.

(** The body of a step depends on the hint through [usable_hint] only,
    when the hint is not usable. *)
Lemma dispatch_unusable (action : string) (params : Params) (d1 d2 : string)
  (coords : option Coords) :
  usable_hint d1 = false -> usable_hint d2 = false ->
  dispatch action params d1 coords = dispatch action params d2 coords.
Proof. intros H1 H2. unfold dispatch, click_by_hint. rewrite H1, H2. reflexivity. Qed.

End StepTraces.

(* ================================================================== *)
(** * Waiting *)
(* ================================================================== *)

Section Waiting.

Context {W Elem : Type} {driver : BrowserDriver W Elem} {builtins : Builtins}.

(** A pause of the executor that is not negative is the pause of the clock,
    logged when it was taken. *)
Lemma time_sleep_run (ms : Z) (s : XState W) :
  0 <= ms ->
  time_sleep ms s
  = match clock_sleep ms (browser s) with
    | (Ok _, w) => (Ok tt, mkXState w (connected s) (events s ++ [EvSleep ms])%list)
    | (Exc e, w) => (Exc e, mkXState w (connected s) (events s))
    end.
Proof.
  intro H. unfold time_sleep. destruct (Z.ltb_spec ms 0); [ lia | ].
  unfold bind, call. destruct (clock_sleep ms (browser s)) as [[[] | e] w]; reflexivity.
Qed.



End Waiting.

(* ================================================================== *)
(** * Clicking: the order of the tiers *)
(* ================================================================== *)

Section Clicking.

Context {W Elem : Type} {driver : BrowserDriver W Elem} {builtins : Builtins}.

Lemma call_run {A : Type} (c : Comp W A) (s : XState W) (r : Res A) (w : W) :
  c (browser s) = (r, w) -> call c s = (r, mkXState w (connected s) (events s)).
Proof. intro E. unfold call. rewrite E. reflexivity. Qed.

Lemma emit_run (e : Event) (s : XState W) :
  emit e s = (Ok tt, mkXState (browser s) (connected s) (events s ++ [e])%list).
Proof. reflexivity. Qed.

Lemma state_eta (s : XState W) :
  s = mkXState (browser s) (connected s) (events s ++ [])%list.
Proof. destruct s. cbn. rewrite app_nil_r. reflexivity. Qed.

(** Block 1 always hands over to the rest of the branch or returns an
    outcome; it logs the structural tier when the hint is usable. *)
Lemma click_by_hint_run (dom_selector : string) (s : XState W) :
  exists by_dom w new,
    click_by_hint dom_selector s
    = (Ok by_dom, mkXState w (connected s) (events s ++ new)%list)
    /\ hint_events new
    /\ (usable_hint dom_selector = false -> by_dom = None /\ w = browser s /\ new = []).
Proof.
  unfold click_by_hint. destruct (usable_hint dom_selector).
  - destruct (click_returns dom_selector (browser s)) as (r & w & E & (Hst & _) & _).
    assert (exists by_dom,
               try_catch
                 (result <- call (click dom_selector) ;;
                  status <- subscript result "status" ;;
                  if (status =? "success")%string then ret (Some result) else ret None)
                 (fun _ => ret None)
                 (mkXState (browser s) (connected s) (events s ++ [EvTier Structural])%list)
               = (Ok by_dom,
                  mkXState w (connected s) (events s ++ [EvTier Structural])%list))
      as (by_dom & Etry).
    { destruct Hst as [Hst | Hst].
      - exists (Some r). apply try_ok.
        erewrite bind_ok by (apply call_run; exact E).
        erewrite bind_ok by (apply subscript_found; exact Hst). reflexivity.
      - exists None. apply try_ok.
        erewrite bind_ok by (apply call_run; exact E).
        erewrite bind_ok by (apply subscript_found; exact Hst). reflexivity. }
    exists by_dom, w, [EvTier Structural].
    erewrite bind_ok by apply emit_run.
    split; [ exact Etry | split; [ right; reflexivity | discriminate ] ].
  - exists None, (browser s), []. split; [ | split; [ left; reflexivity | auto ] ].
    unfold ret. rewrite <- state_eta. reflexivity.
Qed.

(** Block 3 on a non-empty text: the OCR is asked, and on an answer the
    click at the coordinates is the result of the block. *)
Lemma click_by_ocr_run (target_text : string) (s : XState W) :
  PyStr.truthy target_text = true ->
  exists found w1,
    get_target_coordinates_ocr target_text 60 (browser s) = (Ok found, w1)
    /\ match found with
       | Some (x, y) =>
           exists outcome w2,
             click_by_coordinates x y w1 = (Ok outcome, w2)
             /\ click_by_ocr target_text s
                = (Ok (Some outcome),
                   mkXState w2 (connected s)
                     (events s ++ [EvTier Optical; EvOcr (Some (x, y))])%list)
       | None =>
           click_by_ocr target_text s
           = (Ok None,
              mkXState w1 (connected s) (events s ++ [EvTier Optical; EvOcr None])%list)
       end.
Proof.
  intro Ht. unfold click_by_ocr. rewrite Ht.
  destruct (get_target_coordinates_ocr_returns target_text 60 (browser s))
    as (found & w1 & E & _).
  exists found, w1. split; [ exact E | ].
  destruct found as [[x y] | ].
  - destruct (click_by_coordinates_returns x y w1) as (outcome & w2 & E2 & _).
    exists outcome, w2. split; [ exact E2 | ].
    erewrite bind_ok by apply emit_run.
    erewrite bind_ok by (apply call_run; exact E).
    erewrite bind_ok by apply emit_run.
    erewrite bind_ok by (apply call_run; exact E2).
    cbn. rewrite <- app_assoc. reflexivity.
  - erewrite bind_ok by apply emit_run.
    erewrite bind_ok by (apply call_run; exact E).
    erewrite bind_ok by apply emit_run.
    cbn. rewrite <- app_assoc. reflexivity.
Qed.

Lemma click_dispatch (params : Params) (dom_selector : string) (coords : option Coords) :
  dispatch "click" params dom_selector coords
  = (by_dom <- click_by_hint dom_selector ;;
     match by_dom with
     | Some result => ret result
     | None =>
         match explicit_coords coords with
         | Some (x, y) =>
             emit (EvTier Spatial) ;;
             call (click_by_coordinates x y)
         | None =>
             by_ocr <- click_by_ocr (PyStr.strip (selector_or_empty params)) ;;
             match by_ocr with
             | Some result => ret result
             | None =>
                 if PyStr.truthy (PyStr.strip (selector_or_empty params))
                 then
                   emit (EvTier Descriptive) ;;
                   call (click (PyStr.strip (selector_or_empty params)))
                 else ret (error "No valid selector provided for click action.")
             end
         end
     end).
Proof. reflexivity. Qed.

Lemma truthy_nonempty (t : string) : t <> EmptyString -> PyStr.truthy t = true.
Proof. destruct t; [ congruence | reflexivity ]. Qed.

(** A hint of ASCII characters is judged by the upper case of its ASCII
    letters. *)
Lemma usable_hint_ascii (d : string) :
  PyStr.is_ascii d = true ->
  usable_hint d = PyStr.truthy d && negb (PyStr.upper d =? "N/A")%string.
Proof. intro H. unfold usable_hint. rewrite (str_upper_ascii d H). reflexivity. Qed.

Lemma literal_hint_unusable : usable_hint (PyStr.strip "N/A") = false.
Proof.
  change (PyStr.strip "N/A") with "N/A". rewrite usable_hint_ascii; reflexivity.
Qed.

(** C2, as the code has it.  A click step whose hint is the literal "N/A",
    that carries no coordinates, and whose descriptive text is not empty
    once its surrounding white space is stripped: the OCR tier is tried
    first, with that text and the threshold 60.  When the OCR answers with
    coordinates, the click at these coordinates is the outcome of the step
    and nothing else is tried; when it does not, the descriptive text is
    tried as a selector, and that click is the outcome.  The structural
    and the spatial tier are not entered. *)
Theorem click_without_hint_tries_ocr_then_text (step : Step) (s : XState W) :
  action step = "click" ->
  dom step = "N/A" ->
  explicit_coords (coords step) = None ->
  PyStr.strip (selector_or_empty (params step)) <> EmptyString ->
  exists found w1 outcome w2,
    get_target_coordinates_ocr (PyStr.strip (selector_or_empty (params step))) 60
      (browser s) = (Ok found, w1)
    /\ match found with
       | Some (x, y) =>
           click_by_coordinates x y w1 = (Ok outcome, w2)
           /\ _execute_step step s
              = (Ok outcome,
                 mkXState w2 (connected s)
                   (events s ++ [EvExec step; EvTier Optical; EvOcr found])%list)
       | None =>
           click (PyStr.strip (selector_or_empty (params step))) w1 = (Ok outcome, w2)
           /\ _execute_step step s
              = (Ok outcome,
                 mkXState w2 (connected s)
                   (events s ++ [EvExec step; EvTier Optical; EvOcr None;
                                 EvTier Descriptive])%list)
       end.
Proof.
  intros Hact Hdom Hcoords Htext.
  set (target := PyStr.strip (selector_or_empty (params step))) in *.
  pose proof (truthy_nonempty Htext) as Htruthy.
  set (s1 := mkXState (browser s) (connected s) (events s ++ [EvExec step])%list).
  destruct (click_by_ocr_run target s1 Htruthy) as (found & w1 & Eocr & Hrun).
  assert (Hhint : click_by_hint (PyStr.strip (dom step)) s1 = (Ok None, s1)).
  { rewrite Hdom. unfold click_by_hint. rewrite literal_hint_unusable. reflexivity. }
  unfold _execute_step. rewrite Hact.
  erewrite bind_ok by apply emit_run. fold s1.
  rewrite click_dispatch. fold target.
  exists found, w1. destruct found as [[x y] | ].
  - destruct Hrun as (outcome & w2 & Eclick & Hrun).
    exists outcome, w2. split; [ exact Eocr | split; [ exact Eclick | ] ].
    apply try_ok.
    erewrite bind_ok by exact Hhint. rewrite Hcoords.
    erewrite bind_ok by exact Hrun.
    subst s1. cbn. rewrite <- app_assoc. reflexivity.
  - destruct (click_returns target w1) as (outcome & w2 & Eclick & _).
    exists outcome, w2. split; [ exact Eocr | split; [ exact Eclick | ] ].
    apply try_ok.
    erewrite bind_ok by exact Hhint. rewrite Hcoords.
    erewrite bind_ok by exact Hrun. rewrite Htruthy.
    erewrite bind_ok by apply emit_run.
    erewrite call_run by exact Eclick.
    subst s1. cbn. rewrite <- !app_assoc. reflexivity.
Qed.

Lemma click_run (params : Params) (dom_selector : string) (coords : option Coords)
  (s : XState W) :
  exists outcome w new,
    dispatch "click" params dom_selector coords s
    = (Ok outcome, mkXState w (connected s) (events s ++ new)%list)
    /\ ClickRun s outcome w new.
Proof.
  rewrite click_dispatch.
  destruct (click_by_hint_run dom_selector s) as (by_dom & w & pre & Ehint & Hpre & _).
  erewrite bind_ok by exact Ehint.
  set (s1 := mkXState w (connected s) (events s ++ pre)%list).
  destruct by_dom as [result | ].
  { exists result, w, pre. split; [ reflexivity | ].
    destruct Hpre as [-> | ->]; [ apply by_nothing; left | apply by_the_hint ]; reflexivity. }
  destruct (explicit_coords coords) as [[x y] | ].
  { destruct (click_by_coordinates_returns x y w) as (outcome & w2 & E & _).
    exists outcome, w2, (pre ++ [EvTier Spatial])%list.
    split; [ | apply by_the_coordinates with (pre := pre); auto ].
    erewrite bind_ok by apply emit_run.
    erewrite call_run by exact E. cbn. rewrite <- app_assoc. reflexivity. }
  set (target := PyStr.strip (selector_or_empty params)).
  destruct (PyStr.truthy target) eqn:Htruthy.
  - destruct (click_by_ocr_run target s1 Htruthy) as (found & w1 & Eocr & Hrun).
    destruct found as [[x y] | ].
    + destruct Hrun as (outcome & w2 & Eclick & Hrun).
      exists outcome, w2, (pre ++ [EvTier Optical; EvOcr (Some (x, y))])%list.
      split; [ | apply by_the_ocr with (pre := pre) (target := target) (x := x) (y := y)
                   (w0 := w) (w1 := w1);
                 auto ].
      erewrite bind_ok by exact Hrun. cbn. rewrite <- app_assoc. reflexivity.
    + destruct (click_returns target w1) as (outcome & w2 & Eclick & _).
      exists outcome, w2, (pre ++ [EvTier Optical; EvOcr None; EvTier Descriptive])%list.
      split; [ | apply by_the_text with (pre := pre); auto ].
      erewrite bind_ok by exact Hrun. cbv beta iota.
      erewrite bind_ok by apply emit_run.
      erewrite call_run by exact Eclick. cbn. rewrite <- !app_assoc. reflexivity.
  - exists (error "No valid selector provided for click action."), w, pre.
    split; [ | apply by_nothing; exact Hpre ].
    unfold click_by_ocr. rewrite Htruthy. reflexivity.
Qed.

(** C10.  In a click step where the OCR answered with the coordinates
    [(x, y)], the answer is the last thing the step logged: no tier is
    entered after it, the descriptive one in particular.  The outcome of
    the step, success or error, is the one the click at [(x, y)] returned,
    made in the browser as the OCR call left it, and the browser is left
    as that click left it. *)
Theorem ocr_click_is_final (step : Step) (s s' : XState W) (outcome : Dict)
  (new : list Event) (x y : Z) :
  action step = "click" ->
  _execute_step step s = (Ok outcome, s') ->
  events s' = (events s ++ new)%list ->
  In (EvOcr (Some (x, y))) new ->
  (exists pre, new = (pre ++ [EvOcr (Some (x, y))])%list)
  /\ ~ In (EvTier Descriptive) new
  /\ exists target w0 w1,
       get_target_coordinates_ocr target 60 w0 = (Ok (Some (x, y)), w1)
       /\ click_by_coordinates x y w1 = (Ok outcome, browser s').
Proof.
  intros Hact Erun Hnew Hin.
  unfold _execute_step in Erun. rewrite Hact in Erun.
  erewrite bind_ok in Erun by apply emit_run.
  destruct (click_run (params step) (PyStr.strip (dom step)) (coords step)
              (mkXState (browser s) (connected s) (events s ++ [EvExec step])%list))
    as (outcome1 & w & new1 & Edispatch & Hrun).
  erewrite try_ok in Erun by exact Edispatch.
  inversion Erun; subst outcome1 s'; clear Erun.
  cbn in Hnew. rewrite <- app_assoc in Hnew. apply app_inv_head in Hnew. subst new.
  cbn in Hin. destruct Hin as [Hin | Hin]; [ discriminate Hin | ].
  destruct Hrun as [ -> | pre Hpre -> | pre target x1 y1 w0 w1 Hpre -> Eocr Eclick
                   | pre Hpre -> | Hpre ].
  - cbn in Hin. destruct Hin as [Hin | []]. discriminate Hin.
  - exfalso. destruct Hpre as [-> | ->]; cbn in Hin;
      repeat (destruct Hin as [Hin | Hin]; [ discriminate Hin | ]); exact Hin.
  - assert (x1 = x /\ y1 = y) as [-> ->].
    { destruct Hpre as [-> | ->]; cbn in Hin;
        repeat (destruct Hin as [Hin | Hin];
                [ first [ discriminate Hin | inversion Hin; auto ] | ]);
        destruct Hin. }
    split; [ | split ].
    + exists (EvExec step :: pre ++ [EvTier Optical])%list.
      cbn. rewrite <- app_assoc. reflexivity.
    + destruct Hpre as [-> | ->]; cbn; intuition discriminate.
    + exists target, w0, w1. cbn. auto.
  - exfalso. destruct Hpre as [-> | ->]; cbn in Hin;
      repeat (destruct Hin as [Hin | Hin]; [ discriminate Hin | ]); exact Hin.
  - exfalso. destruct Hpre as [-> | ->]; cbn in Hin;
      repeat (destruct Hin as [Hin | Hin]; [ discriminate Hin | ]); exact Hin.
Qed.

Lemma lower_n (c : ascii) :
  PyStr.lower_char c = "n"%char -> c = "n"%char \/ c = "N"%char.
Proof.
  destruct c as [[] [] [] [] [] [] [] []]; cbn; intro H;
    first [ discriminate H | auto ].
Qed.

Lemma lower_a (c : ascii) :
  PyStr.lower_char c = "a"%char -> c = "a"%char \/ c = "A"%char.
Proof.
  destruct c as [[] [] [] [] [] [] [] []]; cbn; intro H;
    first [ discriminate H | auto ].
Qed.

Lemma lower_slash (c : ascii) : PyStr.lower_char c = "/"%char -> c = "/"%char.
Proof.
  destruct c as [[] [] [] [] [] [] [] []]; cbn; intro H;
    first [ discriminate H | auto ].
Qed.

(** The strings that are "N/A" up to the case of their letters. *)
Lemma casings_of_NA (hint : string) :
  PyStr.lower hint = PyStr.lower "N/A" ->
  hint = "N/A" \/ hint = "N/a" \/ hint = "n/A" \/ hint = "n/a".
Proof.
  destruct hint as [ | c1 [ | c2 [ | c3 [ | c4 rest ] ] ] ]; cbn; intro H;
    try discriminate H.
  injection H as H1 H2 H3.
  apply lower_n in H1. apply lower_slash in H2. apply lower_a in H3.
  destruct H1, H3; subst; auto.
Qed.

Lemma casing_unusable (hint : string) :
  PyStr.lower hint = PyStr.lower "N/A" -> usable_hint (PyStr.strip hint) = false.
Proof.
  intro H. destruct (casings_of_NA hint H) as [-> | [-> | [-> | ->]]].
  - change (PyStr.strip "N/A") with "N/A". rewrite usable_hint_ascii; reflexivity.
  - change (PyStr.strip "N/a") with "N/a". rewrite usable_hint_ascii; reflexivity.
  - change (PyStr.strip "n/A") with "n/A". rewrite usable_hint_ascii; reflexivity.
  - change (PyStr.strip "n/a") with "n/a". rewrite usable_hint_ascii; reflexivity.
Qed.

(** C9.  A hint that is "N/A" up to the case of its letters is treated as
    the literal "N/A": from the same state, the step with that hint and the
    step with the literal have the same result, leave the same browser and
    log the same events after the one that names the step; the structural
    tier is not among them.  This holds for every action, so for click,
    input and extract. *)
Theorem hint_casing_is_ignored (step : Step) (hint : string) (s : XState W) :
  PyStr.lower hint = PyStr.lower "N/A" ->
  exists result w new,
    _execute_step (with_hint hint step) s
    = (result,
       mkXState w (connected s) (events s ++ EvExec (with_hint hint step) :: new)%list)
    /\ _execute_step (with_hint "N/A" step) s
       = (result,
          mkXState w (connected s) (events s ++ EvExec (with_hint "N/A" step) :: new)%list)
    /\ ~ In (EvTier Structural) new.
Proof.
  intro Hcase. pose proof (casing_unusable hint Hcase) as Hhint.
  pose proof literal_hint_unusable as Hlit.
  unfold _execute_step. cbn [with_hint action params dom coords].
  erewrite !bind_ok by apply emit_run.
  rewrite (dispatch_unusable (action step) (params step) _ _ (coords step) Hhint Hlit).
  set (h := fun e : Exn =>
              ret (error ("Error executing " ++ action step ++ ": " ++ exn_str e))).
  assert (Hsync : Sync unhinted_level
                    (try_catch (dispatch (action step) (params step) (PyStr.strip "N/A")
                                  (coords step)) h)).
  { apply sync_try; [ apply dispatch_sync_unhinted; exact Hlit | intro; apply sync_ret ]. }
  edestruct Hsync as (r & w & new & E1 & E2 & Hnew);
    [ | | exists r, w, new; split; [ | split ] ].
  3:{ rewrite E1. cbn. rewrite <- app_assoc. reflexivity. }
  3:{ rewrite E2. cbn. rewrite <- app_assoc. reflexivity. }
  - reflexivity.
  - reflexivity.
  - intro Hin. rewrite Forall_forall in Hnew. exact (Hnew _ Hin).
Qed.

End Clicking.

(* ================================================================== *)
(** * Locating a text with the OCR *)
(* ================================================================== *)

Lemma prefix_spec (p s : string) :
  String.prefix p s = true <-> exists q, s = p ++ q.
Proof.
  revert s. induction p as [ | c p IH]; intro s.
  - split; [ intros _; exists s; reflexivity | intros _; destruct s; reflexivity ].
  - destruct s as [ | d s]; cbn.
    + split; [ discriminate | intros [q H]; discriminate H ].
    + destruct (ascii_dec c d) as [-> | Hcd].
      * rewrite IH. split; intros [q H]; exists q; [ subst; reflexivity | ].
        injection H. auto.
      * split; [ discriminate | intros [q H]; injection H; congruence ].
Qed.

Lemma contains_spec (needle hay : string) :
  PyStr.contains needle hay = true <-> substring_of needle hay.
Proof.
  unfold substring_of. induction hay as [ | c hay IH]; cbn [PyStr.contains].
  - rewrite prefix_spec. split.
    + intros [q H]. exists EmptyString, q. exact H.
    + intros ([ | b before] & after & H); [ exists after; exact H | discriminate H ].
  - rewrite orb_true_iff, prefix_spec, IH. split.
    + intros [[q H] | (before & after & H)].
      * exists EmptyString, q. exact H.
      * exists (String c before), after. cbn. rewrite H. reflexivity.
    + intros ([ | b before] & after & H).
      * left. exists after. exact H.
      * right. exists before, after. cbn in H. injection H. auto.
Qed.

Section Locating.

Context {W Elem : Type} {driver : BrowserDriver W Elem} {builtins : Builtins}.

Lemma row_matches_spec (target_text : string) (threshold : Z) (row : OcrRow) :
  row_matches target_text threshold row = true <-> qualifies target_text threshold row.
Proof.
  unfold row_matches, qualifies.
  rewrite andb_true_iff, Z.ltb_lt, contains_spec. reflexivity.
Qed.

(** The scan stops at the first row that qualifies. *)
Lemma scan_boxes_first (target_text : string) (threshold : Z) (data : list OcrRow) :
  match scan_boxes target_text threshold data with
  | Some xy =>
      exists before row after,
        data = (before ++ row :: after)%list
        /\ Forall (fun r => ~ qualifies target_text threshold r) before
        /\ qualifies target_text threshold row
        /\ xy = (ocr_left row + ocr_width row / 2, ocr_top row + ocr_height row / 2)
  | None => Forall (fun r => ~ qualifies target_text threshold r) data
  end.
Proof.
  induction data as [ | row data IH]; cbn [scan_boxes].
  - constructor.
  - destruct (row_matches target_text threshold row) eqn:Hrow.
    + exists [], row, data. rewrite row_matches_spec in Hrow. auto.
    + assert (Hnot : ~ qualifies target_text threshold row).
      { rewrite <- row_matches_spec, Hrow. discriminate. }
      destruct (scan_boxes target_text threshold data) as [xy | ].
      * destruct IH as (before & hit & after & -> & Hbefore & Hhit & Hxy).
        exists (row :: before), hit, after. auto.
      * constructor; assumption.
Qed.


(** C3, as the code has it.  On the rows the OCR returned, in their order,
    [get_target_coordinates_ocr] answers with the first row whose
    confidence (read as an integer) exceeds the threshold and whose text,
    stripped of surrounding white space and in lower case, contains the
    target text in lower case; the answer is the centre of its box,
    [(left + width // 2, top + height // 2)].  When no row qualifies the
    answer is absent. *)
Theorem ocr_answers_with_first_match (target_text : string) (threshold : Z)
  (w w' : W) (data : list OcrRow) :
  ocr_image_to_data w = (Ok data, w') ->
  exists found,
    get_target_coordinates_ocr target_text threshold w = (Ok found, w')
    /\ match found with
       | Some xy =>
           exists before row after,
             data = (before ++ row :: after)%list
             /\ Forall (fun r => ~ qualifies target_text threshold r) before
             /\ qualifies target_text threshold row
             /\ xy = (ocr_left row + ocr_width row / 2,
                      ocr_top row + ocr_height row / 2)
       | None => Forall (fun r => ~ qualifies target_text threshold r) data
       end.
Proof.
  intro E. exists (scan_boxes target_text threshold data).
  split; [ | apply scan_boxes_first ].
  unfold get_target_coordinates_ocr. apply try_ok.
  erewrite bind_ok by exact E. reflexivity.
Qed.

End Locating.

(* ================================================================== *)
(** * The snapshot of the page *)
(* ================================================================== *)

Section Sorting.

Variable A : Type.
Variable key : A -> Z.

Lemma insert_by_length (x : A) (l : list A) :
  List.length (Script.insert_by (by_key key) x l) = S (List.length l).
Proof.
  induction l as [ | y l IH]; cbn; [ reflexivity | ].
  destruct (by_key key x y <=? 0); cbn; [ reflexivity | rewrite IH; reflexivity ].
Qed.

Lemma sort_by_length (l : list A) :
  List.length (Script.sort_by (by_key key) l) = List.length l.
Proof.
  induction l as [ | x l IH]; cbn; [ reflexivity | ].
  rewrite insert_by_length, IH. reflexivity.
Qed.

Lemma insert_by_elements (x : A) (l : list A) (P : A -> Prop) :
  P x -> Forall P l -> Forall P (Script.insert_by (by_key key) x l).
Proof.
  intros Hx Hl. induction Hl as [ | y l Hy Hl IH]; cbn.
  - constructor; [ exact Hx | constructor ].
  - destruct (by_key key x y <=? 0); constructor; auto.
Qed.

Lemma insert_by_sorted (x : A) (l : list A) :
  StronglySorted (key_le key) l -> StronglySorted (key_le key) (Script.insert_by (by_key key) x l).
Proof.
  intro Hl. induction Hl as [ | y l Hl IH Hy]; cbn.
  - constructor; constructor.
  - destruct (Z.leb_spec (by_key key x y) 0) as [Hxy | Hxy]; unfold by_key in Hxy.
    + constructor; [ constructor; assumption | ].
      constructor; [ unfold key_le; lia | ].
      revert Hy. apply Forall_impl. unfold key_le. intros; lia.
    + constructor; [ exact IH | ].
      apply insert_by_elements; [ unfold key_le; lia | exact Hy ].
Qed.

Lemma sort_by_sorted (l : list A) : StronglySorted (key_le key) (Script.sort_by (by_key key) l).
Proof.
  induction l as [ | x l IH]; cbn; [ constructor | ].
  apply insert_by_sorted, IH.
Qed.

Lemma firstn_elements (P : A -> Prop) (n : nat) (l : list A) :
  Forall P l -> Forall P (firstn n l).
Proof.
  intro Hl. revert n. induction Hl as [ | x l Hx Hl IH]; intro n.
  - rewrite firstn_nil. constructor.
  - destruct n; cbn; constructor; auto.
Qed.

Lemma firstn_sorted (R : A -> A -> Prop) (n : nat) (l : list A) :
  StronglySorted R l -> StronglySorted R (firstn n l).
Proof.
  intro Hl. revert n. induction Hl as [ | x l Hl IH Hx]; intro n.
  - rewrite firstn_nil. constructor.
  - destruct n; cbn; constructor; [ apply IH | apply firstn_elements, Hx ].
Qed.

End Sorting.

Lemma slice0_sorted {A : Type} (R : A -> A -> Prop) (l : list A) (e : Z) :
  StronglySorted R l -> StronglySorted R (Script.slice0 l e).
Proof. intro H. unfold Script.slice0. destruct (e <? 0); apply firstn_sorted, H. Qed.

Lemma slice0_length {A : Type} (l : list A) (e : Z) :
  0 <= e -> Z.of_nat (List.length (Script.slice0 l e)) <= e.
Proof.
  intro H. unfold Script.slice0. destruct (Z.ltb_spec e 0); [ lia | ].
  pose proof (firstn_le_length (Z.to_nat e) l). lia.
Qed.

Lemma map_sorted {A B : Type} (f : A -> B) (R : A -> A -> Prop) (R' : B -> B -> Prop)
  (l : list A) :
  (forall a b, R a b -> R' (f a) (f b)) ->
  StronglySorted R l -> StronglySorted R' (map f l).
Proof.
  intros Hf Hl. induction Hl as [ | x l Hl IH Hx]; cbn; constructor; [ exact IH | ].
  rewrite Forall_forall in *. intros y Hy.
  apply in_map_iff in Hy. destruct Hy as (a & <- & Ha). auto.
Qed.

Section Snapshot.

Context {W Elem : Type} {driver : BrowserDriver W Elem} {builtins : Builtins}.

(** What the script returns is in bucket order, and no longer than a
    non-negative bound. *)
Lemma getInteractiveElements_sorted (allElements : list DomNode) (maxElements : Z) :
  StronglySorted bucket_le (Script.getInteractiveElements allElements maxElements).
Proof.
  unfold Script.getInteractiveElements.
  apply map_sorted with (R := fun a b => Script.priority a <= Script.priority b).
  - intros a b H. exact H.
  - apply slice0_sorted. apply (sort_by_sorted Script.priority).
Qed.

Lemma getInteractiveElements_length (allElements : list DomNode) (maxElements : Z) :
  0 <= maxElements ->
  Z.of_nat (List.length (Script.getInteractiveElements allElements maxElements))
  <= maxElements.
Proof.
  intro H. unfold Script.getInteractiveElements. rewrite length_map.
  apply slice0_length, H.
Qed.


(** C4, as the code has it.  For a bound of at least one, [get_dom_context]
    always returns; the sequence it returns is no longer than the bound and
    is in bucket order: inputs and buttons, then links, then the rest.  It
    is the empty sequence when the script fails, and what the script
    computes from the page otherwise.  (The script reads a bound of zero as
    no bound given and uses 200.) *)
Theorem dom_context_is_bounded_and_ordered (max_elements : Z) (w : W) :
  1 <= max_elements ->
  exists snapshot w',
    get_dom_context max_elements w = (Ok snapshot, w')
    /\ Z.of_nat (List.length snapshot) <= max_elements
    /\ StronglySorted bucket_le snapshot
    /\ match script_query_interactive w with
       | (Ok allElements, _) =>
           snapshot = Script.getInteractiveElements allElements max_elements
       | (Exc _, _) => snapshot = []
       end.
Proof.
  intro Hmax. unfold get_dom_context, try_catch, bind.
  assert (Hor : Script.or_200 max_elements = max_elements).
  { unfold Script.or_200. destruct (Z.eqb_spec max_elements 0); [ lia | reflexivity ]. }
  rewrite Hor.
  destruct (script_query_interactive w) as [[allElements | e] w1]; cbn.
  - eexists; eexists. split; [ reflexivity | ].
    split; [ apply getInteractiveElements_length; lia | ].
    split; [ apply getInteractiveElements_sorted | reflexivity ].
  - eexists; eexists. split; [ reflexivity | ].
    cbn. split; [ lia | split; [ constructor | reflexivity ] ].
Qed.

(** With the bound zero the script keeps up to 200 elements. *)
Lemma dom_context_default_bound (w : W) :
  exists snapshot w',
    get_dom_context 0 w = (Ok snapshot, w')
    /\ Z.of_nat (List.length snapshot) <= 200.
Proof.
  unfold get_dom_context. change (Script.or_200 0) with 200.
  destruct (script_query_interactive w) as [[allElements | e] w1] eqn:E.
  - erewrite try_ok by (erewrite bind_ok by exact E; reflexivity).
    eexists; eexists. split; [ reflexivity | ].
    apply getInteractiveElements_length. lia.
  - erewrite try_exc by (erewrite bind_exc by exact E; reflexivity).
    eexists; eexists. split; [ reflexivity | cbn; lia ].
Qed.

End Snapshot.

(* ================================================================== *)
(** * Recovery *)
(* ================================================================== *)

Lemma pick_app {A B : Type} (f : A -> option B) (l1 l2 : list A) :
  pick f (l1 ++ l2) = (pick f l1 ++ pick f l2)%list.
Proof.
  induction l1 as [ | a l1 IH]; cbn; [ reflexivity | ].
  destruct (f a); cbn; rewrite IH; reflexivity.
Qed.

Lemma pick_none {A B : Type} (f : A -> option B) (l : list A) :
  Forall (fun a => f a = None) l -> pick f l = [].
Proof.
  intro H. induction H as [ | a l Ha Hl IH]; cbn; [ reflexivity | ].
  rewrite Ha. exact IH.
Qed.

Lemma step_level_below_loop (l : list Event) :
  Forall step_level l -> Forall below_loop l.
Proof. apply Forall_impl. intros [ | | | | | ]; cbn; tauto. Qed.

Lemma below_loop_no_iter (l : list Event) : Forall below_loop l -> iters l = [].
Proof.
  intro H. apply pick_none. revert H. apply Forall_impl.
  intros [ | | | | | ]; cbn; tauto.
Qed.

Lemma below_loop_no_verdict (l : list Event) : Forall below_loop l -> verdicts l = [].
Proof.
  intro H. apply pick_none. revert H. apply Forall_impl.
  intros [ | | | | | ]; cbn; tauto.
Qed.

Lemma waiting_is_not_search (a : string) :
  waits_for_element a = true -> (a =? "search")%string = false.
Proof.
  intro H. destruct (String.eqb_spec a "search") as [-> | _]; [ discriminate H | reflexivity ].
Qed.

Section Recovery.

Context {W Elem : Type} {driver : BrowserDriver W Elem} {builtins : Builtins}.

(** A step always returns what the executor can record; it logs its start
    and then only tiers, OCR answers and pauses. *)
Lemma _execute_step_run (step : Step) (s : XState W) :
  exists outcome w rest,
    _execute_step step s
    = (Ok outcome, mkXState w (connected s) (events s ++ EvExec step :: rest)%list)
    /\ Entry outcome
    /\ Forall step_level rest.
Proof.
  destruct (_execute_step_returns step s) as (outcome & s' & E & Hout).
  exists outcome. unfold _execute_step in *.
  erewrite bind_ok in * by apply emit_run.
  set (h := fun e : Exn =>
              ret (error ("Error executing " ++ action step ++ ": " ++ exn_str e))) in *.
  assert (Hsync : Sync step_level
                    (try_catch (dispatch (action step) (params step)
                                  (PyStr.strip (dom step)) (coords step)) h)).
  { apply sync_try; [ apply dispatch_sync | intro; apply sync_ret ]. }
  destruct (sync_run (mkXState (browser s) (connected s) (events s ++ [EvExec step])%list)
              Hsync) as (r & w & rest & Erun & Hrest).
  rewrite Erun in E. inversion E; subst r s'.
  exists w, rest. rewrite Erun. cbn. rewrite <- app_assoc.
  split; [ reflexivity | split; assumption ].
Qed.

Lemma _execute_step_sync (step : Step) : Sync below_loop (_execute_step step).
Proof.
  unfold _execute_step.
  apply sync_bind; [ apply sync_emit; exact I | intros _ ].
  apply sync_try; [ | intro; apply sync_ret ].
  apply sync_weaken with (Q := step_level); [ | apply dispatch_sync ].
  intros [ | | | | | ]; cbn; tauto.
Qed.

(** What [_attempt_recovery] logs, however it ends, and what it hands
    back when it returns. *)
Lemma _attempt_recovery_log (failed_step : Step) (error_result : Dict)
  (step_index : nat) (s : XState W) :
  exists r w new,
    _attempt_recovery failed_step error_result step_index s
    = (r, mkXState w (connected s) (events s ++ new)%list)
    /\ Forall below_loop new
    /\ match r with
       | Ok (Some outcome) => Entry outcome
       | _ => True
       end.
Proof.
  assert (Hsync : Sync below_loop (_attempt_recovery failed_step error_result step_index)).
  { unfold _attempt_recovery.
    repeat first [ apply _execute_step_sync | sync_step ]. }
  assert (Hpost : Post (fun r => match r with Some outcome => Entry outcome | None => True end)
                    (_attempt_recovery failed_step error_result step_index)).
  { unfold _attempt_recovery.
    apply post_bind_with
      with (Q := fun r => match r with Some outcome => Entry outcome | None => True end).
    - destruct (_ && _); [ | apply post_ret; exact I ].
      apply post_bind. intros _.
      apply post_bind_with with (Q := Entry);
        [ apply returns_post, _execute_step_returns | intros retry Hretry ].
      apply post_bind. intro status.
      destruct (status =? "success")%string; apply post_ret; [ exact Hretry | exact I ].
    - intros [retry | ] Hretry; [ apply post_ret; exact Hretry | ].
      destruct (_ && _); [ | apply post_ret; exact I ].
      apply post_bind. intro nav.
      apply post_bind. intro status.
      destruct (status =? "success")%string; [ | apply post_ret; exact I ].
      apply post_bind_with with (Q := Entry);
        [ apply returns_post, _execute_step_returns | intros retry Hentry ].
      apply post_ret. exact Hentry. }
  destruct (sync_run s Hsync) as (r & w & new & E & Hnew).
  exists r, w, new. split; [ exact E | split; [ exact Hnew | ] ].
  destruct r as [[outcome | ] | e]; trivial.
  exact (Hpost _ _ _ E).
Qed.

(** The runs of [_attempt_recovery], case by case. *)
Lemma _attempt_recovery_run (failed_step : Step) (error_result : Dict)
  (step_index : nat) (s : XState W) :
  if element_not_found failed_step error_result
  then
    match clock_sleep 3000 (browser s) with
    | (Exc e, w1) =>
        _attempt_recovery failed_step error_result step_index s
        = (Exc e, mkXState w1 (connected s) (events s))
    | (Ok _, w1) =>
        exists retry s2,
          _execute_step failed_step
            (mkXState w1 (connected s) (events s ++ [EvSleep 3000])%list)
          = (Ok retry, s2)
          /\ Entry retry
          /\ _attempt_recovery failed_step error_result step_index s
             = (Ok (if succeeded_b retry then Some retry else None), s2)
    end
  else if no_search_box failed_step error_result step_index
  then
    exists nav s1,
      _execute_step nav_step s = (Ok nav, s1)
      /\ if succeeded_b nav
         then
           exists retry s2,
             _execute_step failed_step s1 = (Ok retry, s2)
             /\ Entry retry
             /\ _attempt_recovery failed_step error_result step_index s
                = (Ok (Some retry), s2)
         else
           _attempt_recovery failed_step error_result step_index s = (Ok None, s1)
  else
    _attempt_recovery failed_step error_result step_index s = (Ok None, s).
Proof.
  unfold _attempt_recovery, element_not_found, no_search_box.
  change (match dict_get error_result "message" with
          | Some m => m
          | None => EmptyString
          end) with (error_message error_result).
  set (msg := error_message error_result).
  destruct (PyStr.contains "not found" msg && waits_for_element (action failed_step))
    eqn:Hcase1.
  - (* the element was not found *)
    apply andb_true_iff in Hcase1. destruct Hcase1 as [_ Hwaits].
    pose proof (waiting_is_not_search _ Hwaits) as Hsearch.
    pose proof (@time_sleep_run _ _ driver 3000 s ltac:(lia)) as Hsleep.
    destruct (clock_sleep 3000 (browser s)) as [[[] | e] w1].
    + destruct (_execute_step_returns failed_step
                  (mkXState w1 (connected s) (events s ++ [EvSleep 3000])%list))
        as (retry & s2 & Eretry & Hretry).
      exists retry, s2. split; [ exact Eretry | split; [ exact Hretry | ] ].
      unfold succeeded_b.
      destruct Hretry as [[[Hst | Hst] _] _].
      * erewrite bind_ok.
        2:{ erewrite bind_ok by exact Hsleep.
            erewrite bind_ok by exact Eretry.
            erewrite bind_ok by (apply subscript_found; exact Hst).
            reflexivity. }
        rewrite Hst. reflexivity.
      * erewrite bind_ok.
        2:{ erewrite bind_ok by exact Hsleep.
            erewrite bind_ok by exact Eretry.
            erewrite bind_ok by (apply subscript_found; exact Hst).
            reflexivity. }
        rewrite Hsearch, Hst. reflexivity.
    + apply bind_exc. apply bind_exc. exact Hsleep.
  - erewrite bind_ok by reflexivity. cbv beta iota.
    destruct ((action failed_step =? "search")%string
              && PyStr.contains "search box" msg && (step_index =? 0)%nat);
      [ | reflexivity ].
    (* no search box on the first step *)
    destruct (_execute_step_returns nav_step s) as (nav & s1 & Enav & Hnav).
    exists nav, s1. split; [ exact Enav | ].
    unfold succeeded_b.
    destruct Hnav as [[[Hst | Hst] _] _]; rewrite Hst; cbn [is_str String.eqb Ascii.eqb Bool.eqb].
    + destruct (_execute_step_returns failed_step s1) as (retry & s2 & Eretry & Hretry).
      exists retry, s2. split; [ exact Eretry | split; [ exact Hretry | ] ].
      erewrite bind_ok by exact Enav.
      erewrite bind_ok by (apply subscript_found; exact Hst).
      cbn [String.eqb Ascii.eqb Bool.eqb].
      erewrite bind_ok by exact Eretry.
      reflexivity.
    + erewrite bind_ok by exact Enav.
      erewrite bind_ok by (apply subscript_found; exact Hst).
      reflexivity.
Qed.

(** C5.  [_attempt_recovery] runs the failed step again at most once, and
    what it does is fixed by the case at hand.  When the message says
    "not found" and the action is click, input or extract, it pauses three
    seconds; if the pause fails, the failure is passed on and no step is
    run; otherwise it runs the failed step once, from the state the pause
    left, ends in the state that run left, and hands its outcome back only
    if it succeeded.  Otherwise, when the action is search, the message
    names the search box and the step is the first one, it runs the
    navigation to the search engine once and, only if that succeeded, the
    failed step once from the state the navigation left, and hands back
    the outcome of that run whatever its status.  In every other case it
    runs nothing, leaves the state as it is and returns absent. *)
Theorem recovery_retries_at_most_once (failed_step : Step) (error_result : Dict)
  (step_index : nat) (s : XState W) :
  if element_not_found failed_step error_result
  then
    match clock_sleep 3000 (browser s) with
    | (Exc e, w1) =>
        _attempt_recovery failed_step error_result step_index s
        = (Exc e, mkXState w1 (connected s) (events s))
    | (Ok _, w1) =>
        exists retry s2,
          _execute_step failed_step
            (mkXState w1 (connected s) (events s ++ [EvSleep 3000])%list)
          = (Ok retry, s2)
          /\ Entry retry
          /\ _attempt_recovery failed_step error_result step_index s
             = (Ok (if succeeded_b retry then Some retry else None), s2)
    end
  else if no_search_box failed_step error_result step_index
  then
    exists nav s1,
      _execute_step nav_step s = (Ok nav, s1)
      /\ if succeeded_b nav
         then
           exists retry s2,
             _execute_step failed_step s1 = (Ok retry, s2)
             /\ Entry retry
             /\ _attempt_recovery failed_step error_result step_index s
                = (Ok (Some retry), s2)
         else
           _attempt_recovery failed_step error_result step_index s = (Ok None, s1)
  else
    _attempt_recovery failed_step error_result step_index s = (Ok None, s).
Proof. apply _attempt_recovery_run. Qed.

End Recovery.

(* ================================================================== *)
(** * The loop *)
(* ================================================================== *)




Lemma entry_truthy (d : Dict) : Entry d -> d <> [].
Proof. intros [[[H | H] _] _] ->; discriminate H. Qed.

Section Loop.

Context {W Elem : Type} {driver : BrowserDriver W Elem} {builtins : Builtins}.

Lemma set_last_append (results : list Dict) (outcome recovered : Dict) :
  set_last (results ++ [outcome]) recovered = (results ++ [recovered])%list.
Proof. unfold set_last. rewrite removelast_last. reflexivity. Qed.

Ltac logs :=
  unfold iters, verdicts in *; rewrite ?pick_app; cbn [pick iter_of verdict_of];
  rewrite ?pick_app; cbn [pick iter_of verdict_of];
  repeat match goal with
         | H : pick _ _ = [] |- _ => rewrite H
         end;
  cbn [app].

(** One round: it logs its number once, and at most one verdict. *)
Lemma round_run (command_text : string) (i : nat) (results : list Dict) (cf : Z)
  (s : XState W) :
  exists r w new,
    iteration command_text i results cf s
    = (r, mkXState w (connected s) (events s ++ new)%list)
    /\ iters new = [i]
    /\ RoundRun cf results r (verdicts new).
Proof.
  unfold iteration.
  destruct (get_dom_context_returns 200 (browser s)) as (dom_context & w1 & Edom & _).
  erewrite bind_ok by (apply call_run; exact Edom).
  erewrite bind_ok by apply emit_run. cbn [browser connected events].
  destruct (drv_get_url w1) as [[current_url | e] w2] eqn:Eurl.
  2:{ erewrite bind_exc by (apply call_run; exact Eurl).
      exists (Exc e), w2, [EvIter i]. cbn [browser connected events].
      split; [ reflexivity | split; [ reflexivity | constructor ] ]. }
  erewrite bind_ok by (apply call_run; exact Eurl). cbn [browser connected events].
  destruct (llm_get_next_step command_text dom_context results w2)
    as [[[next_step | ] | e] w3] eqn:Ellm.
  3:{ erewrite bind_exc by (apply call_run; exact Ellm).
      exists (Exc e), w3, [EvIter i]. cbn [browser connected events].
      split; [ reflexivity | split; [ reflexivity | constructor ] ]. }
  2:{ erewrite bind_ok by (apply call_run; exact Ellm).
      exists (Ok (Break results)), w3, [EvIter i]. cbn [browser connected events].
      split; [ reflexivity | split; [ reflexivity | constructor ] ]. }
  erewrite bind_ok by (apply call_run; exact Ellm). cbn [browser connected events].
  destruct (action next_step =? "complete")%string.
  { eexists; exists w3, [EvIter i].
    split; [ reflexivity | split; [ reflexivity | apply round_complete ] ]. }
  set (s3 := mkXState w3 (connected s) (events s ++ [EvIter i])%list).
  destruct (_execute_step_run next_step s3)
    as (outcome & w4 & rest & Estep & Hout & Hrest).
  apply step_level_below_loop in Hrest.
  pose proof (below_loop_no_iter Hrest) as Hi1.
  pose proof (below_loop_no_verdict Hrest) as Hv1.
  erewrite bind_ok by exact Estep.
  pose proof Hout as [[[Hst | Hst] [message Hmsg]] _].
  - (* the step succeeded *)
    erewrite bind_ok by (apply subscript_found; exact Hst).
    cbn [String.eqb Ascii.eqb Bool.eqb].
    erewrite bind_ok by (apply subscript_found; exact Hmsg).
    erewrite bind_ok by apply emit_run.
    match goal with
    | |- context [bind (time_sleep 1500) _ ?st] =>
        pose proof (@time_sleep_run _ _ driver 1500 st ltac:(lia)) as Hsleep
    end.
    cbn [browser connected events] in Hsleep.
    destruct (clock_sleep 1500 w4) as [[[] | e] w5].
    + erewrite bind_ok by exact Hsleep.
      eexists; eexists; eexists.
      split; [ unfold ret; subst s3; cbn [browser connected events];
               rewrite <- !app_assoc; reflexivity | ].
      split; [ logs; reflexivity | logs; apply round_succeeded; assumption ].
    + erewrite bind_exc by exact Hsleep.
      eexists; eexists; eexists.
      split; [ subst s3; cbn [browser connected events];
               rewrite <- !app_assoc; reflexivity | ].
      split; [ logs; reflexivity | logs; apply round_crashed_late; discriminate ].
  - (* the step failed *)
    erewrite bind_ok by (apply subscript_found; exact Hst).
    cbn [String.eqb Ascii.eqb Bool.eqb].
    erewrite bind_ok by (apply subscript_found; exact Hmsg).
    unfold max_failures.
    destruct (Z.ltb_spec (cf + 1) 3) as [Hcf | Hcf].
    + set (s4 := mkXState w4 (connected s3) (events s3 ++ EvExec next_step :: rest)%list).
      destruct (_attempt_recovery_log next_step outcome i s4)
        as (answer & w5 & new_r & Erec & Hnew_r & Hrecovered).
      pose proof (below_loop_no_iter Hnew_r) as Hi2.
      pose proof (below_loop_no_verdict Hnew_r) as Hv2.
      destruct answer as [recovered | e].
      2:{ erewrite bind_exc by exact Erec.
          eexists; eexists; eexists.
          split; [ subst s4 s3; cbn [browser connected events];
                   rewrite <- !app_assoc; reflexivity | ].
          split; [ logs; reflexivity | logs; apply round_crashed ]. }
      erewrite bind_ok by exact Erec.
      destruct recovered as [recovered | ].
      * assert (Hrecorded : Entry recovered) by exact Hrecovered.
        pose proof Hrecorded as [[_ [message' Hmsg']] _].
        replace (dict_truthy recovered) with true
          by (destruct recovered; [ exfalso; exact (entry_truthy Hrecorded eq_refl)
                                  | reflexivity ]).
        erewrite bind_ok by (apply subscript_found; exact Hmsg').
        erewrite bind_ok by apply emit_run.
        match goal with
        | |- context [bind (time_sleep 1500) _ ?st] =>
            pose proof (@time_sleep_run _ _ driver 1500 st ltac:(lia)) as Hsleep
        end.
        cbn [browser connected events] in Hsleep.
        destruct (clock_sleep 1500 w5) as [[[] | e] w6].
        -- erewrite bind_ok by exact Hsleep.
           rewrite set_last_append.
           eexists; eexists; eexists.
           split; [ unfold ret; subst s4 s3; cbn [browser connected events];
                    rewrite <- !app_assoc; reflexivity | ].
           split; [ logs; reflexivity | logs; apply round_recovered, Hrecorded ].
        -- erewrite bind_exc by exact Hsleep.
           eexists; eexists; eexists.
           split; [ subst s4 s3; cbn [browser connected events];
                    rewrite <- !app_assoc; reflexivity | ].
           split; [ logs; reflexivity | logs; apply round_crashed_late; discriminate ].
      * erewrite bind_ok by apply emit_run.
        eexists; eexists; eexists.
        split; [ unfold ret; subst s4 s3; cbn [browser connected events];
                 rewrite <- !app_assoc; reflexivity | ].
        split; [ logs; reflexivity | logs; apply round_failed; assumption ].
    + erewrite bind_ok by apply emit_run.
      eexists; eexists; eexists.
      split; [ unfold ret; subst s3; cbn [browser connected events];
               rewrite <- !app_assoc; reflexivity | ].
      split; [ logs; reflexivity | logs; apply round_gave_up; assumption ].
Qed.

Lemma entry_append (results : list Dict) (outcome : Dict) :
  Forall Entry results -> Entry outcome ->
  Forall Entry (results ++ [outcome])%list.
Proof. intros H1 H2. apply Forall_app. split; [ exact H1 | constructor; auto ]. Qed.

Lemma entry_success (message : string) : Entry (success message).
Proof. outcome. Qed.

Lemma transcript_nil : Transcript [] [].
Proof. exists [], []. split; [ reflexivity | split; [ constructor | left; reflexivity ] ]. Qed.

Lemma transcript_closed (message : string) : Transcript [] [success message].
Proof.
  exists [], [success message].
  split; [ reflexivity | split; [ constructor | right; eauto ] ].
Qed.

Lemma transcript_cons (v : Verdict) (record : Dict) (vs : list Verdict)
  (records : list Dict) :
  verdict_fits v record -> Transcript vs records ->
  Transcript (v :: vs) (record :: records).
Proof.
  intros Hv (judged & closing & -> & Hjudged & Hclosing).
  exists (record :: judged), closing.
  split; [ reflexivity | split; [ constructor; assumption | exact Hclosing ] ].
Qed.

(** The loop: what it logs follows [LoopLog], it returns recorded outcomes
    only, and what it adds to the transcript goes with its verdicts. *)
Lemma for_range_run (command_text : string) (range : list nat) :
  forall (results : list Dict) (cf : Z) (s : XState W),
    0 <= cf < 3 ->
    Forall Entry results ->
    exists r w new,
      for_range command_text range results cf s
      = (r, mkXState w (connected s) (events s ++ new)%list)
      /\ LoopLog range cf (iters new) (verdicts new)
      /\ match r with
         | Ok results' =>
             Forall Entry results'
             /\ exists records,
                  results' = (results ++ records)%list
                  /\ Transcript (verdicts new) records
         | Exc _ => True
         end.
Proof.
  induction range as [ | i range IH]; intros results cf s Hcf Hresults.
  - exists (Ok results), (browser s), []. cbn [for_range]. unfold ret.
    rewrite <- state_eta.
    split; [ reflexivity | split; [ constructor | split; [ exact Hresults | ] ] ].
    exists []. rewrite app_nil_r. split; [ reflexivity | apply transcript_nil ].
  - cbn [for_range].
    destruct (round_run command_text i results cf s) as (r & w & new1 & E & Hi & Hround).
    remember (verdicts new1) as vs1 eqn:Hv. symmetry in Hv.
    assert (Hnext : forall (outcome : Dict) (cf' : Z) (v : Verdict),
               0 <= cf' < 3 -> Entry outcome -> verdict_fits v outcome ->
               vs1 = [v] ->
               (forall rounds vs, LoopLog range cf' rounds vs ->
                                  LoopLog (i :: range) cf (i :: rounds) (v :: vs)) ->
               exists r' w' new,
                 for_range command_text range (results ++ [outcome])%list cf'
                   (mkXState w (connected s) (events s ++ new1)%list)
                 = (r', mkXState w' (connected s) (events s ++ new)%list)
                 /\ LoopLog (i :: range) cf (iters new) (verdicts new)
                 /\ match r' with
                    | Ok results' =>
                        Forall Entry results'
                        /\ exists records,
                             results' = (results ++ records)%list
                             /\ Transcript (verdicts new) records
                    | Exc _ => True
                    end).
    { intros outcome cf' v Hcf' Hout Hfits Hvs Hstep.
      destruct (IH (results ++ [outcome])%list cf'
                  (mkXState w (connected s) (events s ++ new1)%list)
                  Hcf' (entry_append Hresults Hout))
        as (r' & w' & new2 & E2 & Hlog & Hr).
      exists r', w', (new1 ++ new2)%list. rewrite E2. cbn [browser connected events].
      rewrite <- app_assoc. split; [ reflexivity | ].
      assert (Hvs' : verdicts (new1 ++ new2) = v :: verdicts new2).
      { unfold verdicts in *. rewrite pick_app, Hv, Hvs. reflexivity. }
      assert (Hi' : iters (new1 ++ new2) = i :: iters new2).
      { unfold iters in *. rewrite pick_app, Hi. reflexivity. }
      rewrite Hvs', Hi'. split; [ apply Hstep, Hlog | ].
      destruct r' as [results' | e]; [ | exact I ].
      destruct Hr as (Hentries & records & -> & Hrecords).
      split; [ exact Hentries | ].
      exists (outcome :: records). rewrite <- app_assoc.
      split; [ reflexivity | apply transcript_cons; assumption ]. }
    destruct Hround as [ e | e v Hlate | | message | outcome Hout Hok | recovered Hout
                       | outcome Hout Hfailed Hlow | outcome Hout Hfailed Hhigh ].
    + erewrite bind_exc by exact E. exists (Exc e), w, new1.
      rewrite Hi, Hv. split; [ reflexivity | split; [ constructor | exact I ] ].
    + erewrite bind_exc by exact E. exists (Exc e), w, new1.
      rewrite Hi, Hv.
      split; [ reflexivity | split; [ apply log_crashed, Hlate | exact I ] ].
    + erewrite bind_ok by exact E. exists (Ok results), w, new1.
      rewrite Hi, Hv.
      split; [ reflexivity | split; [ constructor | split; [ exact Hresults | ] ] ].
      exists []. rewrite app_nil_r. split; [ reflexivity | apply transcript_nil ].
    + erewrite bind_ok by exact E. eexists; exists w, new1.
      rewrite Hi, Hv. split; [ reflexivity | split; [ constructor | split ] ].
      * apply entry_append; [ exact Hresults | apply entry_success ].
      * eexists. split; [ reflexivity | apply transcript_closed ].
    + erewrite bind_ok by exact E. cbv beta iota.
      apply Hnext with (v := StepSucceeded); [ lia | exact Hout | exact Hok | reflexivity | ].
      intros rounds vs Hlog. apply log_progress; [ discriminate | exact Hlog ].
    + erewrite bind_ok by exact E. cbv beta iota.
      apply Hnext with (v := StepRecovered); [ lia | exact Hout | exact Hout | reflexivity | ].
      intros rounds vs Hlog. apply log_progress; [ discriminate | exact Hlog ].
    + erewrite bind_ok by exact E. cbv beta iota.
      apply Hnext with (v := StepFailed); [ lia | exact Hout | exact Hfailed | reflexivity | ].
      intros rounds vs Hlog. apply log_failure; [ exact Hlow | exact Hlog ].
    + erewrite bind_ok by exact E. eexists; exists w, new1.
      rewrite Hi, Hv. split; [ reflexivity | split; [ | split ] ].
      * apply log_gave_up, Hhigh.
      * apply entry_append; assumption.
      * eexists. split; [ reflexivity | ].
        apply transcript_cons; [ exact Hfailed | apply transcript_nil ].
Qed.

(** No recorded outcome has the key that the final status looks for. *)
Lemma any_complete_entries (results : list Dict) :
  Forall Entry results -> any_complete results = false.
Proof.
  intro H. induction H as [ | r results [_ Hr] _ IH]; cbn; [ reflexivity | ].
  rewrite Hr. exact IH.
Qed.

Lemma all_success_run (results : list Dict) (s : XState W) :
  Forall Entry results ->
  all_success results s = (Ok (all_succeeded results), s).
Proof.
  intro H. induction H as [ | r results [[[Hst | Hst] _] _] _ IH]; cbn [all_success].
  - reflexivity.
  - erewrite bind_ok by (apply subscript_found; exact Hst).
    cbn. rewrite Hst. exact IH.
  - erewrite bind_ok by (apply subscript_found; exact Hst).
    cbn. rewrite Hst. reflexivity.
Qed.

Lemma run_steps_run (command_text : string) (s : XState W) :
  exists r w new,
    run_steps command_text s = (r, mkXState w (connected s) (events s ++ new)%list)
    /\ LoopLog (seq 0 max_steps) 0 (iters new) (verdicts new)
    /\ Report r
    /\ match r with
       | Ok result => Told result (verdicts new)
       | Exc _ => True
       end.
Proof.
  unfold run_steps.
  destruct (for_range_run command_text (seq 0 max_steps) (results := []) (cf := 0) s
              ltac:(lia) (Forall_nil _))
    as (r & w & new & E & Hlog & Hr).
  destruct r as [results | e].
  - destruct Hr as (Hr & records & -> & Hrecords).
    erewrite bind_ok by exact E.
    rewrite (any_complete_entries Hr).
    erewrite bind_ok by (apply all_success_run; exact Hr).
    eexists; exists w, new. split; [ reflexivity | split; [ exact Hlog | ] ].
    cbn. auto.
  - erewrite bind_exc by exact E.
    exists (Exc e), w, new. split; [ reflexivity | split; [ exact Hlog | split; exact I ] ].
Qed.

(** The whole command: either the connection is refused and nothing is
    logged, or the loop runs. *)
Lemma command_run (command_text : string) (s : XState W) :
  exists result s' new,
    execute_command_iteratively command_text s = (Ok result, s')
    /\ events s' = (events s ++ new)%list
    /\ ((exists connect_result, result = ConnectFailed connect_result /\ new = [])
        \/ (LoopLog (seq 0 max_steps) 0 (iters new) (verdicts new)
            /\ match result with
               | ConnectFailed _ => False
               | Crashed _ => True
               | finished => Report (Ok finished)
               end
            /\ Told result (verdicts new))).
Proof.
  assert (Hsteps : forall s1 : XState W,
             exists result s' new,
               try_catch (run_steps command_text)
                 (fun e => ret (Crashed ("Command execution failed: " ++ exn_str e))) s1
               = (Ok result, s')
               /\ events s' = (events s1 ++ new)%list
               /\ LoopLog (seq 0 max_steps) 0 (iters new) (verdicts new)
               /\ match result with
                  | ConnectFailed _ => False
                  | Crashed _ => True
                  | finished => Report (Ok finished)
                  end
               /\ Told result (verdicts new)).
  { intro s1.
    destruct (run_steps_run command_text s1) as (r & w & new & E & Hlog & Hr & Htold).
    destruct r as [result | e].
    - exists result; eexists; exists new. erewrite try_ok by exact E.
      split; [ reflexivity | split; [ reflexivity | split; [ exact Hlog | ] ] ].
      split; [ | exact Htold ].
      destruct result; cbn in Hr |- *; auto.
    - eexists; eexists; exists new. erewrite try_exc by exact E.
      split; [ reflexivity | split; [ reflexivity | split; [ exact Hlog | ] ] ].
      split; exact I. }
  unfold execute_command_iteratively.
  destruct (connected s) eqn:Hconnected.
  - destruct (Hsteps s) as (result & s' & new & E & Hev & Hlog & Hres & Htold).
    exists result, s', new. split; [ | split; [ exact Hev | right; auto ] ].
    unfold try_catch in *. unfold bind at 1. unfold get_connected.
    rewrite Hconnected. cbn [negb]. unfold bind at 1. unfold ret at 1. exact E.
  - destruct (connect_controller_returns 30 (browser s))
      as (connect_result & w1 & Ec & [[[Hst | Hst] _] _]).
    + set (s1 := mkXState w1 true (events s)).
      destruct (Hsteps s1) as (result & s' & new & E & Hev & Hlog & Hres & Htold).
      exists result, s', new. split; [ | split; [ exact Hev | right; auto ] ].
      unfold try_catch in *. unfold bind at 1. unfold get_connected at 1.
      rewrite Hconnected. cbn [negb].
      erewrite bind_ok.
      2:{ erewrite bind_ok.
          2:{ unfold connect. unfold bind at 1. unfold get_connected.
              rewrite Hconnected. cbn [negb].
              erewrite bind_ok by (apply call_run; exact Ec).
              erewrite bind_ok by (apply subscript_found; exact Hst).
              reflexivity. }
          erewrite bind_ok by (apply subscript_found; exact Hst). reflexivity. }
      exact E.
    + exists (ConnectFailed connect_result); eexists; exists [].
      split; [ | split; [ | left; eauto ] ].
      * apply try_ok. unfold bind at 1. unfold get_connected at 1.
        rewrite Hconnected. cbn [negb].
        erewrite bind_ok.
        2:{ erewrite bind_ok.
            2:{ unfold connect. unfold bind at 1. unfold get_connected.
                rewrite Hconnected. cbn [negb].
                erewrite bind_ok by (apply call_run; exact Ec).
                erewrite bind_ok by (apply subscript_found; exact Hst).
                reflexivity. }
            erewrite bind_ok by (apply subscript_found; exact Hst). reflexivity. }
        reflexivity.
      * cbn. rewrite app_nil_r. reflexivity.
Qed.


(** The status of a finished run is decided by the statuses alone: the
    test for a recorded [complete] action never holds, because no recorded
    outcome has the key [action]. *)
Lemma final_status_is_all_succeeded (command_text : string) (s s' : XState W)
  (status : string) (steps_completed total_steps : nat) (results : list Dict) :
  execute_command_iteratively command_text s
  = (Ok (Finished status steps_completed total_steps results), s') ->
  any_complete results = false
  /\ steps_completed = List.length results
  /\ status = if all_succeeded results then "success" else "error".
Proof.
  intro E.
  destruct (command_run command_text s)
    as (result & s1 & new & E1 & _ & [(r & -> & _) | (_ & Hres & _)]);
    rewrite E in E1; inversion E1; subst.
  destruct Hres as (Hrec & Hk & _ & Hstatus).
  split; [ apply any_complete_entries, Hrec | split; assumption ].
Qed.

End Loop.

(* ================================================================== *)
(** * Runs on the scripted browser *)
(* ================================================================== *)

Module Runs.

Import Sim.

(** Scenario 2 of the specification: the OCR reads the text with
    confidence 75 in the box (100, 200, 50, 20), the click goes to
    (125, 210). *)
Example ocr_click_at_the_centre :
  _execute_step cart_step (start (cart_page true))
  = (Ok (success "Clicked at coordinates (125, 210)"),
     mkXState (cart_page true) true
       [EvExec cart_step; EvTier Optical; EvOcr (Some (125, 210))]).
Proof. vm_compute. reflexivity. Qed.

(** Three failures in a row stop the loop after three rounds. *)
Example three_failures_stop_the_loop :
  let run := execute_command_iteratively "buy it"
               (start (insisting (click_step "#missing" "Buy"))) in
  iters (events (snd run)) = [0; 1; 2]%nat
  /\ verdicts (events (snd run)) = [StepFailed; StepFailed; StepFailed].
Proof. vm_compute. split; reflexivity. Qed.

(** A model that never says [complete] uses the fifteen rounds. *)
Example the_budget_is_fifteen_rounds :
  let run := execute_command_iteratively "wait"
               (start (insisting (wait_step (PInt 0)))) in
  iters (events (snd run)) = seq 0 15
  /\ exists results, fst run = Ok (Finished "success" 15 15 results).
Proof. vm_compute. split; [ reflexivity | eexists; reflexivity ]. Qed.

(** A missing [url] raises [KeyError] in the body of the step; the step
    returns an error outcome. *)
Example missing_url_is_an_error_outcome :
  fst (_execute_step (mkStep "navigate" no_params "N/A" None) (start blank))
  = Ok (error "Error executing navigate: 'url'").
Proof. vm_compute. reflexivity. Qed.

(** C1 on a run where the first step fails for good, the second succeeds
    and the language model then answers [complete] in round 3: the loop
    stops there with three recorded outcomes, the last one the success of
    [complete], and the status of the run is [error]. *)
Theorem complete_after_a_failure_reports_error :
  fst (execute_command_iteratively "open the new page" (start failure_then_complete))
  = Ok (Finished "error" 3 3
          [ error "Element not found: Buy";
            success "Waited 1 seconds";
            success "Done, redirected to example.com/new" ]).
Proof. vm_compute. reflexivity. Qed.

(** C2 at the cart page. *)
Lemma click_without_hint_witness :
  action cart_step = "click"
  /\ dom cart_step = "N/A"
  /\ explicit_coords (coords cart_step) = None
  /\ PyStr.strip (selector_or_empty (params cart_step)) <> EmptyString
  /\ _execute_step cart_step (start (cart_page false))
     = (Ok (error "No element found at coordinates (125, 210)"),
        mkXState (cart_page false) true
          [EvExec cart_step; EvTier Optical; EvOcr (Some (125, 210))]).
Proof.
  assert (Htext : PyStr.strip (selector_or_empty (params cart_step)) <> EmptyString)
    by (vm_compute; discriminate).
  repeat (split; [ first [ reflexivity | exact Htext ] | ]).
  destruct (click_without_hint_tries_ocr_then_text cart_step (start (cart_page false))
              eq_refl eq_refl eq_refl Htext)
    as (found & w1 & outcome & w2 & Eocr & Hrun).
  vm_compute in Eocr. inversion Eocr; subst found w1.
  destruct Hrun as [Eclick Hrun].
  vm_compute in Eclick. inversion Eclick; subst outcome w2.
  exact Hrun.
Defined.

(** C2 fails when the descriptive text is white space only: the text is
    not empty, yet no tier is entered. *)
Lemma blank_text_enters_no_tier :
  action blank_text_step = "click"
  /\ dom blank_text_step = "N/A"
  /\ explicit_coords (coords blank_text_step) = None
  /\ selector_or_empty (params blank_text_step) <> EmptyString
  /\ _execute_step blank_text_step (start blank)
     = (Ok (error "No valid selector provided for click action."),
        mkXState blank true [EvExec blank_text_step]).
Proof.
  repeat (split; [ first [ reflexivity | vm_compute; discriminate ] | ]).
  vm_compute. reflexivity.
Qed.

(** A text of one no-break space is white space to [str.strip] as well:
    no tier is entered. *)
Example no_break_space_enters_no_tier :
  _execute_step no_break_text_step (start blank)
  = (Ok (error "No valid selector provided for click action."),
     mkXState blank true [EvExec no_break_text_step]).
Proof. vm_compute. reflexivity. Qed.

(** C3 on the screen with five rows, with a target in another case: the
    fourth row is the first that qualifies, the fifth qualifies as well,
    and the answer is the centre of the fourth. *)
Lemma ocr_answers_witness :
  ocr_image_to_data menu_page = (Ok menu_rows, menu_page)
  /\ get_target_coordinates_ocr "CART" 60 menu_page
     = (Ok (Some (125, 210)), menu_page)
  /\ menu_rows = ([faint_row; home_row; unread_row] ++ cart_row :: [total_row])%list
  /\ Forall (fun r => ~ qualifies "CART" 60 r) [faint_row; home_row; unread_row]
  /\ qualifies "CART" 60 cart_row
  /\ qualifies "CART" 60 total_row.
Proof.
  assert (Hdata : ocr_image_to_data menu_page = (Ok menu_rows, menu_page))
    by reflexivity.
  assert (Htotal : qualifies "CART" 60 total_row).
  { split; [ vm_compute; reflexivity | ].
    exists EmptyString, " total". reflexivity. }
  destruct (ocr_answers_with_first_match "CART" 60 menu_page Hdata)
    as (found & E & Hfound).
  pose proof E as E'. vm_compute in E'. inversion E'; subst found. clear E'.
  destruct Hfound as (before & row & after & Hrows & Hbefore & Hrow & Hxy).
  assert (Hsplit : before = [faint_row; home_row; unread_row]
                   /\ row = cart_row /\ after = [total_row]).
  { apply row_matches_spec in Hrow.
    destruct before as [ | r1 before].
    { inversion Hrows; subst row. vm_compute in Hrow. discriminate Hrow. }
    destruct before as [ | r2 before].
    { inversion Hrows; subst row. vm_compute in Hrow. discriminate Hrow. }
    destruct before as [ | r3 before].
    { inversion Hrows; subst row. vm_compute in Hrow. discriminate Hrow. }
    destruct before as [ | r4 before].
    { inversion Hrows; subst. auto. }
    exfalso. inversion Hrows; subst r1 r2 r3 r4.
    inversion Hbefore as [ | ? ? _ H1]; subst.
    inversion H1 as [ | ? ? _ H2]; subst.
    inversion H2 as [ | ? ? _ H3]; subst.
    inversion H3 as [ | ? ? Hcart _]; subst.
    apply Hcart. apply row_matches_spec. vm_compute. reflexivity. }
  destruct Hsplit as (-> & -> & ->).
  split; [ exact Hdata | split; [ exact E | split; [ reflexivity | ] ] ].
  split; [ exact Hbefore | split; [ exact Hrow | exact Htotal ] ].
Defined.

(** C3 fails on the text as the OCR gave it: the row is confident, its
    text in lower case contains the target in lower case, and the answer
    is absent, because the text is stripped before the test. *)
Lemma padded_text_is_missed :
  qualifies_unstripped " ok" 60 padded_row
  /\ ocr_image_to_data padded_page = (Ok [padded_row], padded_page)
  /\ get_target_coordinates_ocr " ok" 60 padded_page = (Ok None, padded_page).
Proof.
  split; [ | split; reflexivity ].
  split; [ vm_compute; reflexivity | ].
  exists EmptyString, EmptyString. reflexivity.
Qed.

(** C4 at the page with five visible nodes, for the bound three: the
    input and the button come first, then the first link; the paragraph
    and the second link are cut. *)
Lemma dom_context_witness :
  1 <= 3
  /\ exists snapshot,
       get_dom_context 3 mixed_page = (Ok snapshot, mixed_page)
       /\ map tag snapshot = ["input"; "button"; "a"]
       /\ map text snapshot = ["q"; "Buy"; "Home"]
       /\ Z.of_nat (List.length snapshot) <= 3
       /\ StronglySorted bucket_le snapshot.
Proof.
  split; [ lia | ].
  destruct (dom_context_is_bounded_and_ordered (max_elements := 3) mixed_page
              ltac:(lia))
    as (snapshot & w' & E & Hlen & Hsorted & _).
  exists snapshot.
  pose proof E as E'. vm_compute in E'. inversion E'; subst snapshot w'. clear E'.
  split; [ exact E | ].
  split; [ reflexivity | split; [ reflexivity | split; assumption ] ].
Defined.

(** C4 fails for the bound zero: the page with one link gives a snapshot
    of one element. *)
Lemma zero_bound_is_ignored :
  exists snapshot,
    get_dom_context 0 link_page = (Ok snapshot, link_page)
    /\ ~ Z.of_nat (List.length snapshot) <= 0.
Proof.
  eexists. split; [ vm_compute; reflexivity | ].
  cbn. lia.
Qed.




(** C9 for the hint in lower case. *)
Lemma hint_casing_witness :
  PyStr.lower "n/a" = PyStr.lower "N/A"
  /\ fst (_execute_step (with_hint "n/a" cart_step) (start (cart_page true)))
     = fst (_execute_step (with_hint "N/A" cart_step) (start (cart_page true)))
  /\ tiers (events (snd (_execute_step (with_hint "n/a" cart_step)
                            (start (cart_page true)))))
     = [Optical].
Proof.
  split; [ reflexivity | ].
  destruct (hint_casing_is_ignored cart_step "n/a" (start (cart_page true)) eq_refl)
    as (result & w & new & E1 & E2 & _).
  split; [ rewrite E1, E2; reflexivity | ].
  clear E1 E2. vm_compute. reflexivity.
Defined.

(** C10 at the cart page when nothing is under the clicked point: the
    error of the click at the coordinates is the outcome. *)
Lemma ocr_click_witness :
  action cart_step = "click"
  /\ _execute_step cart_step (start (cart_page false))
     = (Ok (error "No element found at coordinates (125, 210)"),
        mkXState (cart_page false) true
          [EvExec cart_step; EvTier Optical; EvOcr (Some (125, 210))])
  /\ In (EvOcr (Some (125, 210)))
       [EvExec cart_step; EvTier Optical; EvOcr (Some (125, 210))]
  /\ ~ In (EvTier Descriptive)
         [EvExec cart_step; EvTier Optical; EvOcr (Some (125, 210))].
Proof.
  assert (Hrun : _execute_step cart_step (start (cart_page false))
                 = (Ok (error "No element found at coordinates (125, 210)"),
                    mkXState (cart_page false) true
                      [EvExec cart_step; EvTier Optical; EvOcr (Some (125, 210))]))
    by (vm_compute; reflexivity).
  assert (Hin : In (EvOcr (Some (125, 210)))
                  [EvExec cart_step; EvTier Optical; EvOcr (Some (125, 210))])
    by (right; right; left; reflexivity).
  split; [ reflexivity | split; [ exact Hrun | split; [ exact Hin | ] ] ].
  exact (proj1 (proj2 (ocr_click_is_final cart_step (start (cart_page false))
                         [EvExec cart_step; EvTier Optical; EvOcr (Some (125, 210))]
                         125 210 eq_refl Hrun eq_refl Hin))).
Defined.

End Runs.

(* ================================================================== *)
(** * Further properties of the controller *)
(* ================================================================== *)

Lemma prefix_app (p s : string) : String.prefix p (p ++ s) = true.
Proof. apply prefix_spec. exists s. reflexivity. Qed.

Lemma with_scheme_has_scheme (url : string) :
  PyStr.startswith (with_scheme url) "http://"
  || PyStr.startswith (with_scheme url) "https://" = true.
Proof.
  unfold with_scheme.
  destruct (PyStr.startswith url "http://" || PyStr.startswith url "https://") eqn:E.
  - exact E.
  - unfold PyStr.startswith at 2. rewrite prefix_app. apply orb_true_r.
Qed.

Lemma with_scheme_idempotent (url : string) :
  with_scheme (with_scheme url) = with_scheme url.
Proof.
  unfold with_scheme at 1. rewrite with_scheme_has_scheme. reflexivity.
Qed.

Section MoreControllerFacts.

Context {W Elem : Type} {driver : BrowserDriver W Elem} {scripts : PageScripts W}
  {builtins : Builtins}.

Lemma submit_search_returns (selector : string) :
  Returns Entry (submit_search selector).
Proof. apply returns_try; [ repeat post_step; outcome | handled ]. Qed.

Lemma click_result_post (index : Z) (selectors : list string) :
  Post early_outcome (click_result index selectors).
Proof.
  induction selectors as [ | selector selectors IH]; cbn [click_result].
  - apply post_ret. intros d E. discriminate E.
  - apply post_bind_with with (Q := early_outcome).
    + repeat post_step; intros d E;
        first [ discriminate E | inversion E; outcome ].
    + intros [result | ] H; [ apply post_ret; exact H | exact IH ].
Qed.

Lemma select_search_result_returns (index : Z) :
  Returns Entry (select_search_result index).
Proof.
  apply returns_try; [ | handled ].
  apply post_bind; intros _. apply post_bind; intros current_url.
  apply post_bind_with with (Q := early_outcome); [ apply click_result_post | ].
  intros [result | ] H; apply post_ret; [ apply H; reflexivity | outcome ].
Qed.

(** X1.  No method of the controller that reports with a dictionary lets an
    exception out: whatever the browser does, [connect], [navigate],
    [click], [input_text], [extract], [search], [select_search_result],
    [submit_search] and [click_by_coordinates] return, and what they return
    has a status that is success or error and a message. *)
Theorem controller_always_answers :
  (forall timeout, Returns Outcome (connect_controller timeout))
  /\ (forall url, Returns Outcome (navigate url))
  /\ (forall selector, Returns Outcome (click selector))
  /\ (forall selector text, Returns Outcome (input_text selector text))
  /\ (forall selector, Returns Outcome (extract selector))
  /\ (forall query, Returns Outcome (search query))
  /\ (forall index, Returns Outcome (select_search_result index))
  /\ (forall selector, Returns Outcome (submit_search selector))
  /\ (forall x y, Returns Outcome (click_by_coordinates x y)).
Proof.
  assert (Hweak : forall (m : Comp W Dict), Returns Entry m -> Returns Outcome m).
  { intro m. apply returns_weaken. intros d [H _]. exact H. }
  repeat split; intros; apply Hweak;
    auto using submit_search_returns, select_search_result_returns with controller.
Qed.

(** X2.  When the lookup of the selector fails, [click], [input_text] and
    [extract] report "Element not found" with the selector, and leave the
    browser as the lookup left it: nothing is scrolled, clicked, cleared or
    typed. *)
Theorem missing_element_is_reported (selector text : string) (w w' : W) (e : Exn) :
  drv_find_element selector w = (Exc e, w') ->
  click selector w = (Ok (error ("Element not found: " ++ selector)), w')
  /\ input_text selector text w = (Ok (error ("Element not found: " ++ selector)), w')
  /\ extract selector w = (Ok (error ("Element not found: " ++ selector)), w').
Proof.
  intro E.
  assert (Hfind : find_element selector w = (Ok None, w')).
  { unfold find_element. erewrite try_exc by (erewrite bind_exc by exact E; reflexivity).
    reflexivity. }
  repeat split; apply try_ok; erewrite bind_ok by exact Hfind; reflexivity.
Qed.

Lemma pick_search_input_spec (elements : list Elem) :
  forall (w w' : W) (element : Elem),
    pick_search_input elements w = (Ok (Some element), w') ->
    exists before after wc element_type,
      elements = (before ++ element :: after)%list
      /\ pick_search_input before w = (Ok None, wc)
      /\ drv_get_attribute element "type" wc = (Ok element_type, w')
      /\ element_type <> Some "submit"
      /\ element_type <> Some "button".
Proof.
  induction elements as [ | first elements IH]; intros w w' element E;
    cbn [pick_search_input] in E.
  - discriminate E.
  - unfold bind in E.
    destruct (drv_get_attribute first "type" w) as [[element_type | e] w1] eqn:Etype;
      [ | discriminate E ].
    destruct (negb (is_str element_type "submit") && negb (is_str element_type "button"))
      eqn:Htype.
    + inversion E; subst first w1.
      exists [], elements, w, element_type.
      apply andb_true_iff in Htype. destruct Htype as [Hs Hb].
      apply negb_true_iff in Hs, Hb.
      split; [ reflexivity | split; [ reflexivity | split; [ exact Etype | ] ] ].
      split; intros ->; discriminate.
    + destruct (IH _ _ _ E) as (before & after & wc & ty & -> & Hbefore & Hty & Hs & Hb).
      exists (first :: before), after, wc, ty.
      split; [ reflexivity | split; [ | auto ] ].
      cbn [pick_search_input]. unfold bind. rewrite Etype, Htype. exact Hbefore.
Qed.

Lemma find_search_input_spec (selectors : list string) :
  forall (w w' : W) (element : Elem) (used_selector : string),
    find_search_input selectors w = (Ok (Some (element, used_selector)), w') ->
    Settled selectors w element used_selector w'.
Proof.
  induction selectors as [ | selector selectors IH];
    intros w w' element used_selector E; cbn [find_search_input] in E.
  - discriminate E.
  - unfold bind at 1 in E.
    destruct (try_catch _ _ w) as [[[found | ] | e] w1] eqn:Etry; [ | | discriminate E ].
    + inversion E; subst found selector w1.
      unfold try_catch, bind in Etry.
      destruct (drv_find_elements used_selector w) as [[elements | e] w0] eqn:Efind;
        [ | discriminate Etry ].
      destruct (pick_search_input elements w0) as [[picked | e] w2] eqn:Epick;
        [ | discriminate Etry ].
      inversion Etry; subst picked w2.
      destruct (pick_search_input_spec _ _ Epick)
        as (before & after & wc & ty & Hel & Hbefore & Hty & Hs & Hb).
      exists [], selectors, w, elements, w0, before, after, wc, ty.
      repeat (split; [ first [ reflexivity | assumption ] | ]). exact Hb.
    + destruct (IH _ _ _ _ E)
        as (earlier & later & wa & elements & wb & before & after & wc & ty
            & -> & Hearlier & Hrest).
      exists (selector :: earlier), later, wa, elements, wb, before, after, wc, ty.
      split; [ reflexivity | split; [ | exact Hrest ] ].
      cbn [find_search_input]. unfold bind at 1. rewrite Etry. exact Hearlier.
Qed.

Lemma prepare_input_returns (search_input : Elem) (w : W) :
  exists w', prepare_input search_input w = (Ok tt, w').
Proof.
  unfold prepare_input, bind, try_catch, ret.
  destruct (script_focus search_input w) as [[[] | e] w1].
  - destruct (drv_clear search_input w1) as [[[] | e] w2]; [ eauto | ].
    destruct (script_clear_value search_input w2) as [[[] | e'] w3]; eauto.
  - destruct (script_scroll_top_into_view search_input w1) as [[[] | e'] w2].
    + destruct (drv_clear search_input w2) as [[[] | e2] w3]; [ eauto | ].
      destruct (script_clear_value search_input w3) as [[[] | e3] w4]; eauto.
    + destruct (drv_clear search_input w2) as [[[] | e2] w3]; [ eauto | ].
      destruct (script_clear_value search_input w3) as [[[] | e3] w4]; eauto.
Qed.

(** The query is entered with the keys, or with the script when the keys
    fail; otherwise the answer is an error. *)
Lemma enter_query_run (search_input : Elem) (query : string) (w : W) :
  exists entered w',
    enter_query search_input query w = (Ok entered, w')
    /\ match entered with
       | None =>
           drv_send_keys search_input query w = (Ok tt, w')
           \/ exists e w1,
                drv_send_keys search_input query w = (Exc e, w1)
                /\ script_set_value search_input query w1 = (Ok tt, w')
       | Some failure => failed failure
       end.
Proof.
  unfold enter_query, bind, try_catch, ret.
  destruct (drv_send_keys search_input query w) as [[[] | e] w1] eqn:Ekeys.
  - exists None, w1. auto.
  - destruct (script_set_value search_input query w1) as [[[] | e'] w2] eqn:Eset.
    + exists None, w2. split; [ reflexivity | right; exists e, w1; auto ].
    + eexists; eexists. split; reflexivity.
Qed.

Lemma submit_query_returns (search_input : Elem) (w : W) :
  exists submitted w',
    submit_query search_input w = (Ok submitted, w')
    /\ match submitted with
       | None => True
       | Some failure => failed failure
       end.
Proof.
  unfold submit_query, bind, try_catch, ret.
  destruct (drv_send_keys search_input Keys_RETURN w) as [[[] | e] w1];
    [ exists None, w1; auto | ].
  destruct (click_search_button button_selectors w1) as [[[] | e'] w2];
    [ exists None, w2; auto | ].
  destruct (script_form_submit search_input w2) as [[[] | e2] w3];
    [ exists None, w3; auto | ].
  eexists; eexists. split; reflexivity.
Qed.

(** X3.  When [search] succeeds, the query went into the search input the
    selectors settled on: an element that one of the thirteen selectors
    returned, the first of them whose [type] attribute was read as
    neither "submit" nor "button".  The query was typed into that element
    with the keys, or set by the script when the keys failed, and the
    outcome names the selector that was used. *)
Theorem search_input_is_no_button (query : string) (w w' : W) (outcome : Dict) :
  search query w = (Ok outcome, w') ->
  succeeded outcome ->
  exists current_url w0 element used_selector w1 w2 w3,
    drv_get_url w = (Ok current_url, w0)
    /\ Settled search_selectors w0 element used_selector w1
    /\ prepare_input element w1 = (Ok tt, w2)
    /\ (drv_send_keys element query w2 = (Ok tt, w3)
        \/ exists e wk,
             drv_send_keys element query w2 = (Exc e, wk)
             /\ script_set_value element query wk = (Ok tt, w3))
    /\ outcome = [ ("status", "success");
                   ("message", "Performed search for: " ++ query);
                   ("details", "Used selector: " ++ used_selector) ].
Proof.
  intros E Hsucc. unfold search in E.
  unfold try_catch at 1 in E. unfold bind at 1 in E.
  destruct (drv_get_url w) as [[current_url | e] w0] eqn:Eurl.
  2:{ inversion E; subst outcome. discriminate Hsucc. }
  unfold bind at 1 in E.
  destruct (find_search_input search_selectors w0)
    as [[[[element used_selector] | ] | e] w1] eqn:Efind.
  2:{ inversion E; subst outcome. discriminate Hsucc. }
  2:{ inversion E; subst outcome. discriminate Hsucc. }
  destruct (prepare_input_returns element w1) as (w2 & Eprepare).
  destruct (enter_query_run element query w2) as (entered & w3 & Eenter & Hentered).
  destruct (submit_query_returns element w3) as (submitted & w4 & Esubmit & Hsubmitted).
  unfold bind at 1 in E. rewrite Eprepare in E.
  unfold bind at 1 in E. rewrite Eenter in E.
  destruct entered as [failure | ].
  { inversion E; subst outcome. unfold succeeded, failed in *. congruence. }
  unfold bind at 1 in E. rewrite Esubmit in E.
  destruct submitted as [failure | ].
  { inversion E; subst outcome. unfold succeeded, failed in *. congruence. }
  unfold bind at 1 in E.
  destruct (settle 3000 w4) as [[[] | e] w5].
  2:{ inversion E; subst outcome. discriminate Hsucc. }
  inversion E; subst outcome w5.
  exists current_url, w0, element, used_selector, w1, w2, w3.
  split; [ reflexivity | split; [ apply find_search_input_spec, Efind | ] ].
  split; [ exact Eprepare | split; [ exact Hentered | reflexivity ] ].
Qed.



(** X5.  [navigate] puts "https://" in front of a URL that starts with
    neither "http://" nor "https://" and leaves the others alone; doing it
    twice changes nothing.  The URL in its report is the one handed to the
    browser: the outcome is the success "Navigated to" it, the error
    "Timeout while navigating to" it, or the error "Navigation failed". *)
Theorem navigate_gives_the_url_a_scheme (url : string) (w : W) :
  navigate url w = navigate (with_scheme url) w
  /\ PyStr.startswith (with_scheme url) "http://"
     || PyStr.startswith (with_scheme url) "https://" = true
  /\ exists outcome w',
       navigate url w = (Ok outcome, w')
       /\ (outcome = success ("Navigated to " ++ with_scheme url)
           \/ outcome = error ("Timeout while navigating to " ++ with_scheme url)
           \/ exists reason, outcome = error ("Navigation failed: " ++ reason)).
Proof.
  assert (Hnav : forall u,
             navigate u
             = try_catch
                 (drv_navigate (with_scheme u) ;;
                  drv_wait_complete ;;
                  ret (success ("Navigated to " ++ with_scheme u)))
                 (fun e =>
                    match exn_class e with
                    | TimeoutException =>
                        ret (error ("Timeout while navigating to " ++ with_scheme u))
                    | _ => ret (error ("Navigation failed: " ++ exn_str e))
                    end)).
  { intro u. unfold navigate, with_scheme.
    destruct (PyStr.startswith u "http://" || PyStr.startswith u "https://"); reflexivity. }
  split; [ | split; [ apply with_scheme_has_scheme | ] ].
  - rewrite (Hnav url), (Hnav (with_scheme url)), with_scheme_idempotent. reflexivity.
  - rewrite Hnav. unfold try_catch, bind.
    destruct (drv_navigate (with_scheme url) w) as [[[] | e] w1].
    + destruct (drv_wait_complete w1) as [[[] | e] w2].
      * eexists; eexists. split; [ reflexivity | left; reflexivity ].
      * destruct (exn_class e); eexists; eexists;
          (split; [ reflexivity | ]); eauto.
    + destruct (exn_class e); eexists; eexists;
        (split; [ reflexivity | ]); eauto.
Qed.

End MoreControllerFacts.

(* ================================================================== *)
(** * Further properties of the snapshot and of the OCR *)
(* ================================================================== *)

Section StableSorting.

Variable A : Type.
Variable key : A -> Z.

(** The element goes in front of the first element whose key is not below
    its own: the elements it passes have another key. *)
Lemma insert_by_filter (x : A) (l : list A) (k : Z) :
  filter (fun a => key a =? k) (Script.insert_by (by_key key) x l)
  = if key x =? k then x :: filter (fun a => key a =? k) l
    else filter (fun a => key a =? k) l.
Proof.
  induction l as [ | y l IH]; cbn [Script.insert_by filter].
  - reflexivity.
  - destruct (Z.leb_spec (by_key key x y) 0) as [Hxy | Hxy]; unfold by_key in Hxy;
      cbn [filter].
    + reflexivity.
    + rewrite IH.
      destruct (Z.eqb_spec (key x) k), (Z.eqb_spec (key y) k); try reflexivity. lia.
Qed.

Lemma sort_by_filter (l : list A) (k : Z) :
  filter (fun a => key a =? k) (Script.sort_by (by_key key) l)
  = filter (fun a => key a =? k) l.
Proof.
  induction l as [ | x l IH]; cbn [Script.sort_by filter]; [ reflexivity | ].
  rewrite insert_by_filter, IH. reflexivity.
Qed.

Lemma sort_by_elements (P : A -> Prop) (l : list A) :
  Forall P l -> Forall P (Script.sort_by (by_key key) l).
Proof.
  intro H. induction H as [ | x l Hx Hl IH]; cbn [Script.sort_by]; [ constructor | ].
  apply insert_by_elements; assumption.
Qed.

Lemma filter_firstn (f : A -> bool) (n : nat) (l : list A) :
  exists m, filter f (firstn n l) = firstn m (filter f l).
Proof.
  revert n. induction l as [ | x l IH]; intro n.
  - exists O. rewrite firstn_nil. reflexivity.
  - destruct n as [ | n]; [ exists O; reflexivity | ].
    destruct (IH n) as [m Hm]. cbn [firstn filter].
    destruct (f x); [ exists (S m); cbn; rewrite Hm; reflexivity | exists m; exact Hm ].
Qed.

End StableSorting.

Lemma slice0_is_firstn {A : Type} (l : list A) (e : Z) :
  exists n, Script.slice0 l e = firstn n l.
Proof. unfold Script.slice0. destruct (e <? 0); eexists; reflexivity. Qed.






Section SnapshotShape.

Context {builtins : Builtins}.

Lemma filter_simplified (k : Z) (l : list DomNode) :
  filter (fun e => bucket e =? k) (map Script.simplify l)
  = map Script.simplify (filter (fun el => Script.priority el =? k) l).
Proof.
  induction l as [ | el l IH]; [ reflexivity | ].
  cbn [map filter]. change (bucket (Script.simplify el)) with (Script.priority el).
  destruct (Script.priority el =? k); cbn [map]; rewrite IH; reflexivity.
Qed.

(** X6.  The sort of the script is stable: inside a priority bucket the
    snapshot lists the visible elements in the order of the document.  The
    elements of bucket [k] in the snapshot are the first ones, in document
    order, of the visible nodes of that bucket. *)
Theorem snapshot_keeps_document_order (allElements : list DomNode) (maxElements k : Z) :
  exists n,
    filter (fun e => bucket e =? k) (Script.getInteractiveElements allElements maxElements)
    = firstn n (map Script.simplify
                  (filter (fun el => Script.priority el =? k)
                     (filter Script.visible allElements))).
Proof.
  unfold Script.getInteractiveElements.
  destruct (slice0_is_firstn
              (Script.sort_by (fun a b => Script.priority a - Script.priority b)
                 (filter Script.visible allElements)) maxElements) as [n ->].
  rewrite filter_simplified.
  destruct (filter_firstn (fun el => Script.priority el =? k) n
              (Script.sort_by (by_key Script.priority) (filter Script.visible allElements)))
    as [m Hm].
  exists m. unfold by_key in Hm. rewrite Hm.
  rewrite <- (sort_by_filter Script.priority (filter Script.visible allElements) k).
  unfold by_key. rewrite firstn_map. reflexivity.
Qed.

(** X7.  Every element of the snapshot is the simplified form of a node
    that [querySelectorAll] returned and that passed the visibility
    filter: the sort and the cut add nothing. *)
Theorem snapshot_elements_are_visible_nodes (allElements : list DomNode)
  (maxElements : Z) :
  Forall (fun e => exists el,
              In el allElements /\ Script.visible el = true /\ e = Script.simplify el)
    (Script.getInteractiveElements allElements maxElements).
Proof.
  unfold Script.getInteractiveElements.
  destruct (slice0_is_firstn
              (Script.sort_by (fun a b => Script.priority a - Script.priority b)
                 (filter Script.visible allElements)) maxElements) as [n ->].
  apply Forall_forall. intros e He. apply in_map_iff in He.
  destruct He as (el & <- & Hel). exists el.
  assert (H : Forall (fun el => In el allElements /\ Script.visible el = true)
                (firstn n (Script.sort_by (by_key Script.priority)
                             (filter Script.visible allElements)))).
  { apply firstn_elements, sort_by_elements.
    apply Forall_forall. intros x Hx. apply filter_In in Hx. exact Hx. }
  rewrite Forall_forall in H. destruct (H el Hel) as [Hin Hvis]. auto.
Qed.



End SnapshotShape.

Section SnapshotSize.

Context {W Elem : Type} {driver : BrowserDriver W Elem} {builtins : Builtins}.

(** X9.  The snapshot is cut by the bound and by nothing else: for a bound
    that is not negative it has as many elements as the page has visible
    nodes, up to the bound, where the bound zero counts as 200. *)
Theorem dom_context_has_every_visible_node_up_to_the_bound (max_elements : Z)
  (w w' : W) (allElements : list DomNode) :
  0 <= max_elements ->
  script_query_interactive w = (Ok allElements, w') ->
  exists snapshot,
    get_dom_context max_elements w = (Ok snapshot, w')
    /\ Z.of_nat (List.length snapshot)
       = Z.min (Script.or_200 max_elements)
           (Z.of_nat (List.length (filter Script.visible allElements))).
Proof.
  intros Hmax E. eexists. split.
  - unfold get_dom_context. apply try_ok. erewrite bind_ok by exact E. reflexivity.
  - assert (Hor : 0 <= Script.or_200 max_elements).
    { unfold Script.or_200. destruct (max_elements =? 0); lia. }
    unfold Script.getInteractiveElements, Script.slice0.
    rewrite length_map. destruct (Z.ltb_spec (Script.or_200 max_elements) 0); [ lia | ].
    rewrite length_firstn, (sort_by_length (@Script.priority builtins)). lia.
Qed.

End SnapshotSize.

Section OcrRows.

Context {W Elem : Type} {driver : BrowserDriver W Elem} {builtins : Builtins}.

Lemma scan_boxes_row (target_text : string) (threshold : Z) (data : list OcrRow)
  (xy : Z * Z) :
  scan_boxes target_text threshold data = Some xy ->
  exists row,
    In row data /\ row_matches target_text threshold row = true /\ xy = center row.
Proof.
  induction data as [ | row data IH]; cbn [scan_boxes]; [ discriminate | ].
  destruct (row_matches target_text threshold row) eqn:Hrow.
  - intro E. inversion E. exists row. split; [ left; reflexivity | auto ].
  - intro E. destruct (IH E) as (hit & Hin & H). exists hit. split; [ right; exact Hin | exact H ].
Qed.

Lemma ocr_answer_is_a_row (target_text : string) (threshold : Z) (w w' : W) (xy : Z * Z) :
  get_target_coordinates_ocr target_text threshold w = (Ok (Some xy), w') ->
  exists data row,
    ocr_image_to_data w = (Ok data, w')
    /\ In row data /\ row_matches target_text threshold row = true /\ xy = center row.
Proof.
  unfold get_target_coordinates_ocr, try_catch, bind.
  destruct (ocr_image_to_data w) as [[data | e] w1]; cbn; intro E; [ | discriminate E ].
  inversion E as [[Hscan Hw]]. destruct (scan_boxes_row _ _ _ Hscan) as (row & H).
  exists data, row. split; [ reflexivity | exact H ].
Qed.

(** X10.  For a threshold that is not negative, the OCR never answers with
    a row whose confidence cannot be read as an integer: such a row counts
    as confidence zero and is passed over. *)
Theorem ocr_needs_a_readable_confidence (target_text : string) (threshold : Z)
  (w w' : W) (x y : Z) :
  0 <= threshold ->
  get_target_coordinates_ocr target_text threshold w = (Ok (Some (x, y)), w') ->
  exists data row confidence,
    ocr_image_to_data w = (Ok data, w')
    /\ In row data
    /\ int_of (ocr_conf row) = Some confidence
    /\ threshold < confidence
    /\ (x, y) = center row.
Proof.
  intros Hth E. destruct (ocr_answer_is_a_row _ _ _ E) as (data & row & Edata & Hin & Hrow & Hxy).
  unfold row_matches, conf_of in Hrow. apply andb_true_iff in Hrow.
  destruct Hrow as [Hconf _]. apply Z.ltb_lt in Hconf.
  destruct (int_of (ocr_conf row)) as [n | ] eqn:Hint; [ | lia ].
  exists data, row, n. auto.
Qed.

(** X11.  When the boxes of the OCR have sizes that are not negative, the
    point the OCR answers with lies inside the box of one of its rows: the
    click that follows lands on the text that was read. *)
Theorem ocr_point_is_inside_a_box (target_text : string) (threshold : Z)
  (w w' : W) (data : list OcrRow) (x y : Z) :
  ocr_image_to_data w = (Ok data, w') ->
  Forall (fun row => 0 <= ocr_width row /\ 0 <= ocr_height row) data ->
  get_target_coordinates_ocr target_text threshold w = (Ok (Some (x, y)), w') ->
  exists row,
    In row data
    /\ ocr_left row <= x <= ocr_left row + ocr_width row
    /\ ocr_top row <= y <= ocr_top row + ocr_height row.
Proof.
  intros Edata Hsizes E.
  destruct (ocr_answer_is_a_row _ _ _ E) as (data' & row & Edata' & Hin & _ & Hxy).
  rewrite Edata in Edata'. inversion Edata'; subst data'.
  exists row. split; [ exact Hin | ].
  rewrite Forall_forall in Hsizes. destruct (Hsizes row Hin) as [Hw Hh].
  unfold center in Hxy. inversion Hxy; subst x y.
  pose proof (Z.div_pos (ocr_width row) 2 Hw ltac:(lia)).
  pose proof (Z.div_pos (ocr_height row) 2 Hh ltac:(lia)).
  assert (ocr_width row / 2 <= ocr_width row) by (apply Z.div_le_upper_bound; lia).
  assert (ocr_height row / 2 <= ocr_height row) by (apply Z.div_le_upper_bound; lia).
  lia.
Qed.

End OcrRows.

(* ================================================================== *)
(** * Further properties of a step *)
(* ================================================================== *)

Section MoreStepFacts.

Context {W Elem : Type} {driver : BrowserDriver W Elem} {builtins : Builtins}.

Lemma step_run (step : Step) (s : XState W) (outcome : Dict) (w : W) (rest : list Event) :
  dispatch (action step) (params step) (PyStr.strip (dom step)) (coords step)
    (mkXState (browser s) (connected s) (events s ++ [EvExec step])%list)
  = (Ok outcome, mkXState w (connected s) ((events s ++ [EvExec step]) ++ rest)%list) ->
  _execute_step step s
  = (Ok outcome, mkXState w (connected s) (events s ++ EvExec step :: rest)%list).
Proof.
  intro E. unfold _execute_step. erewrite bind_ok by apply emit_run.
  erewrite try_ok by exact E. rewrite <- app_assoc. reflexivity.
Qed.

Lemma step_raises (step : Step) (s : XState W) (e : Exn) :
  dispatch (action step) (params step) (PyStr.strip (dom step)) (coords step)
    (mkXState (browser s) (connected s) (events s ++ [EvExec step])%list)
  = (Exc e, mkXState (browser s) (connected s) (events s ++ [EvExec step])%list) ->
  _execute_step step s
  = (Ok (error ("Error executing " ++ action step ++ ": " ++ exn_str e)),
     mkXState (browser s) (connected s) (events s ++ [EvExec step])%list).
Proof.
  intro E. unfold _execute_step. erewrite bind_ok by apply emit_run.
  erewrite try_exc by exact E. reflexivity.
Qed.

(** X12.  A navigate step without [url], a search step without [query] and
    an input step without [text] end in the error "Error executing", with
    the action and the missing key in quotes; the browser is not touched,
    not even to look for the field of an input. *)
Theorem missing_parameter_is_an_error (step : Step) (key : string) (s : XState W) :
  missing_key step = Some key ->
  _execute_step step s
  = (Ok (error ("Error executing " ++ action step ++ ": '" ++ key ++ "'")),
     mkXState (browser s) (connected s) (events s ++ [EvExec step])%list).
Proof.
  unfold missing_key. intro H.
  destruct (String.eqb_spec (action step) "navigate") as [Ha | _].
  { destruct (p_url (params step)) eqn:Hp; inversion H; subst key.
    apply step_raises with (e := mkExn KeyError "'url'").
    unfold dispatch. rewrite Ha, Hp. reflexivity. }
  destruct (String.eqb_spec (action step) "search") as [Ha | _].
  { destruct (p_query (params step)) eqn:Hp; inversion H; subst key.
    apply step_raises with (e := mkExn KeyError "'query'").
    unfold dispatch. rewrite Ha, Hp. reflexivity. }
  destruct (String.eqb_spec (action step) "input") as [Ha | _]; [ | discriminate H ].
  destruct (p_text (params step)) eqn:Hp; inversion H; subst key.
  apply step_raises with (e := mkExn KeyError "'text'").
  unfold dispatch. rewrite Ha, Hp. reflexivity.
Qed.

(** X13.  A step whose action is none of the seven the executor knows is
    answered with the error "Unknown action" and the action; nothing is
    done in the browser. *)
Theorem unknown_action_is_an_error (step : Step) (s : XState W) :
  known_action (action step) = false ->
  _execute_step step s
  = (Ok (error ("Unknown action: " ++ action step)),
     mkXState (browser s) (connected s) (events s ++ [EvExec step])%list).
Proof.
  unfold known_action. intro H. repeat (apply orb_false_iff in H; destruct H as [H ?]).
  rewrite <- (app_nil_r (events s ++ [EvExec step])%list) at 1.
  rewrite <- app_assoc. cbn [app].
  apply step_run. unfold dispatch.
  repeat match goal with
         | E : (_ =? _)%string = false |- _ => rewrite E; clear E
         end.
  rewrite app_nil_r. reflexivity.
Qed.




(** X15.  A click whose hint is usable and resolves to an element that can
    be clicked ends there: the outcome is the one of that click, and the
    coordinates, the OCR and the descriptive text are not looked at. *)
Theorem click_by_a_good_hint_is_final (step : Step) (s : XState W) (outcome : Dict)
  (w : W) :
  action step = "click" ->
  usable_hint (PyStr.strip (dom step)) = true ->
  click (PyStr.strip (dom step)) (browser s) = (Ok outcome, w) ->
  succeeded outcome ->
  _execute_step step s
  = (Ok outcome,
     mkXState w (connected s) (events s ++ [EvExec step; EvTier Structural])%list).
Proof.
  intros Hact Hhint Hclick Hsucc.
  apply step_run with (rest := [EvTier Structural]).
  rewrite Hact, click_dispatch. unfold click_by_hint. rewrite Hhint.
  erewrite bind_ok; [ | erewrite bind_ok by apply emit_run; apply try_ok ].
  2:{ erewrite bind_ok by (apply call_run; exact Hclick).
      erewrite bind_ok by (apply subscript_found; exact Hsucc).
      reflexivity. }
  reflexivity.
Qed.



(** X17.  When the screenshot or the OCR raises, a click without usable
    hint and without coordinates goes on as if no text had been found: the
    descriptive text is tried as a selector, in the browser as the failed
    call left it, and that click is the outcome. *)
Theorem failed_ocr_falls_back_to_the_text (step : Step) (s : XState W) (e : Exn)
  (w1 : W) :
  action step = "click" ->
  usable_hint (PyStr.strip (dom step)) = false ->
  explicit_coords (coords step) = None ->
  PyStr.strip (selector_or_empty (params step)) <> EmptyString ->
  ocr_image_to_data (browser s) = (Exc e, w1) ->
  exists outcome w2,
    click (PyStr.strip (selector_or_empty (params step))) w1 = (Ok outcome, w2)
    /\ _execute_step step s
       = (Ok outcome,
          mkXState w2 (connected s)
            (events s ++ [EvExec step; EvTier Optical; EvOcr None;
                          EvTier Descriptive])%list).
Proof.
  intros Hact Hhint Hcoords Htext Eocr.
  set (target := PyStr.strip (selector_or_empty (params step))) in *.
  pose proof (truthy_nonempty Htext) as Htruthy.
  destruct (click_returns target w1) as (outcome & w2 & Eclick & _).
  exists outcome, w2. split; [ exact Eclick | ].
  apply step_run with (rest := [EvTier Optical; EvOcr None; EvTier Descriptive]).
  rewrite Hact, click_dispatch. fold target. unfold click_by_hint. rewrite Hhint.
  erewrite bind_ok by reflexivity. rewrite Hcoords.
  unfold click_by_ocr. rewrite Htruthy.
  erewrite bind_ok.
  2:{ erewrite bind_ok by apply emit_run.
      erewrite bind_ok.
      2:{ apply call_run. unfold get_target_coordinates_ocr.
          erewrite try_exc by (erewrite bind_exc by exact Eocr; reflexivity).
          reflexivity. }
      erewrite bind_ok by apply emit_run. reflexivity. }
  cbv beta iota.
  erewrite bind_ok by apply emit_run.
  erewrite call_run by exact Eclick.
  cbn [browser connected events]. rewrite <- !app_assoc. reflexivity.
Qed.

(** X18.  [connect] asks the browser for a session only while the executor
    is not connected: when it is, the answer is "Already connected" and
    nothing changes.  Otherwise the flag is set exactly when the controller
    reported success.  So once a call has set the flag the next one does
    nothing. *)
Theorem connect_is_done_once (s : XState W) :
  exists result s1,
    connect s = (Ok result, s1)
    /\ Outcome result
    /\ events s1 = events s
    /\ (if connected s
        then result = success "Already connected" /\ s1 = s
        else connected s1 = is_str (dict_get result "status") "success")
    /\ (if connected s1
        then connect s1 = (Ok (success "Already connected"), s1)
        else dict_get result "status" = Some "error").
Proof.
  unfold connect, get_connected, bind at 1. destruct (connected s) eqn:Hc; cbn [negb].
  - exists (success "Already connected"), s.
    split; [ reflexivity | ]. split; [ outcome | ]. split; [ reflexivity | ].
    split; [ auto | ]. rewrite Hc. unfold bind. rewrite Hc. reflexivity.
  - destruct (connect_controller_returns 30 (browser s))
      as (result & w & E & ([Hst | Hst] & Hmsg) & _).
    + exists result, (mkXState w true (events s)).
      erewrite bind_ok by (apply call_run; exact E).
      erewrite bind_ok by (apply subscript_found; exact Hst).
      split; [ reflexivity | ]. split; [ split; auto | ]. split; [ reflexivity | ].
      cbn [connected]. rewrite Hst. split; reflexivity.
    + exists result, (mkXState w false (events s)).
      erewrite bind_ok by (apply call_run; exact E).
      erewrite bind_ok by (apply subscript_found; exact Hst).
      split; [ reflexivity | ]. split; [ split; auto | ]. split; [ reflexivity | ].
      cbn [connected]. rewrite Hst. split; reflexivity.
Qed.

End MoreStepFacts.

(* ================================================================== *)
(** * The messages of the controller and the recovery *)
(* ================================================================== *)

Lemma free_of_app (f : ascii -> bool) (s t : string) :
  free_of f s -> free_of f t -> free_of f (s ++ t).
Proof.
  intros Hs Ht. induction s as [ | c s IH]; cbn; [ exact Ht | ].
  destruct Hs as [Hc Hs]. auto.
Qed.

Lemma of_uint_chars (f : ascii -> bool) (u : Decimal.uint) :
  (forall c, In c ["0"; "1"; "2"; "3"; "4"; "5"; "6"; "7"; "8"; "9"; "-"]%char ->
             f c = false) ->
  free_of f (NilZero.string_of_uint u).
Proof.
  intro Hf.
  assert (Hnil : free_of f (NilEmpty.string_of_uint u)).
  { induction u; cbn; try exact I; (split; [ apply Hf; cbn; tauto | assumption ]). }
  destruct u; cbn; try exact Hnil. split; [ apply Hf; cbn; tauto | exact I ].
Qed.

(** [str(n)] is made of digits and the minus sign. *)
Lemma of_Z_chars (f : ascii -> bool) (n : Z) :
  (forall c, In c ["0"; "1"; "2"; "3"; "4"; "5"; "6"; "7"; "8"; "9"; "-"]%char ->
             f c = false) ->
  free_of f (PyStr.of_Z n).
Proof.
  intro Hf. unfold PyStr.of_Z, NilZero.string_of_int.
  destruct (Z.to_int n) as [u | u].
  - apply of_uint_chars, Hf.
  - cbn. split; [ apply Hf; cbn; tauto | apply of_uint_chars, Hf ].
Qed.

(** A string without the first character of the needle does not contain
    the needle. *)
Lemma contains_free (c : ascii) (needle hay : string) :
  free_of (Ascii.eqb c) hay -> PyStr.contains (String c needle) hay = false.
Proof.
  induction hay as [ | b hay IH]; intro H; cbn [PyStr.contains String.prefix].
  - reflexivity.
  - destruct H as [Hb Hhay]. rewrite (IH Hhay).
    destruct (ascii_dec c b) as [-> | _]; [ | reflexivity ].
    rewrite Ascii.eqb_refl in Hb. discriminate Hb.
Qed.

Lemma point_is_plain (c : ascii) (x y : Z) :
  (forall b, In b ["0"; "1"; "2"; "3"; "4"; "5"; "6"; "7"; "8"; "9"; "-";
                   ","; " "; ")"]%char -> Ascii.eqb c b = false) ->
  free_of (Ascii.eqb c) (PyStr.of_Z x ++ ", " ++ PyStr.of_Z y ++ ")").
Proof.
  intro Hc.
  assert (Hdigits : forall b,
             In b ["0"; "1"; "2"; "3"; "4"; "5"; "6"; "7"; "8"; "9"; "-"]%char ->
             Ascii.eqb c b = false).
  { intros b Hb. apply Hc. cbn in *. tauto. }
  apply free_of_app; [ apply of_Z_chars, Hdigits | ].
  cbn. split; [ apply Hc; cbn; tauto | ]. split; [ apply Hc; cbn; tauto | ].
  apply free_of_app; [ apply of_Z_chars, Hdigits | ].
  cbn. split; [ apply Hc; cbn; tauto | exact I ].
Qed.

Lemma miss_says_neither (x y : Z) :
  let message := "No element found at coordinates ("
                 ++ PyStr.of_Z x ++ ", " ++ PyStr.of_Z y ++ ")" in
  PyStr.contains "not found" message = false
  /\ PyStr.contains "search box" message = false.
Proof.
  set (tail := PyStr.of_Z x ++ ", " ++ PyStr.of_Z y ++ ")").
  assert (Hn : PyStr.contains "not found" tail = false).
  { apply contains_free, point_is_plain. intros b Hb. cbn in Hb.
    repeat (destruct Hb as [<- | Hb]; [ reflexivity | ]). destruct Hb. }
  assert (Hs : PyStr.contains "search box" tail = false).
  { apply contains_free, point_is_plain. intros b Hb. cbn in Hb.
    repeat (destruct Hb as [<- | Hb]; [ reflexivity | ]). destruct Hb. }
  cbv zeta. split.
  - transitivity (PyStr.contains "not found" tail); [ reflexivity | exact Hn ].
  - transitivity (PyStr.contains "search box" tail); [ reflexivity | exact Hs ].
Qed.

Section Messages.

Context {W Elem : Type} {driver : BrowserDriver W Elem} {builtins : Builtins}.

(** X19.  The report of [click], [input_text] and [extract] for a missing
    element is one the recovery acts upon: for a step of one of these three
    actions it pauses three seconds and, unless the pause fails, runs the
    step again, once, from the state the pause left; it ends in the state
    that run left and hands the outcome back only if it succeeded. *)
Theorem missing_element_is_waited_for (failed_step : Step) (selector : string)
  (step_index : nat) (s : XState W) :
  waits_for_element (action failed_step) = true ->
  match clock_sleep 3000 (browser s) with
  | (Exc e, w1) =>
      _attempt_recovery failed_step (error ("Element not found: " ++ selector))
        step_index s
      = (Exc e, mkXState w1 (connected s) (events s))
  | (Ok _, w1) =>
      exists retry s2,
        _execute_step failed_step
          (mkXState w1 (connected s) (events s ++ [EvSleep 3000])%list)
        = (Ok retry, s2)
        /\ Entry retry
        /\ _attempt_recovery failed_step (error ("Element not found: " ++ selector))
             step_index s
           = (Ok (if succeeded_b retry then Some retry else None), s2)
  end.
Proof.
  intro Hwaits.
  pose proof (_attempt_recovery_run failed_step
                (error ("Element not found: " ++ selector)) step_index s) as Hcase.
  assert (Hfound : element_not_found failed_step
                     (error ("Element not found: " ++ selector)) = true).
  { unfold element_not_found. rewrite Hwaits, andb_true_r.
    apply contains_spec. exists "Element ", (": " ++ selector). reflexivity. }
  rewrite Hfound in Hcase. exact Hcase.
Qed.

(** X20.  The report of a click at coordinates under which there is no
    element, "No element found at coordinates (x, y)", says neither "not
    found" nor "search box": the recovery does nothing for it, whatever the
    step.  A click that the OCR or the coordinates placed on nothing is not
    run again. *)
Theorem coordinate_miss_is_not_retried (x y : Z) (w w' : W) :
  script_click_at_point x y w = (Ok false, w') ->
  exists outcome,
    click_by_coordinates x y w = (Ok outcome, w')
    /\ dict_get outcome "status" = Some "error"
    /\ forall (failed_step : Step) (step_index : nat) (s : XState W),
         _attempt_recovery failed_step outcome step_index s = (Ok None, s).
Proof.
  intro E.
  exists (error ("No element found at coordinates ("
                 ++ PyStr.of_Z x ++ ", " ++ PyStr.of_Z y ++ ")")).
  split; [ | split; [ reflexivity | ] ].
  - unfold click_by_coordinates. apply try_ok. erewrite bind_ok by exact E. reflexivity.
  - intros failed_step step_index s.
    destruct (miss_says_neither x y) as [Hn Hs]. cbv zeta in Hn, Hs.
    pose proof (_attempt_recovery_run failed_step
                  (error ("No element found at coordinates ("
                          ++ PyStr.of_Z x ++ ", " ++ PyStr.of_Z y ++ ")")) step_index s)
      as Hcase.
    unfold element_not_found, no_search_box in Hcase.
    change (error_message (error ("No element found at coordinates ("
                                  ++ PyStr.of_Z x ++ ", " ++ PyStr.of_Z y ++ ")")))
      with ("No element found at coordinates ("
            ++ PyStr.of_Z x ++ ", " ++ PyStr.of_Z y ++ ")") in Hcase.
    rewrite Hn, Hs, andb_false_r in Hcase. cbn [andb] in Hcase.
    exact Hcase.
Qed.

End Messages.

(* ================================================================== *)
(** * The size of a run *)
(* ================================================================== *)

Section RunSize.

Context {W Elem : Type} {driver : BrowserDriver W Elem} {builtins : Builtins}.

(** A round records at most one outcome. *)
Lemma for_range_length (command_text : string) (range : list nat) :
  forall (results : list Dict) (cf : Z) (s : XState W),
    match fst (for_range command_text range results cf s) with
    | Ok results' =>
        (List.length results' <= List.length results + List.length range)%nat
    | Exc _ => True
    end.
Proof.
  induction range as [ | i range IH]; intros results cf s; cbn [for_range].
  - cbn. lia.
  - destruct (round_run command_text i results cf s) as (r & w & new & E & _ & Hround).
    remember (verdicts new) as vs eqn:Hv. clear Hv.
    assert (Hnext : forall (outcome : Dict) (k : Z),
               match fst (for_range command_text range (results ++ [outcome])%list k
                            (mkXState w (connected s) (events s ++ new)%list)) with
               | Ok results' =>
                   (List.length results'
                    <= List.length results + List.length (i :: range))%nat
               | Exc _ => True
               end).
    { intros outcome k.
      specialize (IH (results ++ [outcome])%list k
                    (mkXState w (connected s) (events s ++ new)%list)).
      destruct (fst (for_range _ _ _ _ _)); [ | exact I ].
      rewrite List.length_app in IH. cbn [List.length] in *. lia. }
    destruct Hround as [ e | e v Hlate | | message | outcome Hout Hok | recovered Hout
                       | outcome Hout Hfailed Hlow | outcome Hout Hfailed Hhigh ];
      first [ erewrite bind_exc by exact E | erewrite bind_ok by exact E ];
      cbv beta iota;
      first [ apply Hnext
            | cbn [fst ret]; exact I
            | cbn [fst ret]; rewrite ?List.length_app; cbn [List.length]; lia ].
Qed.

(** X21.  A run that finishes reports as many steps as it recorded
    outcomes, twice ([steps_completed] and [total_steps] are the same
    number), that number is at most fifteen, and every record is an
    outcome: a status that is success or error, and a message. *)
Theorem finished_run_counts_its_outcomes (command_text : string) (s s' : XState W)
  (status : string) (steps_completed total_steps : nat) (results : list Dict) :
  execute_command_iteratively command_text s
  = (Ok (Finished status steps_completed total_steps results), s') ->
  steps_completed = List.length results
  /\ total_steps = List.length results
  /\ (List.length results <= 15)%nat
  /\ Forall Outcome results.
Proof.
  intro E.
  assert (Hrun : exists s0 s1,
             run_steps command_text s0
             = (Ok (Finished status steps_completed total_steps results), s1)).
  { unfold execute_command_iteratively, try_catch in E.
    destruct (bind get_connected _ s) as [[result | e] s1] eqn:Ebody;
      [ | inversion E ].
    inversion E; subst result s1; clear E.
    unfold bind at 1, get_connected in Ebody. unfold bind at 1 in Ebody.
    match type of Ebody with
    | context [ match ?m s with _ => _ end ] =>
        destruct (m s) as [[[connect_result | ] | e] s2]
    end; try discriminate Ebody; eauto. }
  destruct Hrun as (s0 & s1 & Hrun).
  unfold run_steps, bind in Hrun.
  pose proof (for_range_length command_text (seq 0 max_steps) [] 0 s0) as Hlen.
  destruct (for_range_run command_text (seq 0 max_steps) (results := []) (cf := 0) s0
              ltac:(lia) (Forall_nil _))
    as (r & w & new & Efor & _ & Hentries).
  rewrite Efor in Hrun, Hlen. destruct r as [results' | e]; [ | discriminate Hrun ].
  destruct Hentries as [Hentries _].
  cbn [fst] in Hlen. rewrite length_seq in Hlen. cbn [List.length] in Hlen.
  match type of Hrun with
  | context [ match ?m ?st with _ => _ end ] =>
      destruct (m st) as [[ok | e] s2]
  end; [ | discriminate Hrun ].
  inversion Hrun; subst.
  repeat split; try reflexivity.
  - exact Hlen.
  - revert Hentries. apply Forall_impl. intros d [H _]. exact H.
Qed.

End RunSize.

(* ================================================================== *)
(** * The parser *)
(* ================================================================== *)

Lemma action_map_known (letter : ascii) (a : string) :
  Parser.action_map letter = Some a -> parser_action a.
Proof.
  destruct letter as [[] [] [] [] [] [] [] []]; intro H; vm_compute in H;
    try discriminate H; inversion H; unfold parser_action; tauto.
Qed.

Section ParsedSteps.

Context {builtins : Builtins}.

(** What a parsed step is made of. *)
Lemma parse_response_parts (response_text : string) (step : Step) :
  Parser.parse_response response_text = Some step ->
  exists letter param,
    Parser.search_field "PARAM:" response_text = Some param
    /\ Parser.action_map letter = Some (action step)
    /\ params step = Parser.params_dict (action step) (PyStr.strip param)
    /\ dom step = match Parser.search_field "DOM:" response_text with
                  | Some d => Parser.strip_commentary (PyStr.strip d)
                  | None => "N/A"
                  end
    /\ coords step = None.
Proof.
  unfold Parser.parse_response.
  destruct (Parser.search_action response_text) as [letter | ]; [ | discriminate ].
  destruct (Parser.search_field "PARAM:" response_text) as [param | ]; [ | discriminate ].
  destruct (Parser.action_map letter) as [a | ] eqn:Ha; [ | discriminate ].
  intro H. inversion H; subst step; clear H. exists letter, param. cbn. auto.
Qed.

Lemma params_dict_complete (a param_value dom_value : string) :
  parser_action a ->
  missing_key (mkStep a (Parser.params_dict a param_value) dom_value None) = None
  /\ p_message (Parser.params_dict a param_value) = None.
Proof.
  intros [-> | [-> | [-> | [-> | [-> | ->]]]]]; try (split; reflexivity).
  unfold Parser.params_dict, missing_key. cbn [String.eqb Ascii.eqb Bool.eqb action params].
  destruct (Parser.split_comma param_value) as [[first rest] | ]; split; reflexivity.
Qed.

End ParsedSteps.

Section ParserFacts.

Context {W : Type} {model : ChatModel W} {builtins : Builtins}.

(** X22.  [get_next_step] never raises: when the chat completion fails the
    answer is [None].  A step it returns has one of the six actions of the
    prompt (never extract, never an action the executor does not know),
    comes with the parameter its action reads, and carries neither
    coordinates nor a completion message. *)
Theorem get_next_step_answers_with_a_known_step (goal : string)
  (dom_context : list Element) (previous_steps : list Dict) (w : W) :
  exists next_step w',
    get_next_step goal dom_context previous_steps w = (Ok next_step, w')
    /\ match next_step with
       | Some step =>
           parser_action (action step)
           /\ missing_key step = None
           /\ p_message (params step) = None
           /\ coords step = None
       | None => True
       end.
Proof.
  unfold get_next_step. destruct (Parser.read_context previous_steps) as [url last].
  unfold try_catch, bind.
  destruct (chat_completion goal url last _ w) as [[content | e] w1].
  - eexists; eexists. split; [ reflexivity | ].
    destruct (Parser.parse_response (PyStr.strip content)) as [step | ] eqn:Ep;
      [ | exact I ].
    destruct (parse_response_parts _ Ep) as (letter & param & _ & Ha & Hp & _ & Hc).
    pose proof (action_map_known _ Ha) as Hknown.
    destruct (params_dict_complete (PyStr.strip param) (dom step) Hknown)
      as [Hkey Hmsg].
    rewrite <- Hp, <- Hc in Hkey. rewrite <- Hp in Hmsg. destruct step. auto.
  - eexists; eexists. split; [ reflexivity | exact I ].
Qed.

End ParserFacts.

Section ParsedUrl.

Context {W Elem : Type} {driver : BrowserDriver W Elem} {builtins : Builtins}.

Lemma navigate_with_scheme (url : string) (w : W) :
  navigate url w = navigate (with_scheme url) w.
Proof.
  unfold with_scheme.
  destruct (PyStr.startswith url "http://" || PyStr.startswith url "https://") eqn:Hs;
    [ reflexivity | ].
  assert (Hs' : PyStr.startswith ("https://" ++ url) "http://"
                || PyStr.startswith ("https://" ++ url) "https://" = true).
  { unfold PyStr.startswith at 2. rewrite prefix_app. apply orb_true_r. }
  unfold navigate. rewrite Hs, Hs'. reflexivity.
Qed.

(** X24.  The parser and [navigate] both put "https://" in front of a URL
    without scheme, and the scheme is added once: handing the URL of a
    parsed navigate step to [navigate] is the same as handing it the
    parameter of the answer.  The parser leaves an empty parameter empty;
    [navigate] then asks the browser for "https://". *)
Theorem parsed_url_gets_its_scheme_once (param_value : string) (w : W) :
  exists url,
    p_url (Parser.params_dict "navigate" param_value) = Some url
    /\ navigate url w = navigate param_value w
    /\ (url = param_value \/ url = "https://" ++ param_value)
    /\ navigate EmptyString w = navigate "https://" w.
Proof.
  exists (if PyStr.truthy param_value
             && negb (PyStr.startswith param_value "http://"
                      || PyStr.startswith param_value "https://")
          then "https://" ++ param_value else param_value).
  split; [ reflexivity | ].
  split; [ | split; [ | reflexivity ] ].
  - destruct (PyStr.truthy param_value); cbn [andb]; [ | reflexivity ].
    destruct (PyStr.startswith param_value "http://"
              || PyStr.startswith param_value "https://") eqn:Hs;
      cbn [negb]; [ reflexivity | ].
    rewrite (navigate_with_scheme param_value). unfold with_scheme. rewrite Hs.
    reflexivity.
  - destruct (_ && _)%bool; auto.
Qed.

End ParsedUrl.

Lemma split_paren_app (p rest : string) :
  free_of is_open_paren p ->
  Parser.split_paren (p ++ String "(" rest) = Some (p, rest).
Proof.
  intro Hp. induction p as [ | c p IH]; cbn [append Parser.split_paren].
  - reflexivity.
  - destruct Hp as [Hc Hp]. unfold is_open_paren in Hc. rewrite Hc, (IH Hp). reflexivity.
Qed.

Lemma ends_with_paren_app (q : string) : Parser.ends_with_paren (q ++ ")") = true.
Proof.
  induction q as [ | c q IH]; [ reflexivity | ].
  cbn [append Parser.ends_with_paren].
  destruct (q ++ ")") eqn:E; [ destruct q; discriminate E | exact IH ].
Qed.

Section ParsedHint.

Context {builtins : Builtins}.

(** X25.  A hint that ends with ")" is cut at its first "(", with the
    white space in front of it: what was meant to drop a commentary in
    brackets also cuts a selector such as [input:not([type='submit'])]
    down to [input:not]. *)
Theorem hint_is_cut_at_the_first_bracket (response_text : string) (step : Step)
  (d p q : string) :
  Parser.parse_response response_text = Some step ->
  Parser.search_field "DOM:" response_text = Some d ->
  PyStr.strip d = p ++ "(" ++ q ++ ")" ->
  free_of is_open_paren p ->
  dom step = PyStr.rstrip p.
Proof.
  intros Ep Hd Hstrip Hp.
  destruct (parse_response_parts _ Ep) as (_ & _ & _ & _ & _ & Hdom & _).
  rewrite Hd, Hstrip in Hdom. rewrite Hdom.
  unfold Parser.strip_commentary.
  change (p ++ "(" ++ q ++ ")") with (p ++ String "(" (q ++ ")")).
  rewrite (@split_paren_app p (q ++ ")") Hp), ends_with_paren_app. reflexivity.
Qed.

End ParsedHint.

Lemma prefix_nil (s : string) : String.prefix EmptyString s = true.
Proof. destruct s; reflexivity. Qed.

Lemma prefix_cons (a b : ascii) (p s : string) :
  String.prefix (String a p) (String b s) = Ascii.eqb a b && String.prefix p s.
Proof.
  cbn [String.prefix]. destruct (ascii_dec a b) as [-> | H].
  - rewrite Ascii.eqb_refl. reflexivity.
  - apply Ascii.eqb_neq in H. rewrite H. reflexivity.
Qed.

Lemma prefix_more (p x s : string) :
  String.prefix p x = true -> String.prefix p (x ++ s) = true.
Proof.
  revert x. induction p as [ | a p IH]; intros x H; [ apply prefix_nil | ].
  destruct x as [ | b x]; [ discriminate H | ].
  cbn [append]. rewrite prefix_cons in *. apply andb_true_iff in H.
  destruct H as [Hab H]. rewrite Hab, (IH _ H). reflexivity.
Qed.

Lemma prefix_length (p x : string) :
  String.prefix p x = true -> (String.length p <= String.length x)%nat.
Proof.
  revert x. induction p as [ | a p IH]; intros x H; [ cbn; lia | ].
  destruct x as [ | b x]; [ discriminate H | ].
  rewrite prefix_cons in H. apply andb_true_iff in H. destruct H as [_ H].
  specialize (IH _ H). cbn [String.length]. lia.
Qed.

Lemma prefix_chain (p q x : string) :
  String.prefix p q = true -> String.prefix q x = true -> String.prefix p x = true.
Proof.
  revert q x. induction p as [ | a p IH]; intros q x Hpq Hqx; [ apply prefix_nil | ].
  destruct q as [ | b q]; [ discriminate Hpq | ].
  destruct x as [ | c x]; [ discriminate Hqx | ].
  rewrite prefix_cons in *.
  apply andb_true_iff in Hpq. destruct Hpq as [Hab Hpq].
  apply andb_true_iff in Hqx. destruct Hqx as [Hbc Hqx].
  apply Ascii.eqb_eq in Hab, Hbc. subst.
  rewrite Ascii.eqb_refl, (IH _ _ Hpq Hqx). reflexivity.
Qed.

(** Two beginnings of the same text: one is a beginning of the other. *)
Lemma prefix_comparable (p q x : string) :
  String.prefix p x = true -> String.prefix q x = true ->
  String.prefix p q = true \/ String.prefix q p = true.
Proof.
  revert q x. induction p as [ | a p IH]; intros q x Hp Hq;
    [ left; apply prefix_nil | ].
  destruct q as [ | b q]; [ right; apply prefix_nil | ].
  destruct x as [ | c x]; [ discriminate Hp | ].
  rewrite prefix_cons in *.
  apply andb_true_iff in Hp. destruct Hp as [Hac Hp].
  apply andb_true_iff in Hq. destruct Hq as [Hbc Hq].
  apply Ascii.eqb_eq in Hac, Hbc. subst.
  rewrite !prefix_cons, !Ascii.eqb_refl. cbn [andb]. exact (IH _ _ Hp Hq).
Qed.

(** No white space character is the beginning of another one. *)
Lemma spaces_prefix_free (b b' : string) :
  In b PyStr.spaces -> In b' PyStr.spaces -> String.prefix b b' = true -> b = b'.
Proof.
  assert (H : forallb (fun b => forallb (fun b' => negb (String.prefix b b')
                                                   || String.eqb b b')
                                  PyStr.spaces) PyStr.spaces = true)
    by (vm_compute; reflexivity).
  rewrite forallb_forall in H. intros Hb Hb' Hpre.
  specialize (H b Hb). rewrite forallb_forall in H. specialize (H b' Hb').
  rewrite Hpre in H. cbn in H. apply String.eqb_eq, H.
Qed.

Lemma width_found (blanks : list string) (x : string) :
  PyStr.width blanks x <> O ->
  exists b, In b blanks /\ String.prefix b x = true.
Proof.
  induction blanks as [ | b blanks IH]; cbn [PyStr.width]; [ congruence | ].
  destruct (String.prefix b x) eqn:Hb.
  - intros _. exists b. split; [ left; reflexivity | exact Hb ].
  - intro H. destruct (IH H) as (b' & Hin & Hpre). exists b'. split; [ right | ]; auto.
Qed.

Lemma width_length (blanks : list string) (x : string) :
  (PyStr.width blanks x <= String.length x)%nat.
Proof.
  induction blanks as [ | b blanks IH]; cbn [PyStr.width]; [ lia | ].
  destruct (String.prefix b x) eqn:Hb; [ apply prefix_length, Hb | exact IH ].
Qed.

(** The white space character a text starts with is the one it starts with
    when more text follows. *)
Lemma width_more (blanks : list string) (x s : string) :
  (forall b b', In b blanks -> In b' blanks -> String.prefix b b' = true -> b = b') ->
  PyStr.width blanks x <> O ->
  PyStr.width blanks (x ++ s) = PyStr.width blanks x.
Proof.
  induction blanks as [ | b blanks IH]; intros Hfree Hx; [ reflexivity | ].
  cbn [PyStr.width] in *.
  destruct (String.prefix b x) eqn:Hb.
  - rewrite (prefix_more _ _ s Hb). reflexivity.
  - destruct (String.prefix b (x ++ s)) eqn:Hbs.
    + exfalso. destruct (width_found _ _ Hx) as (b' & Hin & Hpre).
      pose proof (prefix_more _ _ s Hpre) as Hpre'.
      destruct (prefix_comparable _ _ _ Hbs Hpre') as [H | H].
      * rewrite (prefix_chain _ _ _ H Hpre) in Hb. discriminate Hb.
      * assert (b' = b) by (apply Hfree; [ right | left | ]; auto).
        subst b'. rewrite Hpre in Hb. discriminate Hb.
    + apply IH; [ | exact Hx ].
      intros b1 b2 H1 H2. apply Hfree; right; assumption.
Qed.

Lemma lstrip_from_blank (gap : string) :
  forall (skip : nat) (s : string),
    PyStr.lstrip_from PyStr.spaces skip gap = EmptyString ->
    (skip <= String.length gap)%nat ->
    PyStr.lstrip_from PyStr.spaces skip (gap ++ s) = PyStr.lstrip s.
Proof.
  induction gap as [ | a gap IH]; intros skip s Hgap Hskip.
  - cbn [String.length] in Hskip. replace skip with O by lia. reflexivity.
  - cbn [append PyStr.lstrip_from] in *. destruct skip as [ | skip].
    + change (String a (gap ++ s)) with (String a gap ++ s).
      destruct (PyStr.width PyStr.spaces (String a gap)) as [ | k] eqn:Hw;
        [ discriminate Hgap | ].
      rewrite (width_more _ _ s spaces_prefix_free) by (rewrite Hw; discriminate).
      rewrite Hw. apply IH; [ exact Hgap | ].
      pose proof (width_length PyStr.spaces (String a gap)) as Hlen.
      rewrite Hw in Hlen. cbn [String.length] in Hlen. lia.
    + apply IH; [ exact Hgap | cbn [String.length] in Hskip; lia ].
Qed.

(** White space in front of a text is stripped with the white space the
    text starts with. *)
Lemma lstrip_all_space (gap s : string) :
  all_space gap -> PyStr.lstrip (gap ++ s) = PyStr.lstrip s.
Proof.
  intro H. apply lstrip_from_blank; [ exact H | lia ].
Qed.

Lemma take_until_stop (stop : ascii -> bool) (line tail : string) :
  free_of stop line ->
  match tail with
  | EmptyString => True
  | String b _ => stop b = true
  end ->
  Parser.take_until stop (line ++ tail) = line.
Proof.
  intros Hline Htail. induction line as [ | c line IH]; cbn [append Parser.take_until].
  - destruct tail as [ | b tail]; [ reflexivity | ]. cbn. rewrite Htail. reflexivity.
  - destruct Hline as [Hc Hline]. rewrite Hc, (IH Hline). reflexivity.
Qed.

Lemma search_field_skip (c : ascii) (label before s : string) :
  free_of (Ascii.eqb c) before ->
  Parser.search_field (String c label) (before ++ s)
  = Parser.search_field (String c label) s.
Proof.
  intro H. induction before as [ | b before IH]; [ reflexivity | ].
  destruct H as [Hb H]. cbn [append Parser.search_field String.prefix].
  destruct (ascii_dec c b) as [-> | _]; [ | exact (IH H) ].
  rewrite Ascii.eqb_refl in Hb. discriminate Hb.
Qed.

(** X26.  The white space after "PARAM:" is skipped with the line feeds in
    it: when the rest of the PARAM line is blank, the parameter is the next
    line that is not, up to its line feed or the end of the answer.  An
    answer with an empty PARAM line gets the DOM line as its parameter.
    ([before] is what the answer has in front of "PARAM:", without a
    capital P in it, such as the ACTION line; [gap] is white space only,
    and what follows it does not start with white space.) *)
Theorem blank_param_takes_the_next_line (before gap line tail : string) (c : ascii) :
  free_of (Ascii.eqb "P") before ->
  all_space gap ->
  PyStr.lstrip (String c line ++ tail) = String c line ++ tail ->
  free_of Parser.is_line_feed (String c line) ->
  match tail with
  | EmptyString => True
  | String b _ => Parser.is_line_feed b = true
  end ->
  Parser.search_field "PARAM:" (before ++ "PARAM:" ++ gap ++ String c line ++ tail)
  = Some (String c line).
Proof.
  intros Hbefore Hgap Hc Hline Htail.
  rewrite (@search_field_skip "P"%char "ARAM:" before _ Hbefore).
  change (Parser.search_field "PARAM:" ("PARAM:" ++ gap ++ String c line ++ tail))
    with (if String.prefix "PARAM:" ("PARAM:" ++ gap ++ String c line ++ tail)
          then Some (Parser.take_until Parser.is_line_feed
                       (PyStr.lstrip (gap ++ String c line ++ tail)))
          else Parser.search_field "PARAM:" ("ARAM:" ++ gap ++ String c line ++ tail)).
  rewrite prefix_app, (@lstrip_all_space gap (String c line ++ tail) Hgap), Hc.
  rewrite (@take_until_stop Parser.is_line_feed (String c line) tail Hline Htail).
  reflexivity.
Qed.

Lemma remove_all_skip (old x s : string) :
  Parser.remove_all old (String.length x) (x ++ s) = Parser.remove_all old 0 s.
Proof.
  induction x as [ | c x IH]; [ reflexivity | ].
  cbn [String.length append Parser.remove_all]. exact IH.
Qed.

Lemma remove_all_absent (old s : string) :
  PyStr.contains old s = false -> Parser.remove_all old 0 s = s.
Proof.
  induction s as [ | c s IH]; cbn [PyStr.contains Parser.remove_all]; [ reflexivity | ].
  intro H. apply orb_false_iff in H. destruct H as [Hhere Hlater].
  rewrite Hhere, (IH Hlater). reflexivity.
Qed.

Lemma remove_all_front (c : ascii) (old s : string) :
  PyStr.contains (String c old) s = false ->
  Parser.remove_all (String c old) 0 (String c old ++ s) = s.
Proof.
  intro H. cbn [append Parser.remove_all].
  change (String c (old ++ s)) with (String c old ++ s). rewrite prefix_app.
  replace (String.length (String c old) - 1)%nat with (String.length old)
    by (cbn [String.length]; lia).
  rewrite remove_all_skip. apply remove_all_absent, H.
Qed.

Section ParsedContext.

Context {W Elem : Type} {driver : BrowserDriver W Elem} {builtins : Builtins}.

(** X27.  From the controller through the transcript to the prompt: after
    a navigation that succeeded, the current URL the parser gives the
    language model is the URL the browser was sent to, scheme included,
    as long as that URL does not itself contain "Navigated to ". *)
Theorem parser_reads_the_url_of_a_navigation (url : string) (w w' : W)
  (outcome : Dict) (previous_steps : list Dict) :
  navigate url w = (Ok outcome, w') ->
  succeeded outcome ->
  PyStr.contains "Navigated to " (with_scheme url) = false ->
  Parser.read_context (previous_steps ++ [outcome])
  = (with_scheme url, "Navigated to " ++ with_scheme url).
Proof.
  intros Enav Hsucc Hplain.
  assert (Hout : outcome = success ("Navigated to " ++ with_scheme url)).
  { rewrite navigate_with_scheme in Enav. unfold navigate in Enav.
    rewrite with_scheme_has_scheme in Enav. cbn [negb] in Enav.
    unfold try_catch, bind in Enav.
    destruct (drv_navigate (with_scheme url) w) as [[[] | e] w1].
    - destruct (drv_wait_complete w1) as [[[] | e] w2].
      + inversion Enav. reflexivity.
      + destruct (exn_class e); inversion Enav; subst outcome; discriminate Hsucc.
    - destruct (exn_class e); inversion Enav; subst outcome; discriminate Hsucc. }
  subst outcome. unfold Parser.read_context.
  destruct (previous_steps ++ [success ("Navigated to " ++ with_scheme url)])%list
    eqn:Hlist; [ destruct previous_steps; discriminate Hlist | ].
  rewrite <- Hlist, last_last.
  change (error_message (success ("Navigated to " ++ with_scheme url)))
    with ("Navigated to " ++ with_scheme url).
  assert (Hin : PyStr.contains "Navigated to" ("Navigated to " ++ with_scheme url) = true).
  { apply contains_spec. exists EmptyString, (" " ++ with_scheme url). reflexivity. }
  rewrite Hin, (@remove_all_front _ _ _ Hplain). reflexivity.
Qed.



End ParsedContext.

(* ================================================================== *)
(** * Further runs on the scripted browser *)
(* ================================================================== *)

Module MoreRuns.

Import Sim Samples.

(** X2 on the empty page. *)
Lemma missing_element_witness :
  click "#gone" blank = (Ok (error "Element not found: #gone"), blank)
  /\ input_text "#gone" "milk" blank = (Ok (error "Element not found: #gone"), blank)
  /\ extract "#gone" blank = (Ok (error "Element not found: #gone"), blank).
Proof.
  exact (@missing_element_is_reported _ _ driver "#gone" "milk" blank blank
           (mkExn NoSuchElementException "#gone") eq_refl).
Defined.

(** X3 on a page whose search field answers to the seventh selector. *)
Lemma search_input_witness :
  search "cats" search_page
  = (Ok [ ("status", "success");
          ("message", "Performed search for: cats");
          ("details", "Used selector: #search") ], search_page)
  /\ exists current_url w0 element used_selector w1 w2 w3,
       drv_get_url search_page = (Ok current_url, w0)
       /\ Settled search_selectors w0 element used_selector w1
       /\ prepare_input element w1 = (Ok tt, w2)
       /\ (drv_send_keys element "cats" w2 = (Ok tt, w3)
           \/ exists e wk,
                drv_send_keys element "cats" w2 = (Exc e, wk)
                /\ script_set_value element "cats" wk = (Ok tt, w3))
       /\ [ ("status", "success");
            ("message", "Performed search for: cats");
            ("details", "Used selector: #search") ]
          = [ ("status", "success");
              ("message", "Performed search for: " ++ "cats");
              ("details", "Used selector: " ++ used_selector) ].
Proof.
  assert (H : search "cats" search_page
              = (Ok [ ("status", "success");
                      ("message", "Performed search for: cats");
                      ("details", "Used selector: #search") ], search_page))
    by (vm_compute; reflexivity).
  split; [ exact H | ].
  exact (@search_input_is_no_button _ _ driver "cats" search_page search_page _
           H eq_refl).
Defined.


(** X9 on the page with five visible nodes: the bound three cuts the
    snapshot to three elements, the bound zero leaves all five. *)
Lemma dom_context_size_witness :
  (exists snapshot,
     get_dom_context 3 mixed_page = (Ok snapshot, mixed_page)
     /\ Z.of_nat (List.length snapshot) = 3)
  /\ (exists snapshot,
        get_dom_context 0 mixed_page = (Ok snapshot, mixed_page)
        /\ Z.of_nat (List.length snapshot) = 5).
Proof.
  split.
  - exact (@dom_context_has_every_visible_node_up_to_the_bound _ _ driver _ 3
             mixed_page mixed_page mixed_nodes ltac:(lia) eq_refl).
  - exact (@dom_context_has_every_visible_node_up_to_the_bound _ _ driver _ 0
             mixed_page mixed_page mixed_nodes ltac:(lia) eq_refl).
Defined.

(** X10 on the screen with five rows, the third of which has a confidence
    that is no number. *)
Lemma readable_confidence_witness :
  exists data row confidence,
    ocr_image_to_data menu_page = (Ok data, menu_page)
    /\ In row data
    /\ int_of (ocr_conf row) = Some confidence
    /\ 60 < confidence
    /\ (125, 210) = center row.
Proof.
  assert (H : get_target_coordinates_ocr "CART" 60 menu_page
              = (Ok (Some (125, 210)), menu_page))
    by (vm_compute; reflexivity).
  exact (@ocr_needs_a_readable_confidence _ _ driver _ "CART" 60
           menu_page menu_page 125 210 ltac:(lia) H).
Defined.

(** X11 at the cart page. *)
Lemma point_inside_witness :
  exists row,
    In row [cart_row]
    /\ ocr_left row <= 125 <= ocr_left row + ocr_width row
    /\ ocr_top row <= 210 <= ocr_top row + ocr_height row.
Proof.
  assert (H : get_target_coordinates_ocr "Add to cart" 60 (cart_page true)
              = (Ok (Some (125, 210)), cart_page true))
    by (vm_compute; reflexivity).
  assert (Hsizes : Forall (fun row => 0 <= ocr_width row /\ 0 <= ocr_height row)
                     [cart_row])
    by (repeat constructor; cbn; lia).
  exact (@ocr_point_is_inside_a_box _ _ driver _ "Add to cart" 60
           (cart_page true) (cart_page true) [cart_row] 125 210 eq_refl Hsizes H).
Defined.

(** X12 for a search without query. *)
Lemma missing_parameter_witness :
  _execute_step bare_search (start blank)
  = (Ok (error "Error executing search: 'query'"),
     mkXState blank true [EvExec bare_search]).
Proof.
  exact (@missing_parameter_is_an_error _ _ driver _ bare_search "query" (start blank)
           eq_refl).
Defined.

(** X13 for the action "hover". *)
Lemma unknown_action_witness :
  _execute_step hover_step (start blank)
  = (Ok (error "Unknown action: hover"), mkXState blank true [EvExec hover_step]).
Proof.
  exact (@unknown_action_is_an_error _ _ driver _ hover_step (start blank) eq_refl).
Defined.


(** X15 on a page where the hint resolves. *)
Lemma good_hint_witness :
  _execute_step buy_step (start shop)
  = (Ok (success "Clicked element: #buy"),
     mkXState shop true [EvExec buy_step; EvTier Structural]).
Proof.
  exact (@click_by_a_good_hint_is_final _ _ driver _ buy_step (start shop)
           (success "Clicked element: #buy") shop eq_refl eq_refl eq_refl eq_refl).
Defined.


(** X17 on a page of which no screenshot can be taken. *)
Lemma failed_ocr_witness :
  exists outcome w2,
    click "Add to cart" shop = (Ok outcome, w2)
    /\ _execute_step cart_step (start shop)
       = (Ok outcome,
          mkXState w2 true
            [EvExec cart_step; EvTier Optical; EvOcr None; EvTier Descriptive]).
Proof.
  assert (Htext : PyStr.strip (selector_or_empty (params cart_step)) <> EmptyString)
    by (vm_compute; discriminate).
  exact (@failed_ocr_falls_back_to_the_text _ _ driver _ cart_step (start shop)
           (failure "screenshot failed") shop eq_refl eq_refl eq_refl Htext eq_refl).
Defined.

(** X19 for a click on a missing element. *)
Lemma waited_for_witness :
  exists retry s2,
    _execute_step (click_step "#missing" "Buy") (mkXState blank true [EvSleep 3000])
    = (Ok retry, s2)
    /\ Entry retry
    /\ _attempt_recovery (click_step "#missing" "Buy") (error "Element not found: Buy")
         0 (start blank)
       = (Ok (if succeeded_b retry then Some retry else None), s2).
Proof.
  exact (@missing_element_is_waited_for _ _ driver _ (click_step "#missing" "Buy")
           "Buy" 0%nat (start blank) eq_refl).
Defined.

(** X20 at the cart page with nothing under the point. *)
Lemma coordinate_miss_witness :
  exists outcome,
    click_by_coordinates 125 210 (cart_page false) = (Ok outcome, cart_page false)
    /\ dict_get outcome "status" = Some "error"
    /\ forall (failed_step : Step) (step_index : nat) (s : XState World),
         _attempt_recovery failed_step outcome step_index s = (Ok None, s).
Proof.
  exact (@coordinate_miss_is_not_retried _ _ driver _ 125 210 (cart_page false)
           (cart_page false) eq_refl).
Defined.

(** X21 on the run with a failure, a pause and the completion. *)
Lemma finished_run_witness :
  3%nat = List.length transcript
  /\ 3%nat = List.length transcript
  /\ (List.length transcript <= 15)%nat
  /\ Forall Outcome transcript.
Proof.
  assert (H : execute_command_iteratively "open the new page"
                (start failure_then_complete)
              = (Ok (Finished "error" 3 3 transcript),
                 snd (execute_command_iteratively "open the new page"
                        (start failure_then_complete))))
    by (vm_compute; reflexivity).
  exact (@finished_run_counts_its_outcomes _ _ driver _ "open the new page"
           (start failure_then_complete) _ "error" 3%nat 3%nat transcript H).
Defined.

(** X25 for a selector with a functional pseudo-class. *)
Lemma hint_cut_witness :
  Parser.parse_response typing = Some typing_step
  /\ dom typing_step = PyStr.rstrip "input:not".
Proof.
  assert (H : Parser.parse_response typing = Some typing_step)
    by (vm_compute; reflexivity).
  assert (Hd : Parser.search_field "DOM:" typing = Some "input:not([type='submit'])")
    by (vm_compute; reflexivity).
  assert (Hp : free_of is_open_paren "input:not") by (cbn; repeat split; reflexivity).
  split; [ exact H | ].
  exact (@hint_is_cut_at_the_first_bracket _ typing typing_step
           "input:not([type='submit'])" "input:not" "[type='submit']"
           H Hd eq_refl Hp).
Defined.

(** X26 for an answer whose PARAM line is empty. *)
Lemma blank_param_witness :
  Parser.search_field "PARAM:" nameless_click = Some "DOM: #buy".
Proof.
  assert (Hbefore : free_of (Ascii.eqb "P") ("ACTION: C" ++ line_feed))
    by (cbn; repeat split; reflexivity).
  assert (Hgap : all_space (" " ++ line_feed)) by (vm_compute; reflexivity).
  assert (Hstart : PyStr.lstrip ("DOM: #buy" ++ EmptyString) = "DOM: #buy" ++ EmptyString)
    by (vm_compute; reflexivity).
  assert (Hline : free_of Parser.is_line_feed "DOM: #buy")
    by (cbn; repeat split; reflexivity).
  exact (@blank_param_takes_the_next_line ("ACTION: C" ++ line_feed)
           (" " ++ line_feed) "OM: #buy" EmptyString "D"%char
           Hbefore Hgap Hstart Hline I).
Defined.

(** X27 after a navigation to example.com. *)
Lemma url_of_navigation_witness :
  Parser.read_context
    ([error "Element not found: Buy"]
     ++ [success "Navigated to https://example.com"])%list
  = ("https://example.com", "Navigated to https://example.com").
Proof.
  exact (@parser_reads_the_url_of_a_navigation _ _ driver "example.com" blank
           (set_url "https://example.com" blank)
           (success "Navigated to https://example.com")
           [error "Element not found: Buy"] eq_refl eq_refl eq_refl).
Defined.


End MoreRuns.
